(** * Hypercore gRPC examples: a shallow embedding of the client glue code

    The development follows the JavaScript examples
    ([grpcRawDataExample/index.js], [grpcFilterExample/filter_example.js],
    [orderbookStreamExample/orderbook_stream_example.js],
    [replicaCmdsOnS3Example/s3_blocks_backfill.js]) and, where the text
    says so, their Go siblings.

    External collaborators (the zstd codec, Buffer's UTF-8 decoder,
    JSON.parse, the S3 listing, the gRPC runtime) are section variables or
    scripted inputs; everything the repository itself writes is a
    definition that computes.

    Numbers.  JavaScript numbers are IEEE doubles.  Retry counters,
    message counts and millisecond delays stay far below 2^53, where a
    double holds every integer exactly, and are modelled as [nat] or [Z].
    Block numbers and line counts come from file names and file lengths:
    they are values of [Js.number], which rounds to 53 significant bits
    as a double does and has NaN and the infinities. *)

From Stdlib Require Import ZArith NArith List Bool Lia.
From Stdlib Require Import Strings.String Strings.Ascii Strings.Byte.
From Stdlib Require Import Sorting.Sorted Sorting.Permutation.
Import ListNotations.

Set Implicit Arguments.

(* ================================================================== *)
(** * JavaScript strings *)
(* ================================================================== *)

Module Js.

(** A JavaScript string is a sequence of UTF-16 code units. *)
Definition jsstring := list N.

Definition lit (s : string) : jsstring :=
  map (fun a => N_of_ascii a) (list_ascii_of_string s).

(** Truthiness of a string: non-empty. *)
Definition truthy (s : jsstring) : bool :=
  match s with [] => false | _ :: _ => true end.

Fixpoint eqb (a b : jsstring) : bool :=
  match a, b with
  | [], [] => true
  | x :: a', y :: b' => N.eqb x y && eqb a' b'
  | _, _ => false
  end.

(** [s.split(c)] for a one-code-unit separator [c]: always at least one
    part. *)
Fixpoint split (c : N) (s : jsstring) : list jsstring :=
  match s with
  | [] => [[]]
  | x :: s' =>
      if N.eqb x c then [] :: split c s'
      else match split c s' with
           | [] => [[x]]
           | p :: ps => (x :: p) :: ps
           end
  end.

Fixpoint starts_with (pat s : jsstring) : bool :=
  match pat, s with
  | [], _ => true
  | _ :: _, [] => false
  | p :: pat', x :: s' => N.eqb p x && starts_with pat' s'
  end.

(** [s.replace(pat, "")] with a string pattern: the first occurrence of
    [pat], wherever it is, is removed. *)
Fixpoint remove_first (pat s : jsstring) : jsstring :=
  if starts_with pat s then skipn (List.length pat) s
  else match s with
       | [] => []
       | x :: s' => x :: remove_first pat s'
       end.

(** Code-unit order, the order of [<] on strings and of the default
    [Array.prototype.sort]. *)
Fixpoint leb (a b : jsstring) : bool :=
  match a, b with
  | [], _ => true
  | _ :: _, [] => false
  | x :: a', y :: b' =>
      if N.ltb x y then true
      else if N.eqb x y then leb a' b' else false
  end.

Fixpoint insert (x : jsstring) (l : list jsstring) : list jsstring :=
  match l with
  | [] => [x]
  | y :: l' => if leb x y then x :: l else y :: insert x l'
  end.

(** [items.sort()] on an array of strings.  Strings that compare equal
    are identical, so every sorting algorithm returns this list. *)
Fixpoint sort (l : list jsstring) : list jsstring :=
  match l with
  | [] => []
  | x :: l' => insert x (sort l')
  end.

(** WhiteSpace and LineTerminator code units (ECMA-262, 12.2 and 12.3),
    the set [String.prototype.trim] strips and [parseInt] skips. *)
Definition is_white_space (c : N) : bool :=
  (N.leb 9 c && N.leb c 13)            (* TAB LF VT FF CR *)
  || N.eqb c 32 || N.eqb c 160         (* SP, NBSP *)
  || N.eqb c 5760                      (* U+1680 *)
  || (N.leb 8192 c && N.leb c 8202)    (* U+2000 .. U+200A *)
  || N.eqb c 8232 || N.eqb c 8233      (* LS, PS *)
  || N.eqb c 8239 || N.eqb c 8287      (* U+202F, U+205F *)
  || N.eqb c 12288 || N.eqb c 65279.   (* U+3000, U+FEFF *)

(** [line.trim()] is truthy exactly when some code unit is not white
    space. *)
Definition trim_truthy (s : jsstring) : bool :=
  existsb (fun c => negb (is_white_space c)) s.

Fixpoint skip_white (s : jsstring) : jsstring :=
  match s with
  | c :: s' => if is_white_space c then skip_white s' else s
  | [] => []
  end.

Definition digit_of (c : N) : option Z :=
  if N.leb 48 c && N.leb c 57 then Some (Z.of_N c - 48)%Z else None.

(** Value of the longest prefix of decimal digits, [None] if it is
    empty. *)
Fixpoint digits (acc : option Z) (s : jsstring) : option Z :=
  match s with
  | [] => acc
  | c :: s' =>
      match digit_of c with
      | Some d =>
          digits (Some (10 * match acc with Some a => a | None => 0 end + d)%Z) s'
      | None => acc
      end
  end.

(** A Number that is no fraction: NaN, an integer that a double holds,
    or an infinity.  The sign of zero is left out; the code compares
    and adds these numbers and never divides by them. *)
Inductive number :=
| NaN
| Finite (z : Z)
| Infinity (negative : bool).

(** The double nearest to the natural number [n]: 53 significant bits
    are kept, and of two nearest doubles the one with the even
    significand is taken.  Up to 2^53 nothing is lost. *)
Definition round53 (n : Z) : Z :=
  let e := (Z.log2 n - 52)%Z in
  if (e <=? 0)%Z then n
  else
    let q := (n / 2 ^ e)%Z in
    let r := (n mod 2 ^ e)%Z in
    let half := (2 ^ (e - 1))%Z in
    let q' := if (r <? half)%Z then q
              else if (half <? r)%Z then (q + 1)%Z
              else if Z.even q then q else (q + 1)%Z in
    (q' * 2 ^ e)%Z.

(** The Number for the integer [z]: its nearest double, an infinity
    when that passes the largest double. *)
Definition to_number (z : Z) : number :=
  let m := round53 (Z.abs z) in
  if (m <? 2 ^ 1024)%Z then Finite (Z.sgn z * m)
  else Infinity (z <? 0)%Z.

(** [parseInt(s, 10)]: leading white space is skipped, one sign is
    accepted, the longest run of digits is read and the rest ignored;
    no digit gives NaN.  The result is the Number for the integer read,
    which V8 rounds exactly however many digits there are. *)
Definition parseInt (s : jsstring) : number :=
  let mathInt :=
    match skip_white s with
    | 45%N (* - *) :: r => option_map Z.opp (digits None r)
    | 43%N (* + *) :: r => digits None r
    | r => digits None r
    end in
  match mathInt with
  | Some z => to_number z
  | None => NaN
  end.

(** [a <= b] on numbers: false as soon as one side is NaN. *)
Definition num_le (a b : number) : bool :=
  match a, b with
  | NaN, _ | _, NaN => false
  | Finite x, Finite y => Z.leb x y
  | Infinity true, _ => true
  | _, Infinity false => true
  | _, _ => false
  end.

(** [a + b] for a Number [a] and a finite [b]: the exact sum, rounded. *)
Definition num_add (a : number) (b : Z) : number :=
  match a with
  | Finite x => to_number (x + b)
  | _ => a
  end.

End Js.

(* ================================================================== *)
(** * Payload decompression and the generic stream clients *)
(* ================================================================== *)

Module Payload.
Import Js.

Definition bytes := list byte.

(** The values [decompress] can be handed. *)
Inductive JsValue :=
| VUndefined
| VNull
| VBool (b : bool)
| VString (s : jsstring)
| VBuffer (b : bytes).

(** Outcome of an [async] function: its promise is fulfilled with a
    value or rejected. *)
Inductive Settled (A : Type) :=
| Fulfilled (a : A)
| Rejected.
Arguments Rejected {A}.

(** Outcome of the Go function, of type [(string, error)]; a Go string
    is its bytes, and the string returned with an error is empty. *)
Inductive GoResult :=
| GoOk (s : bytes)
| GoErr.

(** The zstd magic number, [0x28 0xB5 0x2F 0xFD]. *)
Definition magic : bytes := [x28; xb5; x2f; xfd].

Definition magic_prefixed (b : bytes) : Prop :=
  exists rest, b = magic ++ rest.

Definition byte_at (b : bytes) (i : nat) (x : byte) : bool :=
  match nth_error b i with
  | Some y => Byte.eqb y x
  | None => false
  end.

Section Decompress.
(** [zstd.decompress] / [decoder.DecodeAll]: [None] when the library
    reports an error. *)
Variable zstd_decompress : bytes -> option bytes.
(** [Buffer.prototype.toString('utf8')]. *)
Variable utf8 : bytes -> jsstring.

(** [decompress] of index.js and filter_example.js. *)
Definition decompress (data : JsValue) : Settled JsValue :=
  match data with
  | VBuffer b =>
      if (List.length b <? 4)%nat then Fulfilled data
      else if byte_at b 0 x28 && byte_at b 1 xb5
              && byte_at b 2 x2f && byte_at b 3 xfd
      then match zstd_decompress b with
           | Some d => Fulfilled (VString (utf8 d))
           | None => Rejected
           end
      else Fulfilled (VString (utf8 b))
  | _ => Fulfilled data
  end.

(** [decompress] of filter_example.go. *)
Definition go_decompress (data : bytes) : GoResult :=
  if (4 <=? List.length data)%nat
     && byte_at data 0 x28 && byte_at data 1 xb5
     && byte_at data 2 x2f && byte_at data 3 xfd
  then match zstd_decompress data with
       | Some d => GoOk d
       | None => GoErr
       end
  else GoOk data.

(** ToString, which [JSON.parse] and template literals apply to their
    argument; a Buffer's [toString()] decodes UTF-8. *)
Definition ToString (v : JsValue) : jsstring :=
  match v with
  | VUndefined => lit "undefined"
  | VNull => lit "null"
  | VBool true => lit "true"
  | VBool false => lit "false"
  | VString s => s
  | VBuffer b => utf8 b
  end.

(** [payload] is the compressed encoding of the text [T]. *)
Definition compressed_text (payload : bytes) (T : jsstring) : Prop :=
  exists raw, zstd_decompress payload = Some raw /\ utf8 raw = T.

(** ** The stream handlers *)

Variable Json : Type.
Variable JSON_parse : jsstring -> option Json.

(** [response.data]: block number and timestamp (64-bit fields, which
    the proto loader hands over as decimal strings and the handlers
    only print) and the payload, a bytes field delivered as a Buffer. *)
Record DataMsg := {
  block_number : Z;
  timestamp : Z;
  data : bytes
}.

Inductive Response :=
| RData (m : DataMsg)
| RPong (ts : Z)
| RNone.

Inductive Console :=
| LogBlockJson (block ts : Z) (j : Json)     (* header, then the JSON *)
| LogBlockText (block : Z) (text : jsstring) (* `Block n: ${decompressed}` *)
| LogBlock (block : Z)                       (* `Block n:` *)
| LogJson (j : Json)
| LogValue (v : JsValue)                     (* console.log(decompressed) *)
| LogPong (ts : Z)
| UnhandledRejection.

(** The ['data'] handler of [streamData(streamType, filters)] in
    index.js. *)
Definition streamData_onData (streamType : jsstring)
    (response : Response) : list Console :=
  match response with
  | RData m =>
      match decompress (VBuffer (data m)) with
      | Fulfilled decompressed =>
          match JSON_parse (ToString decompressed) with
          | Some parsed =>
              [LogBlockJson (block_number m) (timestamp m) parsed]
          | None =>
              [LogBlockText (block_number m) (ToString decompressed)]
          end
      | Rejected => [UnhandledRejection]
      end
  | RPong ts => [LogPong ts]
  | RNone => []
  end.

(** The ['data'] handler of [streamWithFilter] in filter_example.js. *)
Definition streamWithFilter_onData (response : Response) : list Console :=
  match response with
  | RData m =>
      match decompress (VBuffer (data m)) with
      | Fulfilled decompressed =>
          match JSON_parse (ToString decompressed) with
          | Some parsed => [LogBlock (block_number m); LogJson parsed]
          | None => [LogValue decompressed]
          end
      | Rejected => [UnhandledRejection]
      end
  | _ => []
  end.

End Decompress.
End Payload.

(* ================================================================== *)
(** * The generic stream client: subscription and session *)
(* ================================================================== *)

Module Stream.
Import Js Payload.

(** A filter argument of [streamData]: one value or an array. *)
Inductive FilterArg :=
| FOne (v : jsstring)
| FMany (vs : list jsstring).

(** The [filters] object, as [Object.entries] enumerates it. *)
Definition Filters := list (jsstring * FilterArg).

Record FilterValues := { values : list jsstring }.

Record Subscribe := {
  stream_type : jsstring;
  start_block : Z;
  filters : option (list (jsstring * FilterValues));
  filter_name : option jsstring
}.

Inductive Request :=
| ReqSubscribe (s : Subscribe)
| ReqPing (ts : Z).

(** [subscribeRequest] as [streamData] of index.js builds it
    (lines 52-67). *)
Definition subscribeRequest (streamType : jsstring) (fl : Filters)
  : Subscribe :=
  {| stream_type := streamType;
     start_block := 0;
     filters :=
       if (0 <? List.length fl)%nat
       then Some (map (fun '(field, v) =>
                         (field,
                          {| values := match v with
                                       | FMany vs => vs
                                       | FOne x => [x]
                                       end |})) fl)
       else None;
     filter_name := None |}.

(** The request [streamWithFilter] writes (filter_example.js lines
    44-54; filter_example.go lines 56-64 carries the same values). *)
Definition filterSubscribe : Subscribe :=
  {| stream_type := lit "TRADES";
     start_block := 0;
     filters := Some [(lit "coin",
                       {| values := [lit "ETH"; lit "BTC"] |})];
     filter_name := Some (lit "eth-btc-trades") |}.

Section Session.
Variable zstd_decompress : bytes -> option bytes.
Variable utf8 : bytes -> jsstring.
Variable Json : Type.
Variable JSON_parse : jsstring -> option Json.

(** What the runtime delivers to a running call: a response, the
    call's error, its end, or a tick of the 30 s keep-alive timer
    (with [Date.now()]). *)
Inductive Event :=
| EvResponse (r : Response)
| EvError (msg : jsstring)
| EvEnd
| EvTick (now : Z).

Inductive Action :=
| Write (r : Request)
| LogFilters (fl : Filters)
| LogStreaming (streamType : jsstring)
| LogFiltered         (* 'Streaming TRADES filtered by coin: ETH, BTC' *)
| Print (c : Console Json)
| LogError (msg : jsstring)
| LogEnded.

Definition handle (streamType : jsstring) (e : Event) : list Action :=
  match e with
  | EvResponse r =>
      map Print (streamData_onData zstd_decompress utf8 JSON_parse
                   streamType r)
  | EvError msg => [LogError msg]
  | EvEnd => [LogEnded]
  | EvTick now => [Write (ReqPing now)]
  end.

(** [streamData(streamType, filters)] run against the events of its
    call. *)
Definition streamData (streamType : jsstring) (fl : Filters)
    (events : list Event) : list Action :=
  (if (0 <? List.length fl)%nat then [LogFilters fl] else [])
  ++ [Write (ReqSubscribe (subscribeRequest streamType fl));
      LogStreaming streamType]
  ++ flat_map (handle streamType) events.

(** The subscribe intents among the actions. *)
Definition subscribes (acts : list Action) : list Subscribe :=
  flat_map (fun a => match a with
                     | Write (ReqSubscribe s) => [s]
                     | _ => []
                     end) acts.

(** The cursor of the spec, [lastConfirmedCursor]: the sequence number
    of the last DataUnit processed.  The clients keep no such variable,
    so it is read off the events delivered. *)
Fixpoint lastConfirmedCursor (acc : option Z) (events : list Event)
  : option Z :=
  match events with
  | [] => acc
  | EvResponse (RData m) :: rest =>
      lastConfirmedCursor (Some (block_number m)) rest
  | _ :: rest => lastConfirmedCursor acc rest
  end.

(** The start position the spec gives a resumed subscription,
    [max(config.startCursor, lastConfirmedCursor + 1)]. *)
Definition spec_resume_start (startCursor : Z) (cursor : Z) : Z :=
  Z.max startCursor (cursor + 1).

(** The same when the session may not have confirmed anything yet:
    then the start position is [config.startCursor]. *)
Definition spec_start (startCursor : Z) (cursor : option Z) : Z :=
  match cursor with
  | Some c => spec_resume_start startCursor c
  | None => startCursor
  end.

(** ** Runs with the events in place *)

(** A run as it unfolds: what the runtime delivers and what the client
    does, in order. *)
Inductive Step :=
| Got (e : Event)
| Did (a : Action).

Definition events_of (steps : list Step) : list Event :=
  flat_map (fun s => match s with Got e => [e] | Did _ => [] end) steps.

Definition actions_of (steps : list Step) : list Action :=
  flat_map (fun s => match s with Did a => [a] | Got _ => [] end) steps.

(** What [streamData] does before it returns, lines 46-70. *)
Definition streamData_start (streamType : jsstring) (fl : Filters)
  : list Action :=
  (if (0 <? List.length fl)%nat then [LogFilters fl] else [])
  ++ [Write (ReqSubscribe (subscribeRequest streamType fl));
      LogStreaming streamType].

(** The handlers then run as the events come. *)
Definition run (start : list Action) (handler : Event -> list Action)
    (events : list Event) : list Step :=
  map Did start
  ++ flat_map (fun e => Got e :: map Did (handler e)) events.

Definition streamData_run (streamType : jsstring) (fl : Filters)
    (events : list Event) : list Step :=
  run (streamData_start streamType fl) (handle streamType) events.

(** [streamWithFilter] of filter_example.js, lines 36-75: it writes
    its request and logs; data is printed by the ['data'] handler, an
    error is logged, the keep-alive timer writes pings, and the end of
    the stream has no handler. *)
Definition streamWithFilter_start : list Action :=
  [Write (ReqSubscribe filterSubscribe); LogFiltered].

Definition streamWithFilter_handle (e : Event) : list Action :=
  match e with
  | EvResponse r =>
      map Print (streamWithFilter_onData zstd_decompress utf8 JSON_parse r)
  | EvError msg => [LogError msg]
  | EvEnd => []
  | EvTick now => [Write (ReqPing now)]
  end.

Definition streamWithFilter_run (events : list Event) : list Step :=
  run streamWithFilter_start streamWithFilter_handle events.

(** A step that is no subscribe intent. *)
Definition quiet (x : Step) : Prop :=
  match x with
  | Did (Write (ReqSubscribe _)) => False
  | _ => True
  end.

(** The subscribe intents of a run, each with the steps before it. *)
Fixpoint intents (before steps : list Step)
  : list (list Step * Subscribe) :=
  match steps with
  | [] => []
  | Did (Write (ReqSubscribe s)) :: rest =>
      (before, s) :: intents (before ++ [Did (Write (ReqSubscribe s))]) rest
  | x :: rest => intents (before ++ [x]) rest
  end.

End Session.

(** ** Go: [streamWithFilter] of filter_example.go *)

Section GoSession.
(** [decoder.DecodeAll] of klauspost/compress and [json.Unmarshal]. *)
Variable zstd_decompress : bytes -> option bytes.
Variable GoJson : Type.
Variable Unmarshal : bytes -> option GoJson.

(** What the receive loop meets: a response, the end of the stream, an
    error, or, in between, a tick of the keep-alive goroutine (with
    [time.Now().UnixMilli()]). *)
Inductive GoEvent :=
| GoRecv (r : Response)
| GoRecvEOF
| GoRecvError (msg : jsstring)
| GoTick (now : Z).

Inductive GoAction :=
| GoSend (r : Request)
| GoLogFiltered
| GoPrintBlock (block : Z) (parsed : GoJson).

Inductive GoStep :=
| GoGot (e : GoEvent)
| GoDid (a : GoAction).

(** How far the function gets before its loop: [grpc.Dial],
    [client.StreamData] or [stream.Send] may fail. *)
Inductive GoOpening :=
| DialFails (msg : jsstring)
| StreamDataFails (msg : jsstring)
| SendFails (msg : jsstring)
| Subscribed.

Inductive GoReturned :=
| ReturnedNil
| ReturnedErr (msg : jsstring)
| Receiving.

(** The body of the loop for a response, lines 94-101: a payload that
    fails to decompress is read as the empty string. *)
Definition go_filter_onData (r : Response) : list GoAction :=
  match r with
  | RData m =>
      let decompressed :=
        match go_decompress zstd_decompress (data m) with
        | GoOk text => text
        | GoErr => []
        end in
      match Unmarshal decompressed with
      | Some parsed => [GoPrintBlock (block_number m) parsed]
      | None => []
      end
  | _ => []
  end.

(** The loop, lines 85-102. *)
Fixpoint go_filter_loop (events : list GoEvent)
  : list GoStep * GoReturned :=
  match events with
  | [] => ([], Receiving)
  | GoRecv r :: rest =>
      let '(steps, ret) := go_filter_loop rest in
      (GoGot (GoRecv r) :: map GoDid (go_filter_onData r) ++ steps, ret)
  | GoTick now :: rest =>
      let '(steps, ret) := go_filter_loop rest in
      (GoGot (GoTick now) :: GoDid (GoSend (ReqPing now)) :: steps, ret)
  | GoRecvEOF :: _ => ([GoGot GoRecvEOF], ReturnedNil)
  | GoRecvError msg :: _ => ([GoGot (GoRecvError msg)], ReturnedErr msg)
  end.

(** [streamWithFilter], lines 38-103; the request carries the values
    of [filterSubscribe]. *)
Definition go_streamWithFilter (o : GoOpening) (events : list GoEvent)
  : list GoStep * GoReturned :=
  match o with
  | DialFails msg => ([], ReturnedErr msg)
  | StreamDataFails msg => ([], ReturnedErr msg)
  | SendFails msg =>
      ([GoDid (GoSend (ReqSubscribe filterSubscribe))], ReturnedErr msg)
  | Subscribed =>
      let '(steps, ret) := go_filter_loop events in
      (GoDid (GoSend (ReqSubscribe filterSubscribe)) :: GoDid GoLogFiltered
       :: steps, ret)
  end.

(** The cursor of the spec, read off the responses received. *)
Fixpoint go_lastConfirmedCursor (acc : option Z) (steps : list GoStep)
  : option Z :=
  match steps with
  | [] => acc
  | GoGot (GoRecv (RData m)) :: rest =>
      go_lastConfirmedCursor (Some (block_number m)) rest
  | _ :: rest => go_lastConfirmedCursor acc rest
  end.

Definition go_quiet (x : GoStep) : Prop :=
  match x with
  | GoDid (GoSend (ReqSubscribe _)) => False
  | _ => True
  end.

Fixpoint go_intents (before steps : list GoStep)
  : list (list GoStep * Subscribe) :=
  match steps with
  | [] => []
  | GoDid (GoSend (ReqSubscribe s)) :: rest =>
      (before, s)
      :: go_intents (before ++ [GoDid (GoSend (ReqSubscribe s))]) rest
  | x :: rest => go_intents (before ++ [x]) rest
  end.

End GoSession.
End Stream.

(* ================================================================== *)
(** * The order-book client: reconnect with backoff *)
(* ================================================================== *)

Module Orderbook.
Import Js.

Definition maxRetries : nat := 10.

(** gRPC status codes. *)
Definition CANCELLED : Z := 1.
Definition PERMISSION_DENIED : Z := 7.
Definition UNAVAILABLE : Z := 14.
Definition DATA_LOSS : Z := 15.
Definition UNAUTHENTICATED : Z := 16.

Record GrpcError := { code : Z; message : jsstring }.

(** The request of [StreamL2Book]: a coin and a number of levels. *)
Record L2BookRequest := { coin : jsstring; n_levels : Z }.

(** The two variables the handlers of one invocation close over. *)
Record Vars := { retryCount : nat; msgCount : nat }.

Section L2.
(** The [L2BookUpdate] message; how it is printed is not modelled. *)
Variable Update : Type.

(** ** JavaScript: [streamL2Orderbook] *)

(** milliseconds *)
Definition baseDelay : Z := 2000.

(** How a server-streaming call goes: it delivers updates and then
    ends, fails with an error, or stays open.  An ['end'] event that
    the runtime may emit after an error would only print and is left
    out.  [Threw] is [client.StreamL2Book] throwing synchronously. *)
Inductive Ending :=
| Ended
| Errored (e : GrpcError)
| Pending.

Inductive Conn :=
| Threw (msg : jsstring)
| Call (updates : list Update) (e : Ending).

Inductive Out :=
| LogHeader (coin : jsstring) (nLevels : Z) (autoReconnect : bool)
| LogConnecting
| LogReconnecting (attempt max : nat)
| StreamL2Book (request : L2BookRequest)
| LogFirstUpdate
| LogUpdate (u : Update) (msgCount : nat)
| LogReinitialized (msg : jsstring)
| LogWaiting (delay : Z)
| SetTimeout (delay : Z)        (* timer of a new streamL2Orderbook call *)
| LogMaxRetries (max : nat)
| LogGrpcError (code : Z) (msg : jsstring)
| LogStreamEnded
| LogCaught (msg : jsstring).

(** [call.on('data', ...)], lines 59-99. *)
Definition onData (v : Vars) (u : Update) : Vars * list Out :=
  let msgCount := S (msgCount v) in
  if (msgCount =? 1)%nat
  then ({| retryCount := 0; msgCount := msgCount |},
        [LogFirstUpdate; LogUpdate u msgCount])
  else ({| retryCount := retryCount v; msgCount := msgCount |},
        [LogUpdate u msgCount]).

(** [call.on('error', ...)], lines 101-115.  The third component is
    the delay of the timer it sets, if it sets one. *)
Definition onError (autoReconnect : bool) (v : Vars) (err : GrpcError)
  : Vars * list Out * option Z :=
  if Z.eqb (code err) DATA_LOSS && autoReconnect then
    let retryCount := S (retryCount v) in
    let v' := {| retryCount := retryCount; msgCount := msgCount v |} in
    if (retryCount <? maxRetries)%nat then
      let delay := (baseDelay * 2 ^ Z.of_nat (retryCount - 1))%Z in
      (v', [LogReinitialized (message err); LogWaiting delay;
            SetTimeout delay], Some delay)
    else
      (v', [LogReinitialized (message err); LogMaxRetries maxRetries],
       None)
  else (v, [LogGrpcError (code err) (message err)], None).

Fixpoint deliver (v : Vars) (us : list Update) : Vars * list Out :=
  match us with
  | [] => (v, [])
  | u :: us' =>
      let '(v1, o1) := onData v u in
      let '(v2, o2) := deliver v1 us' in
      (v2, o1 ++ o2)
  end.

(** One invocation of [streamL2Orderbook]: what it prints and does,
    the variables when its call is over, and the timer it has set. *)
Record Run := {
  outs : list Out;
  vars : Vars;
  timer : option Z
}.

Definition invocation (coin : jsstring) (nLevels : Z)
    (autoReconnect : bool) (c : Conn) : Run :=
  let retryCount := 0%nat in
  let request := {| coin := coin; n_levels := nLevels |} in
  let header := [LogHeader coin nLevels autoReconnect] in
  let v0 := {| retryCount := retryCount; msgCount := 0 |} in
  (* while (retryCount < maxRetries): both exits of the body break *)
  if (retryCount <? maxRetries)%nat then
    let hello := if (0 <? retryCount)%nat
                 then LogReconnecting (retryCount + 1) maxRetries
                 else LogConnecting in
    match c with
    | Threw msg =>
        {| outs := header ++ [hello; LogCaught msg];
           vars := v0; timer := None |}
    | Call us e =>
        let '(v1, o1) := deliver v0 us in
        let '(v2, o2, t) :=
          match e with
          | Ended => (v1, [LogStreamEnded], None)
          | Errored err => onError autoReconnect v1 err
          | Pending => (v1, [], None)
          end in
        {| outs := header ++ [hello; StreamL2Book request] ++ o1 ++ o2;
           vars := v2; timer := t |}
    end
  else {| outs := header; vars := v0; timer := None |}.

(** The whole session: every timer that is set starts a new
    invocation, which meets the next connection of the script. *)
Fixpoint streamL2Orderbook (coin : jsstring) (nLevels : Z)
    (autoReconnect : bool) (world : list Conn) : list Run :=
  match world with
  | [] => []
  | c :: rest =>
      let r := invocation coin nLevels autoReconnect c in
      r :: match timer r with
           | Some _ => streamL2Orderbook coin nLevels autoReconnect rest
           | None => []
           end
  end.

Definition console (runs : list Run) : list Out :=
  flat_map outs runs.

(** The delays of the timers set, in order. *)
Definition delays (runs : list Run) : list Z :=
  flat_map (fun r => match timer r with
                     | Some d => [d]
                     | None => []
                     end) runs.

(** The requests sent, in order. *)
Definition requests (os : list Out) : list L2BookRequest :=
  flat_map (fun o => match o with
                     | StreamL2Book q => [q]
                     | _ => []
                     end) os.

(** ** Go: [streamL2Orderbook] *)

(** nanoseconds: [2 * time.Second] *)
Definition goBaseDelay : Z := 2 * 1000000000.

Inductive RecvError :=
| StatusError (e : GrpcError)   (* status.FromError succeeds *)
| PlainError (msg : jsstring).

Inductive GoEnding :=
| EOF
| Failed (e : RecvError)
| Blocked.

Inductive GoConn :=
| DialError (msg : jsstring)
| OpenError (msg : jsstring)
| Stream (updates : list Update) (e : GoEnding).

Inductive GoOut :=
| GLogHeader (coin : jsstring) (nLevels : Z)
| GDial
| GLogConnecting
| GLogReconnecting (attempt max : nat)
| GStreamL2Book (request : L2BookRequest)
| GLogFirstUpdate
| GLogUpdate (u : Update) (msgCount : nat)
| GLogReinitialized (msg : jsstring)
| GLogWaiting (delay : Z)
| GSleep (delay : Z)
| GLogMaxRetries (max : nat)
| GClose.

Inductive GoReturn :=
| ReturnNil
| FailedToConnect (msg : jsstring)
| FailedToStartStream (msg : jsstring)
| StreamErr (e : RecvError)
| NoReturn.          (* still in Recv, or the script is over *)

(** The successful receives of the inner loop, lines 98-143. *)
Fixpoint go_recv (retryCount msgCount : nat) (us : list Update)
  : nat * nat * list GoOut :=
  match us with
  | [] => (retryCount, msgCount, [])
  | u :: us' =>
      let msgCount := S msgCount in
      let '(retryCount, first) :=
        if (msgCount =? 1)%nat then (0%nat, [GLogFirstUpdate])
        else (retryCount, []) in
      let '(rc, mc, o) := go_recv retryCount msgCount us' in
      (rc, mc, first ++ GLogUpdate u msgCount :: o)
  end.

Definition is_data_loss (e : RecvError) : bool :=
  match e with
  | StatusError st => Z.eqb (code st) DATA_LOSS
  | PlainError _ => false
  end.

Definition error_message (e : RecvError) : jsstring :=
  match e with
  | StatusError st => message st
  | PlainError m => m
  end.

(** The outer loop [for retryCount < maxRetries], lines 40-151. *)
Fixpoint go_loop (request : L2BookRequest) (retryCount : nat)
    (world : list GoConn) : list GoOut * GoReturn :=
  if (retryCount <? maxRetries)%nat then
    match world with
    | [] => ([], NoReturn)
    | c :: rest =>
        let hello := if (0 <? retryCount)%nat
                     then GLogReconnecting (retryCount + 1) maxRetries
                     else GLogConnecting in
        match c with
        | DialError m => ([GDial], FailedToConnect m)
        | OpenError m =>
            ([GDial; hello; GStreamL2Book request; GClose],
             FailedToStartStream m)
        | Stream us e =>
            let '(rc, _, o) := go_recv retryCount 0 us in
            let pre := [GDial; hello; GStreamL2Book request] ++ o in
            match e with
            | EOF => (pre ++ [GClose], ReturnNil)
            | Blocked => (pre, NoReturn)
            | Failed err =>
                if is_data_loss err then
                  let rc := S rc in
                  if (rc <? maxRetries)%nat then
                    let delay :=
                      (goBaseDelay * 2 ^ Z.of_nat (rc - 1))%Z in
                    let '(o', ret) := go_loop request rc rest in
                    (pre ++ [GLogReinitialized (error_message err);
                             GLogWaiting delay; GSleep delay; GClose]
                         ++ o', ret)
                  else
                    (pre ++ [GLogReinitialized (error_message err);
                             GLogMaxRetries maxRetries; GClose],
                     ReturnNil)
                else (pre ++ [GClose], StreamErr err)
            end
        end
    end
  else ([], ReturnNil).

Definition go_streamL2Orderbook (coin : jsstring) (nLevels : Z)
    (world : list GoConn) : list GoOut * GoReturn :=
  let '(o, ret) :=
    go_loop {| coin := coin; n_levels := nLevels |} 0 world in
  (GLogHeader coin nLevels :: o, ret).

Definition go_sleeps (os : list GoOut) : list Z :=
  flat_map (fun o => match o with
                     | GSleep d => [d]
                     | _ => []
                     end) os.

Definition go_dials (os : list GoOut) : nat :=
  List.length (filter (fun o => match o with
                                | GDial => true
                                | _ => false
                                end) os).

(** The requests the Go client sends, in order. *)
Definition go_requests (os : list GoOut) : list L2BookRequest :=
  flat_map (fun o => match o with
                     | GStreamL2Book q => [q]
                     | _ => []
                     end) os.

(** ** The spec's vocabulary, read off the client's output *)

(** The events of the spec's session controller: a subscribe intent
    with its start position, and the notification
    [GapDetected{from, to}].  The client's request has no start
    position and the client has no notification, so its output maps to
    intents without a start. *)
Inductive SpecEvent :=
| SubscribeIntent (start : option Z)
| GapDetected (from to : Z).

Definition observe (o : Out) : list SpecEvent :=
  match o with
  | StreamL2Book _ => [SubscribeIntent None]
  | _ => []
  end.

Definition go_observe (o : GoOut) : list SpecEvent :=
  match o with
  | GStreamL2Book _ => [SubscribeIntent None]
  | _ => []
  end.

(** The gap scenario of the spec.  With the cursor at [cursor] and the
    upstream's minimum at [minimum], the events of the session are to
    hold a resume that asks for [minimum], with
    [GapDetected{from: cursor + 1, to: minimum}] emitted before it. *)
Definition gap_reported (events : list SpecEvent)
    (cursor minimum : Z) : Prop :=
  exists before after,
    events = before ++ SubscribeIntent (Some minimum) :: after
    /\ In (GapDetected (cursor + 1) minimum) before.

(** A fault is recoverable, in the spec's sense, when the session goes
    on to wait before it connects again. *)
Definition go_enters_backoff (os : list GoOut) : Prop :=
  exists d, In (GSleep d) os.

End L2.
End Orderbook.

(* ================================================================== *)
(** * The S3 backfill script *)
(* ================================================================== *)

Module Backfill.
Import Js.

Definition BLOCKS_PREFIX : jsstring := lit "replica_cmds".
Definition slash : N := 47.
Definition dash : N := 45.

Record BlockRange := {
  checkpoint : jsstring;
  date : jsstring;
  startBlock : number;
  endBlock : number;
  s3Key : jsstring
}.

(** [parseBlockRange], lines 65-79.  [const [start, end] = ...] takes
    the first two dash-separated fields; a missing field is
    [undefined], which is falsy like the empty string. *)
Definition parseBlockRange (key : jsstring) : option BlockRange :=
  let parts := split slash key in
  if negb (List.length parts =? 4)%nat
     || negb (eqb (nth 0 parts []) BLOCKS_PREFIX)
  then None
  else
    let fields := split dash (nth 3 parts []) in
    match nth_error fields 0, nth_error fields 1 with
    | Some start, Some end_ =>
        if negb (truthy start) || negb (truthy end_) then None
        else Some {| checkpoint := nth 1 parts [];
                     date := nth 2 parts [];
                     startBlock := parseInt start;
                     endBlock := parseInt end_;
                     s3Key := key |}
    | _, _ => None
    end.

(** A key in the documented layout,
    [replica_cmds/{checkpoint}/{date}/{start}-{end}]: four segments,
    the last made of two runs of decimal digits with one dash between
    them. *)
Definition is_numeral (s : jsstring) : bool :=
  truthy s
  && forallb (fun c => match digit_of c with
                       | Some _ => true
                       | None => false
                       end) s.

Definition well_formed_key (key : jsstring) : bool :=
  match split slash key with
  | [prefix; _; _; file] =>
      eqb prefix BLOCKS_PREFIX
      && match split dash file with
         | [start; end_] => is_numeral start && is_numeral end_
         | _ => false
         end
  | _ => false
  end.

(** The answer of [ListObjectsV2]: the prefixes and the keys, each of
    which may be missing. *)
Record ListResponse := {
  CommonPrefixes : list (option jsstring);
  Contents : list (option jsstring)
}.

Definition keep_truthy (name : jsstring) : list jsstring :=
  if truthy name then [name] else [].

Section S3.
(** The bucket: what [s3.send(new ListObjectsV2Command(...))] answers
    for a prefix, [None] when it throws. *)
Variable s3_list : jsstring -> option ListResponse.

(** [listS3], lines 84-118. *)
Definition listS3 (prefix : jsstring) : list jsstring :=
  match s3_list prefix with
  | None => []
  | Some response =>
      let dirs :=
        flat_map (fun p =>
                    match p with
                    | Some pfx =>
                        if truthy pfx
                        then keep_truthy
                               (remove_first [slash]
                                  (remove_first prefix pfx))
                        else []
                    | None => []
                    end) (CommonPrefixes response) in
      let files :=
        flat_map (fun k =>
                    match k with
                    | Some key =>
                        if truthy key
                        then keep_truthy (remove_first prefix key)
                        else []
                    | None => []
                    end) (Contents response) in
      sort (dirs ++ files)
  end.

Definition contains (br : BlockRange) (targetBlock : Z) : bool :=
  num_le (startBlock br) (Finite targetBlock)
  && num_le (Finite targetBlock) (endBlock br).

Definition file_key (checkpoint date file : jsstring) : jsstring :=
  BLOCKS_PREFIX ++ [slash] ++ checkpoint ++ [slash] ++ date
  ++ [slash] ++ file.

(** The inner loop of [findBlockFile], lines 132-137. *)
Fixpoint scan_files (targetBlock : Z) (checkpoint date : jsstring)
    (files : list jsstring) : option BlockRange :=
  match files with
  | [] => None
  | file :: rest =>
      match parseBlockRange (file_key checkpoint date file) with
      | Some br =>
          if contains br targetBlock then Some br
          else scan_files targetBlock checkpoint date rest
      | None => scan_files targetBlock checkpoint date rest
      end
  end.

(** The outer loop, lines 130-138. *)
Fixpoint scan_dates (targetBlock : Z) (checkpoint : jsstring)
    (dates : list jsstring) : option BlockRange :=
  match dates with
  | [] => None
  | date :: rest =>
      let files :=
        listS3 (BLOCKS_PREFIX ++ [slash] ++ checkpoint ++ [slash]
                ++ date ++ [slash]) in
      match scan_files targetBlock checkpoint date files with
      | Some br => Some br
      | None => scan_dates targetBlock checkpoint rest
      end
  end.

(** [findBlockFile], lines 123-141. *)
Definition findBlockFile (targetBlock : Z) : option BlockRange :=
  let checkpoints := listS3 (BLOCKS_PREFIX ++ [slash]) in
  match checkpoints with
  | [] => None
  | _ :: _ =>
      let checkpoint := last checkpoints [] in
      let dates :=
        listS3 (BLOCKS_PREFIX ++ [slash] ++ checkpoint ++ [slash]) in
      scan_dates targetBlock checkpoint dates
  end.

End S3.

Section StreamBlocks.
Variable Json : Type.
Variable JSON_parse : jsstring -> option Json.

Record Block := {
  blockNumber : number;
  data : Json
}.

(** The loop of [streamBlocks], lines 162-175, over the lines the
    readline interface produces; the result lists the records
    yielded.  [lineNumber] is a Number too: [lineNumber++] adds one and
    rounds. *)
Fixpoint streamBlocks_loop (blockRange : BlockRange) (lineNumber : Z)
    (lines : list jsstring) : list Block :=
  match lines with
  | [] => []
  | line :: rest =>
      if trim_truthy line then
        match JSON_parse line with
        | Some d =>
            {| blockNumber := num_add (startBlock blockRange) lineNumber;
               data := d |}
            :: streamBlocks_loop blockRange (round53 (lineNumber + 1)) rest
        | None =>
            streamBlocks_loop blockRange (round53 (lineNumber + 1)) rest
        end
      else streamBlocks_loop blockRange lineNumber rest
  end.

(** [streamBlocks(blockRange)], lines 148-176; [s3_lines] gives the
    lines the readline interface delivers for the object stored under
    a key: readline ends a line at LF, at CR LF and at a lone CR. *)
Definition streamBlocks (s3_lines : jsstring -> list jsstring)
    (blockRange : BlockRange) : list Block :=
  streamBlocks_loop blockRange 0 (s3_lines (s3Key blockRange)).

(** What the line of index [i] contributes: nothing when it is blank
    or malformed, else one record numbered by the count [n] given. *)
Definition record_of (blockRange : BlockRange) (n : nat)
    (line : jsstring) : list Block :=
  if trim_truthy line then
    match JSON_parse line with
    | Some d => [{| blockNumber :=
                      num_add (startBlock blockRange) (Z.of_nat n);
                    data := d |}]
    | None => []
    end
  else [].

(** Number of non-blank lines among the first [i]. *)
Definition nonblank_before (lines : list jsstring) (i : nat) : nat :=
  List.length (filter trim_truthy (firstn i lines)).

End StreamBlocks.

(** ** Go: s3_blocks_backfill.go *)

(** A Go string is a sequence of bytes, written here as numbers below
    256.  On such sequences [strings.Split] with a one-byte separator is
    [split] and the order of [sort.Strings] is [leb]. *)
Definition gostring := list N.

Fixpoint all_digits (acc : Z) (s : gostring) : option Z :=
  match s with
  | [] => Some acc
  | c :: s' =>
      match digit_of c with
      | Some d => all_digits (10 * acc + d) s'
      | None => None
      end
  end.

(** [strconv.ParseInt(s, 10, 64)]: an optional sign, then digits and
    nothing else, at least one; the value has to fit [int64]. *)
Definition ParseInt (s : gostring) : option Z :=
  let '(neg, body) :=
    match s with
    | 43%N :: r => (false, r)
    | 45%N :: r => (true, r)
    | _ => (false, s)
    end in
  match body with
  | [] => None
  | _ :: _ =>
      match all_digits 0 body with
      | Some un =>
          let v := if neg then (- un)%Z else un in
          if (- 2 ^ 63 <=? v)%Z && (v <? 2 ^ 63)%Z then Some v else None
      | None => None
      end
  end.

Record GoBlockRange := {
  Checkpoint : gostring;
  Date : gostring;
  StartBlock : Z;
  EndBlock : Z;
  S3Key : gostring
}.

(** [ParseBlockRange], lines 81-105. *)
Definition ParseBlockRange (key : gostring) : option GoBlockRange :=
  let parts := split slash key in
  if negb (List.length parts =? 4)%nat
     || negb (eqb (nth 0 parts []) BLOCKS_PREFIX)
  then None
  else
    let rangeParts := split dash (nth 3 parts []) in
    if negb (List.length rangeParts =? 2)%nat then None
    else
      match ParseInt (nth 0 rangeParts []), ParseInt (nth 1 rangeParts []) with
      | Some start, Some end_ =>
          Some {| Checkpoint := nth 1 parts [];
                  Date := nth 2 parts [];
                  StartBlock := start;
                  EndBlock := end_;
                  S3Key := key |}
      | _, _ => None
      end.

(** [strings.TrimPrefix] and [strings.TrimSuffix(name, "/")]. *)
Definition TrimPrefix (s prefix : gostring) : gostring :=
  if starts_with prefix s then skipn (List.length prefix) s else s.

Definition TrimSlash (s : gostring) : gostring :=
  match rev s with
  | c :: r => if N.eqb c slash then rev r else s
  | [] => s
  end.

(** [strings.TrimSpace(line) == ""]: every rune of the line is white
    space ([unicode.IsSpace]), read off the UTF-8 bytes. *)
Fixpoint all_space (s : gostring) : bool :=
  match s with
  | [] => true
  | c :: r =>
      if (N.leb 9 c && N.leb c 13) || N.eqb c 32 then all_space r
      else
        match c, r with
        | 194%N, c1 :: r1 =>                (* U+0085, U+00A0 *)
            (N.eqb c1 133 || N.eqb c1 160) && all_space r1
        | 225%N, 154%N :: 128%N :: r2 =>    (* U+1680 *)
            all_space r2
        | 226%N, 128%N :: c2 :: r2 =>       (* U+2000-200A, 2028, 2029, 202F *)
            ((N.leb 128 c2 && N.leb c2 138) || N.eqb c2 168
             || N.eqb c2 169 || N.eqb c2 175) && all_space r2
        | 226%N, 129%N :: 159%N :: r2 =>    (* U+205F *)
            all_space r2
        | 227%N, 128%N :: 128%N :: r2 =>    (* U+3000 *)
            all_space r2
        | _, _ => false
        end
  end.

Inductive GoFound :=
| Found (br : GoBlockRange)
| NotFound                 (* nil, nil *)
| ListError.               (* nil, err *)

Section GoS3.
(** [client.ListObjectsV2]: the prefixes and the keys, [None] for an
    error. *)
Variable go_s3_list : gostring -> option (list gostring * list gostring).

(** [listS3], lines 166-200. *)
Definition go_listS3 (prefix : gostring) : option (list gostring) :=
  match go_s3_list prefix with
  | None => None
  | Some (prefixes, contents) =>
      Some (sort
              (flat_map (fun p => keep_truthy
                                    (TrimSlash (TrimPrefix p prefix)))
                 prefixes
               ++ flat_map (fun k => keep_truthy (TrimPrefix k prefix))
                    contents))
  end.

Fixpoint go_scan_files (targetBlock : Z) (checkpoint date : gostring)
    (files : list gostring) : option GoBlockRange :=
  match files with
  | [] => None
  | file :: rest =>
      match ParseBlockRange (file_key checkpoint date file) with
      | Some br =>
          if (StartBlock br <=? targetBlock)%Z
             && (targetBlock <=? EndBlock br)%Z
          then Some br
          else go_scan_files targetBlock checkpoint date rest
      | None => go_scan_files targetBlock checkpoint date rest
      end
  end.

Fixpoint go_scan_dates (targetBlock : Z) (checkpoint : gostring)
    (dates : list gostring) : option GoBlockRange :=
  match dates with
  | [] => None
  | date :: rest =>
      match go_listS3 (BLOCKS_PREFIX ++ [slash] ++ checkpoint ++ [slash]
                       ++ date ++ [slash]) with
      | None => go_scan_dates targetBlock checkpoint rest    (* continue *)
      | Some files =>
          match go_scan_files targetBlock checkpoint date files with
          | Some br => Some br
          | None => go_scan_dates targetBlock checkpoint rest
          end
      end
  end.

(** [findBlockFile], lines 203-231. *)
Definition go_findBlockFile (targetBlock : Z) : GoFound :=
  match go_listS3 (BLOCKS_PREFIX ++ [slash]) with
  | None => ListError
  | Some [] => NotFound
  | Some checkpoints =>
      let checkpoint := last checkpoints [] in
      match go_listS3 (BLOCKS_PREFIX ++ [slash] ++ checkpoint ++ [slash]) with
      | None => ListError
      | Some dates =>
          match go_scan_dates targetBlock checkpoint dates with
          | Some br => Found br
          | None => NotFound
          end
      end
  end.

End GoS3.

Section GoStreamBlocks.
Variable Json : Type.
(** [json.Unmarshal] into a map, [None] for an error. *)
Variable Unmarshal : gostring -> option Json.

Record GoBlock := {
  BlockNumber : Z;
  Data : Json
}.

(** [int64] addition. *)
Definition add64 (a b : Z) : Z :=
  ((a + b + 2 ^ 63) mod 2 ^ 64 - 2 ^ 63)%Z.

(** [scanner.Buffer(buf, 10*1024*1024)], line 256: the buffer that
    holds an unfinished line may grow to this many bytes. *)
Definition maxTokenSize : Z := 10 * 1024 * 1024.

(** [dropCR] of bufio. *)
Definition dropCR (line : gostring) : gostring :=
  match rev line with
  | c :: r => if N.eqb c 13 then rev r else line
  | [] => line
  end.

(** What [scanner.Scan()] and [scanner.Text()] deliver from the bytes
    of a body, with the default [ScanLines]: a line ends at each LF,
    one CR in front of the LF is dropped, and what follows the last LF
    is a line when it is not empty.  [piece] is the part of the
    current line read so far.  A line that does not fit the buffer
    together with its LF ends the scan: [Scan] returns false, with
    [ErrTooLong], which the loop does not look at, so the lines after
    it are dropped without a word.  (A last line without LF that fills
    the buffer exactly is delivered only by a reader that reports the
    end together with the last bytes; here it is not.) *)
Fixpoint scan_lines (max : Z) (piece body : gostring) : list gostring :=
  match body with
  | [] =>
      if truthy piece && (Z.of_nat (List.length piece) <? max)%Z
      then [dropCR piece]
      else []
  | c :: rest =>
      if N.eqb c 10 then
        if (Z.of_nat (List.length piece) + 1 <=? max)%Z
        then dropCR piece :: scan_lines max [] rest
        else []
      else scan_lines max (piece ++ [c]) rest
  end.

(** The scanner loop of [streamBlocks], lines 258-276; the result lists
    what is sent on the channel. *)
Fixpoint go_streamBlocks_loop (blockRange : GoBlockRange) (lineNumber : Z)
    (lines : list gostring) : list GoBlock :=
  match lines with
  | [] => []
  | line :: rest =>
      if all_space line then go_streamBlocks_loop blockRange lineNumber rest
      else
        match Unmarshal line with
        | None =>
            go_streamBlocks_loop blockRange (add64 lineNumber 1) rest
        | Some d =>
            {| BlockNumber := add64 (StartBlock blockRange) lineNumber;
               Data := d |}
            :: go_streamBlocks_loop blockRange (add64 lineNumber 1) rest
        end
  end.

(** [streamBlocks], lines 234-280; [s3_body] gives the bytes of the
    object stored under a key, [None] when [GetObject] fails, on which
    the error is printed and the channel closed. *)
Definition go_streamBlocks (s3_body : gostring -> option gostring)
    (blockRange : GoBlockRange) : list GoBlock :=
  match s3_body (S3Key blockRange) with
  | None => []
  | Some body =>
      go_streamBlocks_loop blockRange 0 (scan_lines maxTokenSize [] body)
  end.

(** Number of lines among the first [i] that are not blank. *)
Definition go_nonblank_before (lines : list gostring) (i : nat) : nat :=
  List.length (filter (fun l => negb (all_space l)) (firstn i lines)).

End GoStreamBlocks.
End Backfill.

(* ================================================================== *)
(** * Decimal numerals *)
(* ================================================================== *)

Module Numeral.
Import Js.

(** The decimal numeral of [n], the way block numbers are written in
    the keys of the bucket: most significant digit first, no leading
    zero.  [fuel] bounds the number of digits. *)
Fixpoint decimal_aux (fuel : nat) (n : N) (acc : jsstring) : jsstring :=
  match fuel with
  | O => acc
  | S fuel' =>
      let acc' := (48 + n mod 10)%N :: acc in
      if (n <? 10)%N then acc' else decimal_aux fuel' (n / 10) acc'
  end.

Definition decimal (n : N) : jsstring :=
  decimal_aux (S (N.to_nat (N.size n))) n [].

(** No code unit of the string is [c]. *)
Definition free_of (c : N) (s : jsstring) : bool :=
  forallb (fun x => negb (N.eqb x c)) s.

(** [parts.join(sep)] with a one-code-unit separator. *)
Fixpoint join (c : N) (parts : list jsstring) : jsstring :=
  match parts with
  | [] => []
  | [p] => p
  | p :: rest => p ++ c :: join c rest
  end.

(** The number a string of decimal digits denotes, continuing from
    [a]. *)
Definition horner (a : Z) (ds : jsstring) : Z :=
  fold_left (fun a c => (10 * a + (Z.of_N c - 48))%Z) ds a.

Definition is_digit (c : N) : bool := N.leb 48 c && N.leb c 57.

End Numeral.

(* ================================================================== *)
(** * The generic stream client in Go (main.go) *)
(* ================================================================== *)

Module GoStream.
Import Js Payload.

(** A Go map from strings to string slices: an association list with
    one entry per key; the order of the entries stands for nothing. *)
Definition GoMap := list (jsstring * list jsstring).

Fixpoint map_get (k : jsstring) (m : GoMap) : option (list jsstring) :=
  match m with
  | [] => None
  | (k', v) :: m' => if eqb k' k then Some v else map_get k m'
  end.

(** [m[k] = v] *)
Fixpoint map_set (k : jsstring) (v : list jsstring) (m : GoMap) : GoMap :=
  match m with
  | [] => [(k, v)]
  | (k', v') :: m' =>
      if eqb k' k then (k, v) :: m' else (k', v') :: map_set k v m'
  end.

(** [strings.SplitN(s, sep, 2)] for a one-byte separator: the text
    before the first separator and the text after it, or [s] alone. *)
Fixpoint SplitN2 (c : N) (s : jsstring) : list jsstring :=
  match s with
  | [] => [[]]
  | x :: s' =>
      if N.eqb x c then [[]; s']
      else match SplitN2 c s' with
           | [p] => [x :: p]
           | p :: ps => (x :: p) :: ps
           | [] => [[x]]
           end
  end.

Definition semicolon : N := 59.
Definition equals : N := 61.
Definition comma : N := 44.

(** One round of the loop of [main] over the parts of the flag, lines
    521-526 of orderbook_stream_example.go (the main.go part of it). *)
Definition add_filter (filters : GoMap) (f : jsstring) : GoMap :=
  match SplitN2 equals f with
  | [field; vals] => map_set field (split comma vals) filters
  | _ => filters
  end.

(** The filters [main] builds from the [-filter] flag, lines 518-527. *)
Definition parse_filters (filterFlag : jsstring) : GoMap :=
  if truthy filterFlag
  then fold_left add_filter (split semicolon filterFlag) []
  else [].

Section Run.
Variable zstd_decompress : bytes -> option bytes.
Variable Json : Type.
(** [json.Unmarshal] into an [interface{}], [None] for an error. *)
Variable Unmarshal : bytes -> option Json.

(** [decompress] of main.go, lines 378-400; a failure of
    [zstd.NewReader] or of [DecodeAll] is the codec's [None]. *)
Definition decompress (data : bytes) : GoResult :=
  if (List.length data <? 4)%nat then GoOk data
  else if byte_at data 0 x28 && byte_at data 1 xb5
          && byte_at data 2 x2f && byte_at data 3 xfd
  then match zstd_decompress data with
       | Some d => GoOk d
       | None => GoErr
       end
  else GoOk data.

(** What [stream.Recv] returns. *)
Inductive Recv :=
| Got (r : Response)
| GotEOF
| GotError (msg : jsstring).

Inductive Line :=
| PrintJson (block ts : Z) (j : Json)
| PrintText (block : Z) (text : bytes)
| LogDecompressError
| LogPong (ts : Z)
| LogStreamEnded.

Inductive Return :=
| ReturnNil
| ReceiveError (msg : jsstring)
| InRecv.            (* the script is over: blocked in Recv *)

(** The [switch] on the update, lines 490-509. *)
Definition on_update (r : Response) : list Line :=
  match r with
  | RData m =>
      match decompress (data m) with
      | GoErr => [LogDecompressError]
      | GoOk decompressed =>
          match Unmarshal decompressed with
          | Some parsed => [PrintJson (block_number m) (timestamp m) parsed]
          | None => [PrintText (block_number m) decompressed]
          end
      end
  | RPong ts => [LogPong ts]
  | RNone => []
  end.

(** The receive loop of [streamData], lines 480-510. *)
Fixpoint receive (rs : list Recv) : list Line * Return :=
  match rs with
  | [] => ([], InRecv)
  | GotEOF :: _ => ([LogStreamEnded], ReturnNil)
  | GotError msg :: _ => ([], ReceiveError msg)
  | Got r :: rest =>
      let '(o, ret) := receive rest in (on_update r ++ o, ret)
  end.

End Run.
(** The flag a set of filters is written as,
    [field=val1,val2;field2=val3]: each entry is a field and the text
    of its values. *)
Definition format_filters (entries : list (jsstring * jsstring))
  : jsstring :=
  Numeral.join semicolon
    (map (fun '(field, vals) => field ++ equals :: vals) entries).

(** The values text of the last entry for [k], if there is one. *)
Definition last_entry (k : jsstring) (entries : list (jsstring * jsstring))
  : option jsstring :=
  fold_left (fun acc '(field, vals) => if eqb field k then Some vals else acc)
    entries None.

End GoStream.

(* ================================================================== *)
(** * The order-book client: what is displayed, and the L4 stream in Go *)
(* ================================================================== *)

Module Display.

Section Levels.
(** A price level of an [L2BookUpdate]. *)
Variable Level : Type.

Inductive Line :=
| AsksHeader
| BidsHeader
| Row (l : Level).

(** ** JavaScript, lines 71-96 *)

(** [update.asks.slice(0, 10).reverse().forEach(...)] under
    [update.asks && update.asks.length > 0]; an absent array prints
    nothing, as an empty one does. *)
Definition js_asks (asks : list Level) : list Line :=
  if (0 <? List.length asks)%nat
  then AsksHeader :: map Row (rev (firstn 10 asks))
  else [].

(** [update.bids.slice(0, 10).forEach(...)]. *)
Definition js_bids (bids : list Level) : list Line :=
  if (0 <? List.length bids)%nat
  then BidsHeader :: map Row (firstn 10 bids)
  else [].

(** ** Go, lines 109-141 *)

(** [for i := askCount - 1; i >= 0; i-- { level := update.Asks[i] ... }],
    told by [n = i + 1].  An index out of range panics: [None]. *)
Fixpoint go_count_down (asks : list Level) (n : nat)
  : option (list Line) :=
  match n with
  | O => Some []
  | S i =>
      match nth_error asks i with
      | None => None
      | Some level =>
          match go_count_down asks i with
          | None => None
          | Some rows => Some (Row level :: rows)
          end
      end
  end.

(** [for i := 0; i < bidCount; i++ { level := update.Bids[i] ... }],
    with [todo = bidCount - i] turns left. *)
Fixpoint go_count_up (bids : list Level) (todo i : nat)
  : option (list Line) :=
  match todo with
  | O => Some []
  | S todo' =>
      match nth_error bids i with
      | None => None
      | Some level =>
          match go_count_up bids todo' (S i) with
          | None => None
          | Some rows => Some (Row level :: rows)
          end
      end
  end.

Definition go_asks (asks : list Level) : option (list Line) :=
  if (0 <? List.length asks)%nat then
    let askCount := List.length asks in
    let askCount := if (10 <? askCount)%nat then 10%nat else askCount in
    match go_count_down asks askCount with
    | None => None
    | Some rows => Some (AsksHeader :: rows)
    end
  else Some [].

Definition go_bids (bids : list Level) : option (list Line) :=
  if (0 <? List.length bids)%nat then
    let bidCount := List.length bids in
    let bidCount := if (10 <? bidCount)%nat then 10%nat else bidCount in
    match go_count_up bids bidCount 0 with
    | None => None
    | Some rows => Some (BidsHeader :: rows)
    end
  else Some [].

End Levels.
End Display.

Module GoL4.
Import Js Orderbook.

Section L4.
(** The two payloads of an [L4BookUpdate]; how they are printed is not
    modelled. *)
Variables Snapshot Diff : Type.

(** [update.GetSnapshot() != nil], else [update.GetDiff() != nil], else
    neither. *)
Inductive L4Update :=
| HasSnapshot (s : Snapshot)
| HasDiff (d : Diff)
| Unset.

Inductive L4Out :=
| L4LogHeader (coin : jsstring)
| L4Dial
| L4LogConnecting
| L4LogReconnecting (attempt max : nat)
| L4StreamL4Book (coin : jsstring)
| L4LogSnapshot (s : Snapshot)
| L4LogDiffBeforeSnapshot
| L4LogDiff (d : Diff)
| L4LogReached (maxMessages : Z)
| L4LogReinitialized (msg : jsstring)
| L4LogWaiting (delay : Z)
| L4Sleep (delay : Z)
| L4LogMaxRetries (max : nat)
| L4Close.

(** The variables of [streamL4Orderbook] that the receive loop
    updates. *)
Record L4Vars := {
  l4_retryCount : nat;
  l4_totalMsgCount : nat;
  l4_snapshotReceived : bool
}.

(** The body of the receive loop after a successful [Recv], up to the
    test of the message limit: lines 222-300. *)
Definition l4_on_update (v : L4Vars) (u : L4Update)
  : L4Vars * list L4Out :=
  let total := S (l4_totalMsgCount v) in
  match u with
  | HasSnapshot s =>
      ({| l4_retryCount := 0; l4_totalMsgCount := total;
          l4_snapshotReceived := true |},
       [L4LogSnapshot s])
  | HasDiff d =>
      ({| l4_retryCount := l4_retryCount v; l4_totalMsgCount := total;
          l4_snapshotReceived := l4_snapshotReceived v |},
       (if l4_snapshotReceived v then [] else [L4LogDiffBeforeSnapshot])
         ++ [L4LogDiff d])
  | Unset =>
      ({| l4_retryCount := l4_retryCount v; l4_totalMsgCount := total;
          l4_snapshotReceived := l4_snapshotReceived v |},
       [])
  end.

(** [maxMessages > 0 && totalMsgCount >= maxMessages], line 302. *)
Definition l4_reached (maxMessages : Z) (totalMsgCount : nat) : bool :=
  (0 <? maxMessages)%Z && (maxMessages <=? Z.of_nat totalMsgCount)%Z.

(** The successful receives of one connection.  The flag tells that
    the message limit was reached, on which the function returns. *)
Fixpoint l4_recv (maxMessages : Z) (v : L4Vars) (us : list L4Update)
  : L4Vars * list L4Out * bool :=
  match us with
  | [] => (v, [], false)
  | u :: us' =>
      let '(v1, o1) := l4_on_update v u in
      if l4_reached maxMessages (l4_totalMsgCount v1)
      then (v1, o1 ++ [L4LogReached maxMessages; L4Close], true)
      else
        let '(v2, o2, stop) := l4_recv maxMessages v1 us' in
        (v2, o1 ++ o2, stop)
  end.

(** The outer loop [for retryCount < maxRetries], lines 165-314.  The
    third component is [totalMsgCount] when the function is left. *)
Fixpoint l4_loop (coin : jsstring) (maxMessages : Z)
    (retryCount totalMsgCount : nat) (world : list (GoConn L4Update))
  : list L4Out * GoReturn * nat :=
  if (retryCount <? maxRetries)%nat then
    match world with
    | [] => ([], NoReturn, totalMsgCount)
    | c :: rest =>
        let hello := if (0 <? retryCount)%nat
                     then L4LogReconnecting (retryCount + 1) maxRetries
                     else L4LogConnecting in
        match c with
        | DialError _ m => ([L4Dial], FailedToConnect m, totalMsgCount)
        | OpenError _ m =>
            ([L4Dial; hello; L4StreamL4Book coin; L4Close],
             FailedToStartStream m, totalMsgCount)
        | Stream us e =>
            let '(v, o, stop) :=
              l4_recv maxMessages
                {| l4_retryCount := retryCount;
                   l4_totalMsgCount := totalMsgCount;
                   l4_snapshotReceived := false |} us in
            let pre := [L4Dial; hello; L4StreamL4Book coin] ++ o in
            if stop then (pre, ReturnNil, l4_totalMsgCount v)
            else
              match e with
              | EOF => (pre ++ [L4Close], ReturnNil, l4_totalMsgCount v)
              | Blocked => (pre, NoReturn, l4_totalMsgCount v)
              | Failed err =>
                  if is_data_loss err then
                    let rc := S (l4_retryCount v) in
                    if (rc <? maxRetries)%nat then
                      let delay :=
                        (goBaseDelay * 2 ^ Z.of_nat (rc - 1))%Z in
                      let '(o', ret, total) :=
                        l4_loop coin maxMessages rc
                          (l4_totalMsgCount v) rest in
                      (pre ++ [L4LogReinitialized (error_message err);
                               L4LogWaiting delay; L4Sleep delay; L4Close]
                           ++ o', ret, total)
                    else
                      (pre ++ [L4LogReinitialized (error_message err);
                               L4LogMaxRetries maxRetries; L4Close],
                       ReturnNil, l4_totalMsgCount v)
                  else (pre ++ [L4Close], StreamErr err,
                        l4_totalMsgCount v)
              end
        end
    end
  else ([], ReturnNil, totalMsgCount).

Definition go_streamL4Orderbook (coin : jsstring) (maxMessages : Z)
    (world : list (GoConn L4Update)) : list L4Out * GoReturn * nat :=
  let '(o, ret, total) := l4_loop coin maxMessages 0 0 world in
  (L4LogHeader coin :: o, ret, total).

Definition l4_dials (os : list L4Out) : nat :=
  List.length (filter (fun o => match o with
                                | L4Dial => true
                                | _ => false
                                end) os).

(** The updates whose handling shows in the output. *)
Definition l4_handled (os : list L4Out) : nat :=
  List.length (filter (fun o => match o with
                                | L4LogSnapshot _ | L4LogDiff _ => true
                                | _ => false
                                end) os).

Definition l4_sleeps (os : list L4Out) : list Z :=
  flat_map (fun o => match o with
                     | L4Sleep d => [d]
                     | _ => []
                     end) os.

Definition is_snapshot (u : L4Update) : bool :=
  match u with
  | HasSnapshot _ => true
  | _ => false
  end.

(** The updates a connection of the script delivers. *)
Definition delivered (c : GoConn L4Update) : list L4Update :=
  match c with
  | Stream us _ => us
  | _ => []
  end.

End L4.
End GoL4.

(* ================================================================== *)
(** * Sample collaborators and inputs *)
(* ================================================================== *)

(** Concrete stand-ins for the external collaborators, on which the
    definitions above can be run. *)
Module Sample.
Import Js Payload.

(** A codec whose frames are the magic number followed by the raw
    bytes; an empty body is refused. *)
Definition zstd (b : bytes) : option bytes :=
  match skipn 4 b with
  | [] => None
  | raw => Some raw
  end.

(** UTF-8 decoding of ASCII bytes. *)
Definition utf8 (b : bytes) : jsstring := map Byte.to_N b.

(** A parser that accepts the texts starting with an opening brace. *)
Definition parse (s : jsstring) : option jsstring :=
  match s with
  | 123%N :: _ => Some s
  | _ => None
  end.

(** The error of a server that has reinitialised. *)
Definition data_loss : Orderbook.GrpcError :=
  {| Orderbook.code := Orderbook.DATA_LOSS;
     Orderbook.message := lit "reinitialized" |}.

Definition unavailable : Orderbook.GrpcError :=
  {| Orderbook.code := Orderbook.UNAVAILABLE;
     Orderbook.message := lit "connection refused" |}.

(** A connection that opens and fails at once with DATA_LOSS, no
    update delivered: JavaScript and Go. *)
Definition failing (Update : Type) : Orderbook.Conn Update :=
  Orderbook.Call [] (Orderbook.Errored data_loss).

Definition go_failing (Update : Type) : Orderbook.GoConn Update :=
  Orderbook.Stream [] (Orderbook.Failed (Orderbook.StatusError data_loss)).

(** A bucket with two checkpoints: blocks 830000000-830010000 lie
    under the earlier one, blocks 840000000-840010000 under the later
    one. *)
Definition bucket (prefix : jsstring) : option Backfill.ListResponse :=
  let dirs l := Some {| Backfill.CommonPrefixes := map Some l;
                        Backfill.Contents := [] |} in
  let objs l := Some {| Backfill.CommonPrefixes := [];
                        Backfill.Contents := map Some l |} in
  if eqb prefix (lit "replica_cmds/") then
    dirs [lit "replica_cmds/1706745600/"; lit "replica_cmds/1704067200/"]
  else if eqb prefix (lit "replica_cmds/1704067200/") then
    dirs [lit "replica_cmds/1704067200/20240101/"]
  else if eqb prefix (lit "replica_cmds/1704067200/20240101/") then
    objs [lit "replica_cmds/1704067200/20240101/830000000-830010000"]
  else if eqb prefix (lit "replica_cmds/1706745600/") then
    dirs [lit "replica_cmds/1706745600/20240201/"]
  else if eqb prefix (lit "replica_cmds/1706745600/20240201/") then
    objs [lit "replica_cmds/1706745600/20240201/840000000-840010000"]
  else Some {| Backfill.CommonPrefixes := []; Backfill.Contents := [] |}.

Definition range : Backfill.BlockRange :=
  {| Backfill.checkpoint := lit "1704067200";
     Backfill.date := lit "20240101";
     Backfill.startBlock := Finite 830000000;
     Backfill.endBlock := Finite 830010000;
     Backfill.s3Key :=
       lit "replica_cmds/1704067200/20240101/830000000-830010000" |}.

(** A file whose first line is empty and whose second is a record. *)
Definition gapped_file (key : jsstring) : list jsstring :=
  [[]; lit "{}"].

Definition dense_file (key : jsstring) : list jsstring :=
  [lit "{}"; lit "oops"; lit "{}"].

(** [json.Unmarshal] standing in: objects are accepted. *)
Definition unmarshal (s : jsstring) : option jsstring := parse s.

(** The bytes of the two files, each line ended by LF. *)
Definition gapped_body (key : jsstring) : option jsstring :=
  Some ([10%N] ++ lit "{}" ++ [10%N]).

Definition dense_body (key : jsstring) : option jsstring :=
  Some (lit "{}" ++ [10%N] ++ lit "oops" ++ [10%N] ++ lit "{}" ++ [10%N]).

(** A bucket whose one file has a name outside the documented
    layout. *)
Definition odd_bucket (prefix : jsstring) : option Backfill.ListResponse :=
  let dirs l := Some {| Backfill.CommonPrefixes := map Some l;
                        Backfill.Contents := [] |} in
  let objs l := Some {| Backfill.CommonPrefixes := [];
                        Backfill.Contents := map Some l |} in
  if eqb prefix (lit "replica_cmds/") then
    dirs [lit "replica_cmds/9/"]
  else if eqb prefix (lit "replica_cmds/9/") then
    dirs [lit "replica_cmds/9/d1/"]
  else if eqb prefix (lit "replica_cmds/9/d1/") then
    objs [lit "replica_cmds/9/d1/100-200abc-7"]
  else Some {| Backfill.CommonPrefixes := []; Backfill.Contents := [] |}.

Definition go_range : Backfill.GoBlockRange :=
  {| Backfill.Checkpoint := lit "1704067200";
     Backfill.Date := lit "20240101";
     Backfill.StartBlock := 830000000;
     Backfill.EndBlock := 830010000;
     Backfill.S3Key :=
       lit "replica_cmds/1704067200/20240101/830000000-830010000" |}.

(** The bucket above as the Go client sees it. *)
Definition go_bucket (prefix : jsstring)
  : option (list jsstring * list jsstring) :=
  match bucket prefix with
  | Some r =>
      Some (flat_map (fun p => match p with Some x => [x] | None => [] end)
              (Backfill.CommonPrefixes r),
            flat_map (fun p => match p with Some x => [x] | None => [] end)
              (Backfill.Contents r))
  | None => None
  end.

End Sample.

(* ================================================================== *)
(** * Properties of payload decompression *)
(* ================================================================== *)

Module PayloadFacts.
Import Js Payload.

Lemma magic_test_iff (b : bytes) :
  byte_at b 0 x28 && byte_at b 1 xb5 && byte_at b 2 x2f && byte_at b 3 xfd
  = true <-> magic_prefixed b.
Proof.
  unfold magic_prefixed, magic, byte_at.
  destruct b as [|b0 [|b1 [|b2 [|b3 rest]]]]; simpl;
    (split; [intro H | intros [r H]; try discriminate H]).
  all: try (repeat rewrite ?andb_false_r in H; simpl in H; discriminate H).
  - apply andb_prop in H as [H H3]. apply andb_prop in H as [H H2].
    apply andb_prop in H as [H0 H1].
    apply byte_dec_bl in H0, H1, H2, H3. subst. now exists rest.
  - injection H as -> -> -> -> _. reflexivity.
Qed.

Lemma magic_prefixed_length (b : bytes) :
  magic_prefixed b -> (4 <= List.length b)%nat.
Proof.
  intros [r ->]. unfold magic. simpl. lia.
Qed.

Section Facts.
Variable zstd_decompress : bytes -> option bytes.
Variable utf8 : bytes -> jsstring.
Variable Json : Type.
Variable JSON_parse : jsstring -> option Json.

Local Abbreviation decompress := (decompress zstd_decompress utf8).
Local Abbreviation go_decompress := (go_decompress zstd_decompress).
Local Abbreviation ToString := (ToString utf8).
Local Abbreviation streamData_onData :=
  (streamData_onData zstd_decompress utf8 JSON_parse).
Local Abbreviation streamWithFilter_onData :=
  (streamWithFilter_onData zstd_decompress utf8 JSON_parse).

Lemma decompress_magic (b : bytes) :
  magic_prefixed b ->
  decompress (VBuffer b)
  = match zstd_decompress b with
    | Some d => Fulfilled (VString (utf8 d))
    | None => Rejected
    end.
Proof.
  intro H. unfold Payload.decompress.
  pose proof (magic_prefixed_length H) as L.
  destruct (Nat.ltb_spec (List.length b) 4) as [L'|_]; [lia|].
  apply magic_test_iff in H. now rewrite H.
Qed.

Lemma decompress_plain (b : bytes) :
  ~ magic_prefixed b ->
  decompress (VBuffer b)
  = if (List.length b <? 4)%nat then Fulfilled (VBuffer b)
    else Fulfilled (VString (utf8 b)).
Proof.
  intro H. unfold Payload.decompress.
  destruct (List.length b <? 4)%nat; [reflexivity|].
  destruct (byte_at b 0 x28 && byte_at b 1 xb5 && byte_at b 2 x2f
            && byte_at b 3 xfd) eqn:E; [|reflexivity].
  apply magic_test_iff in E. contradiction.
Qed.

Lemma go_decompress_magic (b : bytes) :
  magic_prefixed b ->
  go_decompress b
  = match zstd_decompress b with Some d => GoOk d | None => GoErr end.
Proof.
  intro H. unfold Payload.go_decompress.
  pose proof (magic_prefixed_length H) as L.
  apply Nat.leb_le in L. apply magic_test_iff in H.
  rewrite <- !andb_assoc. rewrite L. simpl.
  rewrite !andb_assoc. now rewrite H.
Qed.

Lemma go_decompress_plain (b : bytes) :
  ~ magic_prefixed b -> go_decompress b = GoOk b.
Proof.
  intro H. unfold Payload.go_decompress.
  destruct ((4 <=? List.length b)%nat && byte_at b 0 x28
            && byte_at b 1 xb5 && byte_at b 2 x2f && byte_at b 3 xfd)
    eqn:E; [|reflexivity].
  rewrite <- !andb_assoc in E. apply andb_prop in E as [_ E].
  rewrite !andb_assoc in E. apply magic_test_iff in E. contradiction.
Qed.


(** C10.  On an input without the magic prefix [decompress] never
    fails: a value that is not a Buffer and a Buffer shorter than
    four bytes come back as they are, a longer Buffer comes back as
    its UTF-8 text, and Go returns the bytes.  A failure therefore
    needs the magic prefix together with a frame the codec
    refuses. *)
Theorem decompress_total_without_magic (v : JsValue) :
  ((forall b, v = VBuffer b -> ~ magic_prefixed b) ->
     exists r, decompress v = Fulfilled r
       /\ (forall b, v = VBuffer b ->
             go_decompress b = GoOk b
             /\ ((List.length b < 4)%nat -> r = v)
             /\ ((4 <= List.length b)%nat -> r = VString (utf8 b)))
       /\ ((forall b, v <> VBuffer b) -> r = v))
  /\ (decompress v = Rejected ->
        exists b, v = VBuffer b /\ magic_prefixed b
                  /\ zstd_decompress b = None)
  /\ (forall b, go_decompress b = GoErr ->
        magic_prefixed b /\ zstd_decompress b = None).
Proof.
  repeat split.
  - intro H.
    destruct v as [| |x|s|b];
      try (eexists; split; [reflexivity|];
           split; [intros b' E; discriminate E | reflexivity]).
    pose proof (decompress_plain (H b eq_refl)) as D.
    destruct (Nat.ltb_spec (List.length b) 4) as [L|L];
      eexists; (split; [exact D|]); (split; [|intro N; now destruct (N b)]);
      intros b' E; injection E as <-;
      (split; [now apply go_decompress_plain; apply H|]);
      split; intro; (reflexivity || lia).
  - intro R. destruct v as [| |x|s|b]; try discriminate R.
    exists b. split; [reflexivity|].
    unfold Payload.decompress in R.
    destruct (List.length b <? 4)%nat; [discriminate R|].
    destruct (byte_at b 0 x28 && byte_at b 1 xb5 && byte_at b 2 x2f
              && byte_at b 3 xfd) eqn:E; [|discriminate R].
    apply magic_test_iff in E. split; [exact E|].
    destruct (zstd_decompress b); [discriminate R|reflexivity].
  - destruct (zstd_decompress b) eqn:Z.
    + unfold Payload.go_decompress in H. rewrite Z in H.
      destruct (_ && _) in H; discriminate H.
    + unfold Payload.go_decompress in H.
      destruct ((4 <=? List.length b)%nat && byte_at b 0 x28
                && byte_at b 1 xb5 && byte_at b 2 x2f && byte_at b 3 xfd)
        eqn:E; [|discriminate H].
      rewrite <- !andb_assoc in E. apply andb_prop in E as [_ E].
      rewrite !andb_assoc in E. now apply magic_test_iff in E.
  - unfold Payload.go_decompress in H.
    destruct (_ && _) in H; [|discriminate H].
    destruct (zstd_decompress b); [discriminate H|reflexivity].
Qed.

End Facts.
End PayloadFacts.

Module PayloadWitness.
Import Js Payload PayloadFacts.


Lemma decompress_total_without_magic_witness :
  exists r, decompress Sample.zstd Sample.utf8 (VBuffer [x7b; x7d])
            = Fulfilled r.
Proof.
  destruct (decompress_total_without_magic Sample.zstd Sample.utf8
              (VBuffer [x7b; x7d])) as [H _].
  destruct H as (r & D & _).
  - intros b E [rest M]. injection E as <-. discriminate M.
  - exists r. exact D.
Defined.

End PayloadWitness.

(* ================================================================== *)
(** * Properties of the reconnect loop *)
(* ================================================================== *)

Module OrderbookFacts.
Import Js Orderbook.

Section Facts.
Variable Update : Type.
Variable sym : jsstring.
Variable nLevels : Z.

Local Abbreviation request := {| coin := sym; n_levels := nLevels |}.

(** ** JavaScript *)

Lemma onData_retry (v : Vars) (u : Update) :
  retryCount (fst (onData v u))
  = if (msgCount v =? 0)%nat then 0%nat else retryCount v.
Proof.
  unfold onData. destruct (msgCount v); reflexivity.
Qed.

Lemma deliver_retry_zero (us : list Update) : forall v : Vars,
  retryCount v = 0%nat -> retryCount (fst (deliver v us)) = 0%nat.
Proof.
  induction us as [|u us IH]; intros v H; simpl; [exact H|].
  pose proof (onData_retry v u) as R.
  destruct (onData v u) as [v1 o1]. simpl in R.
  specialize (IH v1).
  destruct (deliver v1 us) as [v2 o2]. simpl in *. apply IH.
  rewrite R. now destruct (msgCount v =? 0)%nat.
Qed.

(** Every invocation starts its own counter: when its call is over
    the counter is at most 1, and a timer it sets waits the base
    delay. *)
Lemma invocation_counter (autoReconnect : bool) (c : Conn Update) :
  let r := invocation sym nLevels autoReconnect c in
  (retryCount (vars r) <= 1)%nat
  /\ forall d, timer r = Some d ->
               d = baseDelay /\ retryCount (vars r) = 1%nat.
Proof.
  unfold invocation. cbn [Nat.ltb Nat.leb maxRetries].
  destruct c as [msg|us e]; simpl.
  - split; [lia|]. intros d H. discriminate H.
  - pose proof (@deliver_retry_zero us
                  {| retryCount := 0; msgCount := 0 |} eq_refl) as R.
    destruct (deliver _ us) as [v1 o1]. simpl in R.
    destruct e as [|err|]; simpl.
    + split; [lia|]. intros d H. discriminate H.
    + unfold onError. rewrite R.
      destruct (Z.eqb (code err) DATA_LOSS && autoReconnect); simpl.
      * split; [lia|]. intros d H. injection H as <-. now split.
      * split; [lia|]. intros d H. discriminate H.
    + split; [lia|]. intros d H. discriminate H.
Qed.

(** Whatever the connections do, no invocation of a session counts
    past 1 or waits longer than the base delay. *)
Lemma session_counter_bounded (autoReconnect : bool)
    (world : list (Conn Update)) :
  Forall (fun r => (retryCount (vars r) <= 1)%nat
                   /\ (timer r = None \/ timer r = Some baseDelay))
    (streamL2Orderbook sym nLevels autoReconnect world).
Proof.
  induction world as [|c rest IH]; [constructor|].
  cbn [streamL2Orderbook].
  destruct (invocation_counter autoReconnect c) as [B T].
  constructor.
  - split; [exact B|].
    destruct (timer (invocation sym nLevels autoReconnect c)) as [d|];
      [right; now destruct (T d eq_refl) as [-> _]|now left].
  - destruct (timer (invocation sym nLevels autoReconnect c));
      [exact IH|constructor].
Qed.

(** A session whose connections all fail at once is the same
    invocation over and over. *)
Lemma session_of_failures (n : nat) :
  streamL2Orderbook sym nLevels true (repeat (Sample.failing Update) n)
  = repeat
      {| outs := [LogHeader Update sym nLevels true; LogConnecting Update;
                  StreamL2Book Update request;
                  LogReinitialized Update (lit "reinitialized");
                  LogWaiting Update 2000; SetTimeout Update 2000];
         vars := {| retryCount := 1; msgCount := 0 |};
         timer := Some 2000%Z |} n.
Proof.
  induction n as [|n IH]; [reflexivity|].
  cbn [repeat streamL2Orderbook]. rewrite IH. reflexivity.
Qed.

(** C2 (the JavaScript client departs from it).  A reconnect is a
    fresh call of [streamL2Orderbook], whose [retryCount] starts at 0
    again: over [n] connections that open and fail at once, with no
    update processed in between, the counter stands at 1 after every
    failure instead of counting 1, 2, ..., n. *)
Theorem js_counter_restarts_at_each_reconnect (n : nat) :
  map (fun r => retryCount (vars r))
    (streamL2Orderbook sym nLevels true
       (repeat (Sample.failing Update) n))
  = repeat 1%nat n.
Proof.
  rewrite session_of_failures. induction n as [|n IH]; [reflexivity|].
  cbn [repeat map]. now rewrite IH.
Qed.

(** C3 (the JavaScript client departs from it).  Over [n] consecutive
    failed attempts the JavaScript client waits the base delay,
    2000 ms, before each reconnect, not 2000, 4000, 8000, ... *)
Theorem js_backoff_delay_stays_at_base (n : nat) :
  delays (streamL2Orderbook sym nLevels true
            (repeat (Sample.failing Update) n))
  = repeat baseDelay n.
Proof.
  rewrite session_of_failures. induction n as [|n IH]; [reflexivity|].
  cbn [repeat]. unfold delays in *. cbn [flat_map timer app].
  now rewrite IH.
Qed.

(** C4 (the JavaScript client departs from it).  However many
    connections fail in a row, the JavaScript client reconnects
    after each of them: [n] failures give [n] invocations, each of
    which sends its request and sets the timer of the next, and none
    of which reports that the retries are exhausted. *)
Theorem js_retries_never_exhausted (n : nat) :
  let runs := streamL2Orderbook sym nLevels true
                (repeat (Sample.failing Update) n) in
  List.length runs = n
  /\ requests (console runs) = repeat request n
  /\ Forall (fun r => timer r = Some baseDelay
                      /\ existsb (fun o => match o with
                                           | LogMaxRetries _ _ => true
                                           | _ => false
                                           end) (outs r) = false) runs.
Proof.
  cbv zeta. rewrite session_of_failures. repeat split.
  - apply repeat_length.
  - induction n as [|n IH]; [reflexivity|].
    cbn [repeat]. unfold console, requests in *.
    cbn [flat_map outs app]. now rewrite IH.
  - apply Forall_forall. intros r H. apply repeat_spec in H. subst r.
    split; reflexivity.
Qed.

(** ** Go *)

(** The delay is computed in [time.Duration], an [int64]; while retries
    are left it is far from overflowing. *)
Lemma go_delay_fits_int64 (rc : nat) :
  (rc < maxRetries)%nat ->
  (0 < goBaseDelay * 2 ^ Z.of_nat (rc - 1) < 2 ^ 63)%Z.
Proof.
  unfold maxRetries. intro H.
  do 10 (destruct rc as [|rc]; [vm_compute; split; reflexivity|]). lia.
Qed.

Lemma go_recv_counted (us : list Update) : forall rc mc,
  fst (fst (go_recv rc (S mc) us)) = rc.
Proof.
  induction us as [|u us IH]; intros rc mc; [reflexivity|].
  cbn [go_recv]. cbn [Nat.eqb]. specialize (IH rc (S mc)).
  destruct (go_recv rc (S (S mc)) us) as [[rc' mc'] o]. exact IH.
Qed.

(** The counter is reset by the first update of a connection and by
    nothing else. *)
Lemma go_recv_retry (rc : nat) (us : list Update) :
  fst (fst (go_recv rc 0 us))
  = match us with [] => rc | _ :: _ => 0%nat end.
Proof.
  destruct us as [|u us]; [reflexivity|].
  cbn [go_recv Nat.eqb]. pose proof (go_recv_counted us 0 0) as H.
  destruct (go_recv 0 1 us) as [[rc' mc'] o]. exact H.
Qed.

(** A connection that fails at once with DATA_LOSS while retries are
    left: the counter goes up by one, the wait is
    [goBaseDelay * 2^rc], and the loop dials again. *)
Lemma go_retry_without_data (rc : nat) (rest : list (GoConn Update)) :
  (S rc < maxRetries)%nat ->
  go_loop request rc (Sample.go_failing Update :: rest)
  = ([GDial Update;
      if (0 <? rc)%nat then GLogReconnecting Update (rc + 1) maxRetries
      else GLogConnecting Update;
      GStreamL2Book Update request;
      GLogReinitialized Update (lit "reinitialized");
      GLogWaiting Update (goBaseDelay * 2 ^ Z.of_nat rc);
      GSleep Update (goBaseDelay * 2 ^ Z.of_nat rc);
      GClose Update] ++ fst (go_loop request (S rc) rest),
     snd (go_loop request (S rc) rest)).
Proof.
  intro H. cbn [go_loop Sample.go_failing].
  destruct (Nat.ltb_spec rc maxRetries) as [_|L]; [|lia].
  cbn [go_recv is_data_loss Sample.data_loss code].
  rewrite Z.eqb_refl.
  destruct (Nat.ltb_spec (S rc) maxRetries) as [_|L]; [|lia].
  replace (S rc - 1)%nat with rc by lia.
  destruct (go_loop request (S rc) rest) as [o ret]. reflexivity.
Qed.

(** The same failure when the counter reaches [maxRetries]: the
    function returns, whatever connections might follow. *)
Lemma go_gives_up (rc : nat) (rest : list (GoConn Update)) :
  (rc < maxRetries)%nat -> (maxRetries <= S rc)%nat ->
  go_loop request rc (Sample.go_failing Update :: rest)
  = ([GDial Update;
      if (0 <? rc)%nat then GLogReconnecting Update (rc + 1) maxRetries
      else GLogConnecting Update;
      GStreamL2Book Update request;
      GLogReinitialized Update (lit "reinitialized");
      GLogMaxRetries Update maxRetries;
      GClose Update], ReturnNil).
Proof.
  intros H1 H2. cbn [go_loop Sample.go_failing].
  destruct (Nat.ltb_spec rc maxRetries) as [_|L]; [|lia].
  cbn [go_recv is_data_loss Sample.data_loss code].
  rewrite Z.eqb_refl.
  destruct (Nat.ltb_spec (S rc) maxRetries) as [L|_]; [lia|].
  reflexivity.
Qed.

(** The Go sibling does what C2 and C3 say: over [n] consecutive
    failures, starting from a counter [rc], it sleeps
    [goBaseDelay * 2^rc], [goBaseDelay * 2^(rc+1)], ... *)
Lemma go_backoff_doubles (n : nat) : forall rc,
  (rc + n < maxRetries)%nat ->
  go_sleeps (fst (go_loop request rc
                    (repeat (Sample.go_failing Update) n)))
  = map (fun k => (goBaseDelay * 2 ^ Z.of_nat k)%Z) (seq rc n).
Proof.
  induction n as [|n IH]; intros rc H.
  - cbn [repeat seq map]. unfold go_loop.
    destruct (rc <? maxRetries)%nat; reflexivity.
  - cbn [repeat seq map]. rewrite go_retry_without_data by lia.
    cbn [fst app]. unfold go_sleeps in *.
    destruct (0 <? rc)%nat; cbn [flat_map app]; f_equal; apply IH; lia.
Qed.

Lemma go_recv_no_sleep (us : list Update) : forall rc mc,
  go_sleeps (snd (go_recv rc mc us)) = [].
Proof.
  induction us as [|u us IH]; intros rc mc; [reflexivity|].
  cbn [go_recv].
  destruct (S mc =? 1)%nat;
    [specialize (IH 0%nat (S mc)); destruct (go_recv 0 (S mc) us) as [[a b] c]
    |specialize (IH rc (S mc)); destruct (go_recv rc (S mc) us) as [[a b] c]];
    cbn [snd] in *; unfold go_sleeps in *; cbn [app flat_map]; exact IH.
Qed.

(** A DATA_LOSS failure with retries left, whatever was received
    before: the wait follows the counter, which the first update of
    the connection has reset. *)
Lemma go_data_loss_retries (rc : nat) (us : list Update)
    (e : RecvError) (rest : list (GoConn Update)) :
  let rc' := S (match us with [] => rc | _ :: _ => 0%nat end) in
  (rc < maxRetries)%nat -> is_data_loss e = true ->
  (rc' < maxRetries)%nat ->
  exists pre,
    go_sleeps pre = []
    /\ go_loop request rc (Stream us (Failed e) :: rest)
       = (pre ++ GSleep Update (goBaseDelay * 2 ^ Z.of_nat (rc' - 1))
              :: GClose Update :: fst (go_loop request rc' rest),
          snd (go_loop request rc' rest)).
Proof.
  intros rc' H1 H2 H3. cbn [go_loop].
  destruct (Nat.ltb_spec rc maxRetries) as [_|L]; [|lia].
  pose proof (go_recv_retry rc us) as R.
  destruct (go_recv rc 0 us) as [[rc1 mc1] o] eqn:E. cbn [fst] in R.
  rewrite H2. subst rc1. fold rc'.
  destruct (Nat.ltb_spec rc' maxRetries) as [_|L]; [|lia].
  destruct (go_loop request rc' rest) as [o' ret]. cbn [fst snd].
  exists ([GDial Update;
           if (0 <? rc)%nat
           then GLogReconnecting Update (rc + 1) maxRetries
           else GLogConnecting Update;
           GStreamL2Book Update request] ++ o
          ++ [GLogReinitialized Update (error_message e);
              GLogWaiting Update (goBaseDelay * 2 ^ Z.of_nat (rc' - 1))]).
  split.
  - pose proof (go_recv_no_sleep us rc 0) as O. rewrite E in O.
    cbn [snd] in O. unfold go_sleeps in *. rewrite !flat_map_app, O.
    now destruct (0 <? rc)%nat.
  - f_equal. rewrite <- !app_assoc. reflexivity.
Qed.

Lemma go_never_returns_data_loss (world : list (GoConn Update)) :
  forall rc e,
    snd (go_loop request rc world) = StreamErr e ->
    is_data_loss e = false.
Proof.
  induction world as [|c rest IH]; intros rc e H; cbn [go_loop] in H.
  - destruct (rc <? maxRetries)%nat; discriminate H.
  - destruct (rc <? maxRetries)%nat; [|discriminate H].
    destruct c as [m|m|us [|err|]]; try discriminate H.
    + destruct (go_recv rc 0 us) as [[rc1 mc1] o]. discriminate H.
    + destruct (go_recv rc 0 us) as [[rc1 mc1] o].
      destruct (is_data_loss err) eqn:D.
      * destruct (S rc1 <? maxRetries)%nat; [|discriminate H].
        specialize (IH (S rc1) e).
        destruct (go_loop request (S rc1) rest) as [o' ret].
        apply IH. exact H.
      * cbn [snd] in H. injection H as <-. exact D.
    + destruct (go_recv rc 0 us) as [[rc1 mc1] o]. discriminate H.
Qed.

Lemma deliver_requests (us : list Update) : forall v,
  requests (snd (deliver v us)) = [].
Proof.
  induction us as [|u us IH]; intro v; [reflexivity|].
  cbn [deliver]. unfold onData.
  destruct (S (msgCount v) =? 1)%nat;
    match goal with
    | |- context [deliver ?w us] =>
        specialize (IH w); destruct (deliver w us) as [v2 o2]
    end; cbn [snd] in *; unfold requests in *; cbn [app flat_map];
    exact IH.
Qed.

Lemma invocation_requests (autoReconnect : bool) (c : Conn Update) :
  requests (outs (invocation sym nLevels autoReconnect c))
  = match c with Threw _ _ => [] | Call _ _ => [request] end.
Proof.
  unfold invocation. cbn [Nat.ltb Nat.leb maxRetries].
  destruct c as [msg|us e]; [reflexivity|].
  pose proof (deliver_requests us {| retryCount := 0; msgCount := 0 |})
    as D.
  destruct (deliver _ us) as [v1 o1]. cbn [snd] in D.
  assert (E : forall v2 o2 t,
             requests o2 = [] ->
             requests (outs {| outs := [LogHeader Update sym nLevels autoReconnect]
                                       ++ [LogConnecting Update;
                                           StreamL2Book Update request]
                                       ++ o1 ++ o2;
                               vars := v2; timer := t |}) = [request]).
  { intros v2 o2 t H. cbn [outs app]. unfold requests in *.
    cbn [flat_map app]. now rewrite flat_map_app, D, H. }
  destruct e as [|err|]; cbn [Nat.ltb Nat.leb].
  - now apply E.
  - unfold onError.
    destruct (Z.eqb (code err) DATA_LOSS && autoReconnect);
      [destruct (S (retryCount v1) <? maxRetries)%nat|]; now apply E.
  - now apply E.
Qed.

Lemma go_recv_requests (us : list Update) : forall rc mc,
  go_requests (snd (go_recv rc mc us)) = [].
Proof.
  induction us as [|u us IH]; intros rc mc; [reflexivity|].
  cbn [go_recv].
  destruct (S mc =? 1)%nat;
    [specialize (IH 0%nat (S mc)); destruct (go_recv 0 (S mc) us) as [[a b] c]
    |specialize (IH rc (S mc)); destruct (go_recv rc (S mc) us) as [[a b] c]];
    cbn [snd] in *; unfold go_requests in *; cbn [app flat_map]; exact IH.
Qed.

(** Every request the Go loop sends is the one it was given. *)
Lemma go_loop_requests (world : list (GoConn Update)) : forall rc,
  Forall (fun q => q = request)
    (go_requests (fst (go_loop request rc world))).
Proof.
  induction world as [|c rest IH]; intro rc; cbn [go_loop].
  - destruct (rc <? maxRetries)%nat; constructor.
  - destruct (rc <? maxRetries)%nat; [|constructor].
    destruct c as [m|m|us e]; [constructor| |].
    + destruct (0 <? rc)%nat; repeat constructor.
    + pose proof (go_recv_requests us rc 0) as O.
      destruct (go_recv rc 0 us) as [[rc1 mc1] o]. cbn [snd] in O.
      assert (P : forall t : list (GoOut Update),
                 go_requests (([GDial Update;
                                if (0 <? rc)%nat
                                then GLogReconnecting Update (rc + 1)
                                       maxRetries
                                else GLogConnecting Update;
                                GStreamL2Book Update request] ++ o) ++ t)
                 = request :: go_requests t).
      { intro t. unfold go_requests in *. rewrite !flat_map_app, O.
        now destruct (0 <? rc)%nat. }
      destruct e as [|err|].
      * cbn [fst]. rewrite P. repeat constructor.
      * destruct (is_data_loss err).
        -- destruct (S rc1 <? maxRetries)%nat.
           ++ specialize (IH (S rc1)).
              destruct (go_loop request (S rc1) rest) as [o' ret].
              cbn [fst] in *. rewrite P. constructor; [reflexivity|].
              exact IH.
           ++ cbn [fst]. rewrite P. repeat constructor.
        -- cbn [fst]. rewrite P. repeat constructor.
      * cbn [fst]. rewrite <- (app_nil_r (_ ++ o)), P. repeat constructor.
Qed.

(** A pass of the Go loop that gets its connection dials, says which
    attempt it is and calls StreamL2Book with the request. *)
Lemma go_loop_opens (rc : nat) (us : list Update) (e : GoEnding)
    (rest : list (GoConn Update)) :
  (rc < maxRetries)%nat ->
  exists post,
    fst (go_loop request rc (Stream us e :: rest))
    = [GDial Update;
       if (0 <? rc)%nat then GLogReconnecting Update (rc + 1) maxRetries
       else GLogConnecting Update;
       GStreamL2Book Update request] ++ post.
Proof.
  intro L. cbn [go_loop]. apply Nat.ltb_lt in L. rewrite L.
  destruct (go_recv rc 0 us) as [[rc1 mc1] o].
  destruct e as [|err|].
  - eexists. cbn [fst]. rewrite <- app_assoc. reflexivity.
  - destruct (is_data_loss err).
    + destruct (S rc1 <? maxRetries)%nat.
      * destruct (go_loop request (S rc1) rest) as [o' ret].
        eexists. cbn [fst]. rewrite <- app_assoc. reflexivity.
      * eexists. cbn [fst]. rewrite <- app_assoc. reflexivity.
    + eexists. cbn [fst]. rewrite <- app_assoc. reflexivity.
  - eexists. cbn [fst]. reflexivity.
Qed.

(** C6 (amended).  When a DATA_LOSS error arrives and retries are
    left, the client logs that the server reinitialised, waits, and
    calls StreamL2Book again; every call of a session, first or
    resumed, sends the same request (coin, n_levels), which has no
    start position, and nothing the client emits reports a gap.  The
    invocation the timer starts sends that request on the call it
    opens.  The Go sibling does the same: it logs, sleeps, closes,
    dials again and, on the connection it gets, sends the request it
    sent before. *)
Theorem data_loss_resume_repeats_request (autoReconnect : bool)
    (world : list (Conn Update)) (goWorld : list (GoConn Update)) :
  let os := console (streamL2Orderbook sym nLevels autoReconnect world) in
  Forall (fun q => q = request) (requests os)
  /\ Forall (fun e => e = SubscribeIntent None)
       (flat_map (@observe Update) os)
  /\ Forall (fun e => e = SubscribeIntent None)
       (flat_map (@go_observe Update)
          (fst (go_streamL2Orderbook sym nLevels goWorld)))
  /\ (forall v err,
        code err = DATA_LOSS -> (S (retryCount v) < maxRetries)%nat ->
        exists d,
          onError Update true v err
          = ({| retryCount := S (retryCount v); msgCount := msgCount v |},
             [LogReinitialized Update (message err);
              LogWaiting Update d; SetTimeout Update d], Some d))
  /\ (forall (c : Conn Update) (rest : list (Conn Update)) d,
        timer (invocation sym nLevels autoReconnect c) = Some d ->
        streamL2Orderbook sym nLevels autoReconnect (c :: rest)
        = invocation sym nLevels autoReconnect c
          :: streamL2Orderbook sym nLevels autoReconnect rest)
  /\ Forall (fun q => q = request)
       (go_requests (fst (go_streamL2Orderbook sym nLevels goWorld)))
  /\ (forall rc (us us' : list Update) e e' rest,
        (rc < maxRetries)%nat -> is_data_loss e = true ->
        let rc' := S (match us with [] => rc | _ :: _ => 0%nat end) in
        (rc' < maxRetries)%nat ->
        exists pre d post,
          fst (go_loop request rc
                 (Stream us (Failed e) :: Stream us' e' :: rest))
          = pre
            ++ [GLogReinitialized Update (error_message e);
                GLogWaiting Update d; GSleep Update d; GClose Update;
                GDial Update; GLogReconnecting Update (rc' + 1) maxRetries;
                GStreamL2Book Update request]
            ++ post
          /\ go_requests pre = [request])
  /\ (forall (us : list Update) e,
        requests (outs (invocation sym nLevels autoReconnect (Call us e)))
        = [request]).
Proof.
  cbv zeta. repeat split.
  - induction world as [|c rest IH]; [constructor|].
    cbn [streamL2Orderbook]. unfold console, requests in *.
    cbn [flat_map]. rewrite flat_map_app. apply Forall_app. split.
    + fold (requests (outs (invocation sym nLevels autoReconnect c))).
      rewrite invocation_requests. destruct c; repeat constructor.
    + destruct (timer _); [exact IH|constructor].
  - apply Forall_forall. intros e H. apply in_flat_map in H
      as (o & _ & H). destruct o; cbn in H; intuition.
  - apply Forall_forall. intros e H. apply in_flat_map in H
      as (o & _ & H). destruct o; cbn in H; intuition.
  - intros v err C L. unfold onError. rewrite C, Z.eqb_refl.
    cbn [andb]. apply Nat.ltb_lt in L. rewrite L. eexists. reflexivity.
  - intros c rest d H. cbn [streamL2Orderbook]. now rewrite H.
  - unfold go_streamL2Orderbook.
    pose proof (go_loop_requests goWorld 0) as H.
    destruct (go_loop request 0 goWorld) as [o ret]. exact H.
  - intros rc us us' e e' rest L D L'.
    destruct (@go_loop_opens
                (S (match us with [] => rc | _ :: _ => 0%nat end))
                us' e' rest L') as [post O].
    cbn [Nat.ltb Nat.leb] in O.
    remember (Stream us' e' :: rest) as w eqn:W. clear W.
    cbn [go_loop].
    destruct (Nat.ltb_spec rc maxRetries) as [_|F]; [|lia].
    pose proof (go_recv_retry rc us) as R.
    pose proof (go_recv_requests us rc 0) as Q.
    destruct (go_recv rc 0 us) as [[rc1 mc1] o]. cbn [fst snd] in R, Q.
    rewrite D. subst rc1.
    destruct (Nat.ltb_spec
                (S (match us with [] => rc | _ :: _ => 0%nat end))
                maxRetries) as [_|F]; [|lia].
    destruct (go_loop request
                (S (match us with [] => rc | _ :: _ => 0%nat end))
                w) as [o' ret].
    cbn [fst] in *. subst o'.
    exists ([GDial Update;
             if (0 <? rc)%nat
             then GLogReconnecting Update (rc + 1) maxRetries
             else GLogConnecting Update;
             GStreamL2Book Update request] ++ o).
    eexists. exists post. split.
    + rewrite <- !app_assoc. cbn [app]. reflexivity.
    + unfold go_requests in *. rewrite flat_map_app, Q.
      now destruct (0 <? rc)%nat.
  - intros us e. apply (invocation_requests autoReconnect (Call us e)).
Qed.

(** C7 (amended).  A connect or stream-open error ends the session
    at once, with the error returned and no backoff.  A stream error
    is retried with backoff only when its code is DATA_LOSS (in
    JavaScript, and auto-reconnect is on); any other stream error,
    authentication and permission faults among them, ends the
    session.  Silence is not a fault: a call that stays open is
    waited on.  A DATA_LOSS fault is never returned as an error. *)
Theorem only_data_loss_is_retried :
  (forall rc m rest, (rc < maxRetries)%nat ->
     go_loop request rc (DialError Update m :: rest)
     = ([GDial Update], FailedToConnect m))
  /\ (forall rc m (rest : list (GoConn Update)), (rc < maxRetries)%nat ->
        exists o,
          go_loop request rc (OpenError Update m :: rest)
          = (o, FailedToStartStream m) /\ go_sleeps o = [])
  /\ (forall rc (us : list Update) e rest,
        (rc < maxRetries)%nat -> is_data_loss e = false ->
        exists o,
          go_loop request rc (Stream us (Failed e) :: rest)
          = (o, StreamErr e) /\ go_sleeps o = [])
  /\ (forall rc (us : list Update) e rest,
        (rc < maxRetries)%nat -> is_data_loss e = true ->
        (S (match us with [] => rc | _ :: _ => 0%nat end)
         < maxRetries)%nat ->
        go_enters_backoff
          (fst (go_loop request rc (Stream us (Failed e) :: rest))))
  /\ (forall rc (world : list (GoConn Update)) e,
        snd (go_loop request rc world) = StreamErr e ->
        is_data_loss e = false)
  /\ (forall autoReconnect v err,
        Z.eqb (code err) DATA_LOSS && autoReconnect = false ->
        onError Update autoReconnect v err
        = (v, [LogGrpcError Update (code err) (message err)], None))
  /\ (forall v err,
        code err = DATA_LOSS -> (S (retryCount v) < maxRetries)%nat ->
        snd (onError Update true v err)
        = Some (baseDelay * 2 ^ Z.of_nat (retryCount v))%Z)
  /\ (forall autoReconnect (us : list Update),
        timer (invocation sym nLevels autoReconnect (Call us Pending))
        = None)
  /\ (forall rc (us : list Update) rest,
        (rc < maxRetries)%nat ->
        exists o,
          go_loop request rc (Stream us Blocked :: rest) = (o, NoReturn)
          /\ go_sleeps o = []).
Proof.
  repeat split.
  - intros rc m rest H. cbn [go_loop]. apply Nat.ltb_lt in H.
    now rewrite H.
  - intros rc m rest H. cbn [go_loop]. apply Nat.ltb_lt in H.
    rewrite H. eexists. split; [reflexivity|].
    now destruct (0 <? rc)%nat.
  - intros rc us e rest H D. cbn [go_loop]. apply Nat.ltb_lt in H.
    rewrite H. pose proof (go_recv_no_sleep us rc 0) as O.
    destruct (go_recv rc 0 us) as [[rc1 mc1] o]. rewrite D.
    eexists. split; [reflexivity|]. cbn [snd] in O.
    unfold go_sleeps in *. rewrite !flat_map_app, O.
    now destruct (0 <? rc)%nat.
  - intros rc us e rest H D L.
    destruct (go_data_loss_retries us e rest H D L) as (pre & _ & E).
    rewrite E. cbn [fst]. eexists. apply in_or_app. right. now left.
  - intros rc world e. apply go_never_returns_data_loss.
  - intros a v err H. unfold onError. now rewrite H.
  - intros v err C L. unfold onError. rewrite C, Z.eqb_refl.
    cbn [andb]. apply Nat.ltb_lt in L. rewrite L. cbn [snd].
    do 3 f_equal. lia.
  - intros a us. unfold invocation. cbn [Nat.ltb Nat.leb maxRetries].
    destruct (deliver _ us) as [v1 o1]. reflexivity.
  - intros rc us rest H. cbn [go_loop]. apply Nat.ltb_lt in H. rewrite H.
    pose proof (go_recv_no_sleep us rc 0) as O.
    destruct (go_recv rc 0 us) as [[rc1 mc1] o]. eexists.
    split; [reflexivity|]. cbn [snd] in O.
    unfold go_sleeps in *. rewrite !flat_map_app, O.
    now destruct (0 <? rc)%nat.
Qed.

End Facts.
End OrderbookFacts.

Module OrderbookWitness.
Import Js Orderbook OrderbookFacts.

(** The Go sibling on twelve connections that fail in a row: nine
    waits, doubling from 2 s to 512 s, ten dials, and a return. *)
Lemma go_twelve_failures :
  let r := go_streamL2Orderbook (lit "BTC") 20
             (repeat (Sample.go_failing Z) 12) in
  go_sleeps (fst r)
  = map (fun s => (s * 1000000000)%Z) [2; 4; 8; 16; 32; 64; 128; 256; 512]%Z
  /\ go_dials (fst r) = 10%nat
  /\ snd r = ReturnNil.
Proof.
  vm_compute. repeat split.
Qed.

(** C6, as stated, fails: the cursor is at block 100 when DATA_LOSS
    arrives; the client resumes with no start position and reports no
    gap, where the claim wants [GapDetected{from: 101, to: 150}]
    followed by a resume at 150. *)
Lemma data_loss_resume_reports_no_gap :
  ~ gap_reported
      (flat_map (@observe Z)
         (console (streamL2Orderbook (lit "BTC") 20 true
                     [Call [100%Z] (Errored Sample.data_loss);
                      Call [] Pending])))
      100 150.
Proof.
  intros (before & after & E & _). vm_compute in E.
  destruct before as [|x [|y [|z before]]]; cbn in E; discriminate E.
Qed.

Lemma data_loss_resume_repeats_request_witness :
  let q := {| coin := lit "BTC"; n_levels := 20 |} in
  (exists d,
     onError Z true {| retryCount := 0; msgCount := 3 |} Sample.data_loss
     = ({| retryCount := 1; msgCount := 3 |},
        [LogReinitialized Z (lit "reinitialized"); LogWaiting Z d;
         SetTimeout Z d], Some d))
  /\ streamL2Orderbook (lit "BTC") 20 true
       [Call [100%Z] (Errored Sample.data_loss); Call [] Pending]
     = invocation (lit "BTC") 20 true
         (Call [100%Z] (Errored Sample.data_loss))
       :: streamL2Orderbook (lit "BTC") 20 true [Call [] Pending]
  /\ (exists pre d post,
        fst (go_loop q 0
               [Stream [100%Z] (Failed (StatusError Sample.data_loss));
                Stream [] Blocked])
        = pre
          ++ [GLogReinitialized Z (lit "reinitialized");
              GLogWaiting Z d; GSleep Z d; GClose Z;
              GDial Z; GLogReconnecting Z 2 maxRetries;
              GStreamL2Book Z q]
          ++ post
        /\ go_requests pre = [q]).
Proof.
  cbv zeta.
  destruct (data_loss_resume_repeats_request (lit "BTC") 20 true
              [Call [100%Z] (Errored Sample.data_loss)] [])
    as (_ & _ & _ & H4 & H5 & _ & H7 & _).
  refine (conj _ (conj _ _)).
  - apply (H4 {| retryCount := 0; msgCount := 3 |} Sample.data_loss).
    + reflexivity.
    + unfold maxRetries. cbn. lia.
  - apply (H5 _ _ 2000%Z). reflexivity.
  - apply (H7 0%nat [100%Z] [] (StatusError Sample.data_loss) Blocked []).
    + unfold maxRetries. lia.
    + reflexivity.
    + unfold maxRetries. lia.
Defined.

(** C7, as stated, fails: a connect error is not retried.  Go returns
    "failed to connect" after one dial and never sleeps, and returns the
    stream error when the failure shows as UNAVAILABLE on the first
    receive; JavaScript, handed UNAVAILABLE, sets no timer. *)
Lemma connect_failure_is_terminal :
  let r := go_streamL2Orderbook (lit "BTC") 20
             [DialError Z (lit "connection refused"); Stream [] EOF] in
  let r' := go_streamL2Orderbook (lit "BTC") 20
              [Stream (@nil Z) (Failed (StatusError Sample.unavailable));
               Stream [] EOF] in
  snd r = FailedToConnect (lit "connection refused")
  /\ go_dials (fst r) = 1%nat
  /\ ~ go_enters_backoff (fst r)
  /\ snd r' = StreamErr (StatusError Sample.unavailable)
  /\ go_dials (fst r') = 1%nat
  /\ ~ go_enters_backoff (fst r')
  /\ timer (invocation (lit "BTC") 20 true
              (Call (@nil Z) (Errored Sample.unavailable))) = None.
Proof.
  cbv zeta. repeat split;
    intros [d H]; vm_compute in H; intuition discriminate.
Qed.

Lemma only_data_loss_is_retried_witness :
  let q := {| coin := lit "BTC"; n_levels := 20 |} in
  let v := {| retryCount := 0; msgCount := 3 |} in
  go_loop q 0 [DialError Z (lit "connection refused")]
  = ([GDial Z], FailedToConnect (lit "connection refused"))
  /\ (exists o,
        go_loop q 0 [OpenError Z (lit "denied")]
        = (o, FailedToStartStream (lit "denied")) /\ go_sleeps o = [])
  /\ (exists o,
        go_loop q 0 [Stream [5%Z] (Failed (StatusError Sample.unavailable))]
        = (o, StreamErr (StatusError Sample.unavailable))
        /\ go_sleeps o = [])
  /\ go_enters_backoff
       (fst (go_loop q 0
               [Stream [5%Z] (Failed (StatusError Sample.data_loss))]))
  /\ is_data_loss (StatusError Sample.unavailable) = false
  /\ onError Z false v Sample.data_loss
     = (v, [LogGrpcError Z DATA_LOSS (lit "reinitialized")], None)
  /\ snd (onError Z true v Sample.data_loss) = Some (baseDelay * 2 ^ 0)%Z
  /\ (exists o,
        go_loop q 0 [Stream [5%Z] Blocked] = (o, NoReturn)
        /\ go_sleeps o = []).
Proof.
  cbv zeta.
  destruct (only_data_loss_is_retried Z (lit "BTC") 20)
    as (H1 & H2 & H3 & H4 & H5 & H6 & H7 & _ & H9).
  assert (L : (0 < maxRetries)%nat) by (unfold maxRetries; lia).
  assert (L' : (1 < maxRetries)%nat) by (unfold maxRetries; lia).
  refine (conj _ (conj _ (conj _ (conj _ (conj _ (conj _ (conj _ _))))))).
  - apply H1. exact L.
  - apply H2. exact L.
  - apply H3; [exact L|reflexivity].
  - apply H4; [exact L|reflexivity|exact L'].
  - apply (H5 0%nat
             [Stream [5%Z] (Failed (StatusError Sample.unavailable))]).
    reflexivity.
  - apply H6. reflexivity.
  - apply H7; [reflexivity|exact L'].
  - apply H9. exact L.
Defined.

End OrderbookWitness.

(* ================================================================== *)
(** * Properties of the generic stream client *)
(* ================================================================== *)

Module StreamFacts.
Import Js Payload Stream.

Section Facts.
Variable zstd_decompress : bytes -> option bytes.
Variable utf8 : bytes -> jsstring.
Variable Json : Type.
Variable JSON_parse : jsstring -> option Json.

Local Abbreviation streamData :=
  (streamData zstd_decompress utf8 JSON_parse).

Lemma handle_no_subscribe (streamType : jsstring) (e : Event) :
  subscribes (handle zstd_decompress utf8 JSON_parse streamType e) = [].
Proof.
  destruct e as [r| | |now]; try reflexivity.
  cbn [handle]. unfold subscribes.
  induction (streamData_onData zstd_decompress utf8 JSON_parse
               streamType r) as [|c l IH]; [reflexivity|exact IH].
Qed.

(** [streamData] writes one subscribe request, with [start_block] 0,
    when it starts and none afterwards, whatever arrives: data, an
    error, the end of the stream. *)
Lemma streamData_subscribes_once (streamType : jsstring) (fl : Filters)
    (events : list Event) :
  subscribes (streamData streamType fl events)
  = [subscribeRequest streamType fl]
  /\ start_block (subscribeRequest streamType fl) = 0%Z.
Proof.
  repeat split. unfold Stream.streamData, subscribes.
  rewrite !flat_map_app.
  destruct (0 <? List.length fl)%nat at 1; cbn [flat_map app]; f_equal;
  induction events as [|e events IH]; try reflexivity;
  cbn [flat_map]; rewrite flat_map_app, IH, app_nil_r;
  apply handle_no_subscribe.
Qed.

Lemma actions_of_did (l : list (Action Json)) :
  actions_of (map (@Did Json) l) = l.
Proof.
  induction l as [|a l IH]; [reflexivity|].
  cbn [map].
  change (actions_of (Did a :: map (@Did Json) l))
    with (a :: actions_of (map (@Did Json) l)).
  now rewrite IH.
Qed.

Lemma actions_of_app (a b : list (Step Json)) :
  actions_of (a ++ b) = actions_of a ++ actions_of b.
Proof. apply flat_map_app. Qed.

Lemma actions_of_handlers (handler : Event -> list (Action Json))
    (events : list Event) :
  actions_of (flat_map (fun e => Got Json e :: map (@Did Json) (handler e))
                events)
  = flat_map handler events.
Proof.
  induction events as [|e events IH]; [reflexivity|].
  cbn [flat_map]. rewrite actions_of_app, IH. f_equal.
  change (actions_of (Got Json e :: map (@Did Json) (handler e)))
    with (actions_of (map (@Did Json) (handler e))).
  apply actions_of_did.
Qed.

(** The run with the events in place does what [streamData] does. *)
Lemma streamData_run_actions (streamType : jsstring) (fl : Filters)
    (events : list Event) :
  actions_of (streamData_run zstd_decompress utf8 JSON_parse
                streamType fl events)
  = streamData streamType fl events.
Proof.
  unfold streamData_run, run, Stream.streamData, streamData_start.
  rewrite actions_of_app, actions_of_did, actions_of_handlers,
    <- app_assoc.
  reflexivity.
Qed.

Lemma intents_quiet (steps : list (Step Json)) :
  Forall (@quiet Json) steps -> forall acc, intents acc steps = [].
Proof.
  induction 1 as [|x steps Q _ IH]; intro acc; [reflexivity|].
  destruct x as [e|[[q|ts]|fl'|st| |c|msg|]]; cbn [intents];
    try apply IH. destruct Q.
Qed.

Lemma handlers_quiet (handler : Event -> list (Action Json))
    (events : list Event) :
  (forall e, Forall (fun a => quiet (Did a)) (handler e)) ->
  Forall (@quiet Json) (flat_map (fun e => Got Json e :: map (@Did Json) (handler e))
                  events).
Proof.
  intro H. induction events as [|e events IH]; [constructor|].
  cbn [flat_map]. constructor; [exact I|].
  apply Forall_app. split; [|exact IH].
  specialize (H e). induction H; constructor; assumption.
Qed.

Lemma handle_quiet (streamType : jsstring) (e : Event) :
  Forall (fun a => quiet (Did a))
    (handle zstd_decompress utf8 JSON_parse streamType e).
Proof.
  destruct e as [r|msg| |now]; cbn [handle]; repeat constructor.
  induction (streamData_onData _ _ _ _ r); constructor;
    [exact I|assumption].
Qed.

Lemma streamWithFilter_handle_quiet (e : Event) :
  Forall (fun a => quiet (Did a))
    (streamWithFilter_handle zstd_decompress utf8 JSON_parse e).
Proof.
  destruct e as [r|msg| |now]; cbn [streamWithFilter_handle];
    repeat constructor.
  induction (streamWithFilter_onData _ _ _ r); constructor;
    [exact I|assumption].
Qed.

Lemma streamData_run_intents (streamType : jsstring) (fl : Filters)
    (events : list Event) :
  intents [] (streamData_run zstd_decompress utf8 JSON_parse
                streamType fl events)
  = [(map (@Did Json)
        (if (0 <? List.length fl)%nat then [LogFilters Json fl] else []),
      subscribeRequest streamType fl)].
Proof.
  unfold streamData_run, run, streamData_start.
  destruct (0 <? List.length fl)%nat; cbn [map app intents]; f_equal;
    apply intents_quiet;
    first [apply handlers_quiet, handle_quiet
          |constructor; [exact I|apply handlers_quiet, handle_quiet]].
Qed.

Lemma streamWithFilter_run_intents (events : list Event) :
  intents [] (streamWithFilter_run zstd_decompress utf8 JSON_parse events)
  = [([], filterSubscribe)].
Proof.
  unfold streamWithFilter_run, run, streamWithFilter_start.
  cbn [map app intents]. f_equal.
  apply intents_quiet.
  first [apply handlers_quiet, streamWithFilter_handle_quiet
        |constructor;
         [exact I|apply handlers_quiet, streamWithFilter_handle_quiet]].
Qed.

Section Go.
Variable go_zstd_decompress : bytes -> option bytes.
Variable GoJson : Type.
Variable Unmarshal : bytes -> option GoJson.

Local Abbreviation go_streamWithFilter :=
  (go_streamWithFilter go_zstd_decompress Unmarshal).

Lemma go_intents_quiet (steps : list (GoStep GoJson)) :
  Forall (@go_quiet GoJson) steps -> forall acc, go_intents acc steps = [].
Proof.
  induction 1 as [|x steps Q _ IH]; intro acc; [reflexivity|].
  destruct x as [e|[[q|ts]| |b j]]; cbn [go_intents];
    try apply IH. destruct Q.
Qed.

Lemma go_filter_onData_quiet (r : Response) :
  Forall (@go_quiet GoJson)
    (map (@GoDid GoJson)
       (go_filter_onData go_zstd_decompress Unmarshal r)).
Proof.
  unfold go_filter_onData. destruct r as [m|ts|]; [|constructor..].
  destruct (Unmarshal _); repeat constructor.
Qed.

Lemma go_filter_loop_quiet (events : list GoEvent) :
  Forall (@go_quiet GoJson)
    (fst (go_filter_loop go_zstd_decompress Unmarshal events)).
Proof.
  induction events as [|e events IH]; [constructor|].
  destruct e as [r| |msg|now]; cbn [go_filter_loop].
  - destruct (go_filter_loop _ _ events) as [steps ret]. cbn [fst] in *.
    constructor; [exact I|]. apply Forall_app. split; [|exact IH].
    apply go_filter_onData_quiet.
  - repeat constructor.
  - repeat constructor.
  - destruct (go_filter_loop _ _ events) as [steps ret]. cbn [fst] in *.
    constructor; [exact I|]. constructor; [exact I|exact IH].
Qed.

Lemma go_streamWithFilter_intents (o : GoOpening)
    (events : list GoEvent) :
  go_intents [] (fst (go_streamWithFilter o events))
  = match o with
    | DialFails _ | StreamDataFails _ => []
    | SendFails _ | Subscribed => [([], filterSubscribe)]
    end.
Proof.
  destruct o as [m|m|m|]; try reflexivity.
  unfold Stream.go_streamWithFilter.
  pose proof (go_filter_loop_quiet events) as Q.
  destruct (go_filter_loop _ _ events) as [steps ret]. cbn [fst] in *.
  cbn [go_intents app]. f_equal. apply go_intents_quiet.
  first [exact Q|constructor; [exact I|exact Q]].
Qed.


End Go.
End Facts.

(** A run in which block 100 is processed and an error arrives: the
    only intent is the first step, and the steps after the error, ticks
    of the keep-alive timer among them, hold pings and no subscribe. *)
Example streamData_run_after_error :
  let steps :=
    streamData_run Sample.zstd Sample.utf8 Sample.parse (lit "BLOCKS") []
      [EvResponse
         (RData {| block_number := 100; timestamp := 1;
                   data := [x7b; x7d] |});
       EvError (lit "stream reset"); EvTick 30000] in
  map (fun i => (List.length (fst i), start_block (snd i)))
    (intents [] steps)
  = [(0%nat, 0%Z)]
  /\ lastConfirmedCursor None (events_of steps) = Some 100%Z
  /\ skipn 4 steps
     = [Got jsstring (EvError (lit "stream reset"));
        Did (LogError jsstring (lit "stream reset"));
        Got jsstring (EvTick 30000);
        Did (Write jsstring (ReqPing 30000))].
Proof. repeat split. Qed.

End StreamFacts.

(* ================================================================== *)
(** * Properties of the string operations *)
(* ================================================================== *)

Module JsFacts.
Import Js.

Example split_examples :
  split 47 (lit "a//b") = [lit "a"; []; lit "b"]
  /\ split 47 [] = [[]]
  /\ split 45 (lit "830000000-830010000")
     = [lit "830000000"; lit "830010000"].
Proof. repeat split. Qed.

Example remove_first_examples :
  remove_first (lit "replica_cmds/") (lit "replica_cmds/1704067200/")
  = lit "1704067200/"
  /\ remove_first (lit "/") (lit "1704067200/") = lit "1704067200"
  /\ remove_first (lit "b/") (lit "ab/b/") = lit "ab/".
Proof. repeat split. Qed.

Example parseInt_examples :
  parseInt (lit "830000000") = Finite 830000000
  /\ parseInt (lit "12abc") = Finite 12
  /\ parseInt (lit " 42") = Finite 42
  /\ parseInt (lit "+7") = Finite 7
  /\ parseInt (lit "-7") = Finite (-7)
  /\ parseInt (lit "abc") = NaN
  /\ parseInt [] = NaN.
Proof. repeat split. Qed.

Example blank_line_examples :
  trim_truthy [] = false
  /\ trim_truthy [32; 9; 65279]%N = false
  /\ trim_truthy (lit " {} ") = true
  /\ Backfill.all_space [] = true
  /\ Backfill.all_space [32; 9; 194; 160; 226; 128; 168]%N = true
  /\ Backfill.all_space [194]%N = false
  /\ Backfill.all_space (lit " {} ") = false.
Proof. repeat split. Qed.

Example sort_example :
  sort [lit "20240301"; lit "1706745600"; lit "1704067200"; lit "9"]
  = [lit "1704067200"; lit "1706745600"; lit "20240301"; lit "9"].
Proof. reflexivity. Qed.

Example ParseInt_examples :
  Backfill.ParseInt (lit "830000000") = Some 830000000%Z
  /\ Backfill.ParseInt (lit "-5") = Some (-5)%Z
  /\ Backfill.ParseInt (lit "12abc") = None
  /\ Backfill.ParseInt (lit " 42") = None
  /\ Backfill.ParseInt (lit "-") = None
  /\ Backfill.ParseInt (lit "9223372036854775807")
     = Some 9223372036854775807%Z
  /\ Backfill.ParseInt (lit "9223372036854775808") = None.
Proof. repeat split. Qed.

Lemma split_nonempty (c : N) (s : jsstring) : split c s <> [].
Proof.
  destruct s as [|x s]; cbn [split]; [discriminate|].
  destruct (N.eqb x c); [discriminate|].
  destruct (split c s); discriminate.
Qed.

Lemma split_length (c : N) (s : jsstring) :
  (1 <= List.length (split c s))%nat.
Proof.
  pose proof (split_nonempty c s). destruct (split c s); [easy|cbn; lia].
Qed.

(** Splitting at a separator splits what is on either side of it. *)
Lemma split_app (c : N) (a b : jsstring) :
  split c (a ++ c :: b) = split c a ++ split c b.
Proof.
  induction a as [|x a IH]; cbn [app split].
  - now rewrite N.eqb_refl.
  - destruct (N.eqb x c); [now rewrite IH|].
    rewrite IH. pose proof (split_nonempty c a).
    destruct (split c a); [easy|reflexivity].
Qed.

(** A string that splits into one part is that part. *)
Lemma split_single (c : N) (s : jsstring) :
  List.length (split c s) = 1%nat -> split c s = [s].
Proof.
  induction s as [|x s IH]; cbn [split]; [reflexivity|].
  destruct (N.eqb x c).
  - cbn [List.length]. pose proof (split_length c s). lia.
  - pose proof (split_nonempty c s).
    destruct (split c s) as [|p ps]; [easy|].
    cbn [List.length] in *. intro L. specialize (IH L).
    now injection IH as -> ->.
Qed.

Lemma leb_refl (a : jsstring) : leb a a = true.
Proof.
  induction a as [|x a IH]; [reflexivity|]. cbn [leb].
  rewrite N.ltb_irrefl, N.eqb_refl. exact IH.
Qed.

Lemma leb_trans : forall a b c : jsstring,
  leb a b = true -> leb b c = true -> leb a c = true.
Proof.
  induction a as [|x a IH]; intros [|y b] [|z c]; cbn [leb]; try easy.
  destruct (N.ltb_spec x y), (N.ltb_spec y z), (N.ltb_spec x z);
    try easy; try lia;
    destruct (N.eqb_spec x y), (N.eqb_spec y z), (N.eqb_spec x z);
    try easy; try lia.
  apply IH.
Qed.

Lemma leb_total : forall a b : jsstring,
  leb a b = false -> leb b a = true.
Proof.
  induction a as [|x a IH]; intros [|y b]; cbn [leb]; try easy.
  destruct (N.ltb_spec x y), (N.ltb_spec y x); try easy; try lia.
  destruct (N.eqb_spec x y), (N.eqb_spec y x); try easy; try lia.
  apply IH.
Qed.

Lemma insert_in (x y : jsstring) (l : list jsstring) :
  In x (insert y l) <-> x = y \/ In x l.
Proof.
  induction l as [|a l IH]; cbn [insert In]; [intuition|].
  destruct (leb y a); cbn [In]; rewrite ?IH; intuition.
Qed.

Lemma insert_sorted (y : jsstring) (l : list jsstring) :
  StronglySorted (fun a b => leb a b = true) l ->
  StronglySorted (fun a b => leb a b = true) (insert y l).
Proof.
  induction 1 as [|a l S IH F]; cbn [insert].
  - repeat constructor.
  - destruct (leb y a) eqn:E.
    + constructor; [now constructor|]. constructor; [exact E|].
      rewrite Forall_forall in *. intros z Hz.
      eapply leb_trans; [exact E|now apply F].
    + constructor; [exact IH|].
      rewrite Forall_forall in *. intros z Hz.
      apply insert_in in Hz as [->|Hz]; [now apply leb_total|now apply F].
Qed.

Lemma sort_sorted (l : list jsstring) :
  StronglySorted (fun a b => leb a b = true) (sort l).
Proof.
  induction l as [|x l IH]; cbn [sort]; [constructor|].
  now apply insert_sorted.
Qed.

Lemma sort_in (x : jsstring) (l : list jsstring) :
  In x (sort l) <-> In x l.
Proof.
  induction l as [|a l IH]; cbn [sort In]; [tauto|].
  rewrite insert_in, IH. intuition.
Qed.

Lemma last_in (A : Type) (l : list A) (d : A) :
  l <> [] -> In (last l d) l.
Proof.
  induction l as [|a l IH]; [easy|]. intros _.
  destruct l as [|b l]; [now left|].
  right. apply IH. discriminate.
Qed.

(** The last element of a sorted array is its greatest. *)
Lemma sorted_last_greatest (l : list jsstring) :
  StronglySorted (fun a b => leb a b = true) l ->
  forall x, In x l -> leb x (last l []) = true.
Proof.
  induction 1 as [|a l S IH F]; intros x Hx; [destruct Hx|].
  destruct l as [|b l].
  - destruct Hx as [->|[]]. apply leb_refl.
  - change (last (a :: b :: l) []) with (last (b :: l) []).
    destruct Hx as [->|Hx]; [|now apply IH].
    rewrite Forall_forall in F. apply F. apply last_in. discriminate.
Qed.

Lemma trim_truthy_filter_all (lines : list jsstring) (i : nat) :
  forallb trim_truthy lines = true ->
  filter trim_truthy (firstn i lines) = firstn i lines.
Proof.
  revert i. induction lines as [|l lines IH]; intros [|i] H;
    try reflexivity.
  cbn [forallb] in H. apply andb_prop in H as [H1 H2].
  cbn [firstn filter]. rewrite H1. f_equal. now apply IH.
Qed.

(** ** Numbers *)

(** Past 2^53 a double keeps every second integer, then every fourth,
    and a tie goes to the even significand. *)
Example round53_examples :
  round53 9007199254740992 = 9007199254740992%Z
  /\ round53 9007199254740993 = 9007199254740992%Z
  /\ round53 9007199254740995 = 9007199254740996%Z
  /\ round53 (2 ^ 54 + 2) = (2 ^ 54)%Z
  /\ round53 (2 ^ 54 + 6) = (2 ^ 54 + 8)%Z
  /\ parseInt (lit "9007199254740993") = Finite 9007199254740992
  /\ num_add (Finite (2 ^ 53)) 1 = Finite (2 ^ 53)
  /\ to_number (2 ^ 1024) = Infinity false
  /\ to_number (2 ^ 1024 - 2 ^ 970 - 1) = Finite (2 ^ 1024 - 2 ^ 971)
  /\ to_number (- 2 ^ 1024) = Infinity true.
Proof. vm_compute. repeat split. Qed.

Lemma round53_exact (n : Z) :
  (0 <= n <= 2 ^ 53)%Z -> round53 n = n.
Proof.
  intros [L U]. destruct (Z.eq_dec n (2 ^ 53)) as [->|N];
    [reflexivity|].
  unfold round53.
  assert (B : (Z.log2 n < 53)%Z).
  { destruct (Z.eq_dec n 0) as [->|P]; [reflexivity|].
    apply Z.log2_lt_pow2; lia. }
  destruct (Z.leb_spec (Z.log2 n - 52) 0); [reflexivity|lia].
Qed.

Lemma to_number_exact (z : Z) :
  (- 2 ^ 53 <= z <= 2 ^ 53)%Z -> to_number z = Finite z.
Proof.
  intro B. unfold to_number. rewrite round53_exact by lia.
  assert (S : (2 ^ 53 < 2 ^ 1024)%Z) by reflexivity.
  destruct (Z.ltb_spec (Z.abs z) (2 ^ 1024)) as [_|F]; [|lia].
  f_equal. lia.
Qed.

Lemma num_add_exact (a b : Z) :
  (- 2 ^ 53 <= a + b <= 2 ^ 53)%Z ->
  num_add (Finite a) b = Finite (a + b).
Proof. intro B. cbn [num_add]. now apply to_number_exact. Qed.

Lemma num_le_finite (a b : number) (t : Z) :
  num_le a (Finite t) = true -> num_le (Finite t) b = true ->
  a <> NaN /\ b <> NaN
  /\ (forall x, a = Finite x -> (x <= t)%Z)
  /\ (forall y, b = Finite y -> (t <= y)%Z)
  /\ a <> Infinity false /\ b <> Infinity true.
Proof.
  destruct a as [|x|[|]], b as [|y|[|]]; cbn; try discriminate;
    intros H1 H2; repeat split; try discriminate;
    intros w Q; try discriminate Q; injection Q as <-;
    now apply Z.leb_le.
Qed.

End JsFacts.

(* ================================================================== *)
(** * Properties of the backfill script *)
(* ================================================================== *)

Module BackfillFacts.
Import Js Backfill JsFacts.

Example parseBlockRange_example :
  parseBlockRange
    (lit "replica_cmds/1704067200/20240101/830000000-830010000")
  = Some Sample.range.
Proof. reflexivity. Qed.

Example findBlockFile_latest :
  option_map s3Key (findBlockFile Sample.bucket 840000005)
  = Some (lit "replica_cmds/1706745600/20240201/840000000-840010000").
Proof. reflexivity. Qed.

Example findBlockFile_earlier :
  findBlockFile Sample.bucket 830000005 = None.
Proof. reflexivity. Qed.

Example streamBlocks_dense :
  map (@blockNumber _)
    (streamBlocks Sample.parse Sample.dense_file Sample.range)
  = [Finite 830000000; Finite 830000002].
Proof. reflexivity. Qed.

Example streamBlocks_gapped :
  map (@blockNumber _)
    (streamBlocks Sample.parse Sample.gapped_file Sample.range)
  = [Finite 830000000].
Proof. reflexivity. Qed.

(** From 2^53 on the numbers stick: the sum is rounded back. *)
Example streamBlocks_past_2_53 :
  map (@blockNumber _)
    (streamBlocks Sample.parse Sample.dense_file
       {| checkpoint := []; date := [];
          startBlock := Finite (2 ^ 53); endBlock := Finite (2 ^ 53 + 2);
          s3Key := [] |})
  = [Finite (2 ^ 53); Finite (2 ^ 53 + 2)]
  /\ map (@blockNumber _)
       (streamBlocks Sample.parse (fun _ => [lit "{}"; lit "{}"])
          {| checkpoint := []; date := [];
             startBlock := Finite (2 ^ 53); endBlock := Finite (2 ^ 53 + 2);
             s3Key := [] |})
     = [Finite (2 ^ 53); Finite (2 ^ 53)].
Proof. split; reflexivity. Qed.

Section Blocks.
Variable Json : Type.
Variable JSON_parse : jsstring -> option Json.

Local Abbreviation streamBlocks := (streamBlocks JSON_parse).
Local Abbreviation record_of := (record_of JSON_parse).

Lemma nonblank_before_cons (line : jsstring) (lines : list jsstring)
    (i : nat) :
  nonblank_before (line :: lines) (S i)
  = ((if trim_truthy line then 1 else 0) + nonblank_before lines i)%nat.
Proof.
  unfold nonblank_before. cbn [firstn filter].
  now destruct (trim_truthy line).
Qed.

Lemma flat_map_shift (A : Type) (f : nat -> list A) (n : nat) :
  flat_map f (seq 1 n) = flat_map (fun i => f (S i)) (seq 0 n).
Proof.
  rewrite <- seq_shift, !flat_map_concat_map, map_map. reflexivity.
Qed.

Lemma nonblank_before_le (lines : list jsstring) (i : nat) :
  (nonblank_before lines i <= i)%nat
  /\ (nonblank_before lines i <= List.length lines)%nat.
Proof.
  unfold nonblank_before.
  pose proof (filter_length_le trim_truthy (firstn i lines)) as H.
  rewrite length_firstn in H. lia.
Qed.

(** The loop yields, line by line, the record of each line, numbered
    by the counter it started with plus the non-blank lines met so
    far, as long as the counter stays within 2^53. *)
Lemma streamBlocks_loop_spec (br : BlockRange) :
  forall (lines : list jsstring) (n : nat),
    (Z.of_nat n + Z.of_nat (List.length lines) <= 2 ^ 53)%Z ->
    streamBlocks_loop JSON_parse br (Z.of_nat n) lines
    = flat_map (fun i => record_of br (n + nonblank_before lines i)
                           (nth i lines []))
        (seq 0 (List.length lines)).
Proof.
  induction lines as [|line rest IH]; intros n B; [reflexivity|].
  cbn [List.length] in B.
  cbn [streamBlocks_loop List.length seq flat_map].
  rewrite flat_map_shift.
  assert (E : flat_map (fun i => record_of br
                                   (n + nonblank_before (line :: rest) (S i))
                                   (nth (S i) (line :: rest) []))
                (seq 0 (List.length rest))
              = streamBlocks_loop JSON_parse br
                  (Z.of_nat ((if trim_truthy line then 1 else 0) + n))
                  rest).
  { rewrite IH by (destruct (trim_truthy line); lia).
    apply flat_map_ext. intro i.
    rewrite nonblank_before_cons. cbn [nth]. f_equal. lia. }
  rewrite E. unfold nonblank_before. cbn [firstn filter List.length nth].
  rewrite Nat.add_0_r. unfold Backfill.record_of.
  assert (R : round53 (Z.of_nat n + 1) = Z.of_nat (1 + n))
    by (rewrite round53_exact; lia).
  rewrite R.
  destruct (trim_truthy line); [|reflexivity].
  destruct (JSON_parse line); reflexivity.
Qed.

(** C8 (amended).  Block numbers are doubles; while the start of the
    range plus the number of lines stays within 2^53, a record
    yielded from the file of a range that starts at [start] is
    numbered [start] plus the number of non-blank lines before its
    line: blank lines are skipped without being counted, lines that
    fail to parse are counted and yield nothing.  In a file without
    blank lines this count is the zero-based line index, so the record
    of line [k] gets [start + k]. *)
Theorem block_number_counts_nonblank_lines
    (s3_lines : jsstring -> list jsstring) (br : BlockRange)
    (start : Z) :
  startBlock br = Finite start ->
  (0 <= start)%Z ->
  (start + Z.of_nat (List.length (s3_lines (s3Key br))) <= 2 ^ 53)%Z ->
  let lines := s3_lines (s3Key br) in
  streamBlocks s3_lines br
  = flat_map (fun i => record_of br (nonblank_before lines i)
                         (nth i lines []))
      (seq 0 (List.length lines))
  /\ (forall b, In b (streamBlocks s3_lines br) ->
        exists i line,
          nth_error lines i = Some line
          /\ trim_truthy line = true
          /\ JSON_parse line = Some (data b)
          /\ blockNumber b
             = Finite (start + Z.of_nat (nonblank_before lines i)))
  /\ (forall i line d,
        nth_error lines i = Some line -> trim_truthy line = true ->
        JSON_parse line = Some d ->
        In {| blockNumber :=
                Finite (start + Z.of_nat (nonblank_before lines i));
              data := d |} (streamBlocks s3_lines br))
  /\ (forallb trim_truthy lines = true ->
      forall i, (i <= List.length lines)%nat ->
                nonblank_before lines i = i).
Proof.
  intros S P B lines. fold lines in B.
  assert (N : forall i,
             num_add (startBlock br) (Z.of_nat (nonblank_before lines i))
             = Finite (start + Z.of_nat (nonblank_before lines i))).
  { intro i. rewrite S. apply num_add_exact.
    pose proof (nonblank_before_le lines i). lia. }
  assert (E : streamBlocks s3_lines br
              = flat_map (fun i => record_of br (nonblank_before lines i)
                                     (nth i lines []))
                  (seq 0 (List.length lines))).
  { unfold Backfill.streamBlocks. fold lines.
    change 0%Z with (Z.of_nat 0).
    rewrite streamBlocks_loop_spec by (cbn [Z.of_nat]; lia).
    reflexivity. }
  repeat split.
  - exact E.
  - intros b H. rewrite E in H. apply in_flat_map in H as (i & Hi & H).
    apply in_seq in Hi. exists i, (nth i lines []).
    split; [apply nth_error_nth'; lia|].
    unfold Backfill.record_of in H.
    destruct (trim_truthy (nth i lines [])); [|destruct H].
    destruct (JSON_parse (nth i lines [])) as [d|]; [|destruct H].
    destruct H as [<-|[]]. cbn [data blockNumber]. rewrite N.
    repeat split.
  - intros i line d Hn T Q. rewrite E. apply in_flat_map. exists i.
    split.
    + apply in_seq.
      assert (i < List.length lines)%nat
        by (apply nth_error_Some; rewrite Hn; discriminate).
      lia.
    + rewrite (nth_error_nth _ _ _ Hn). unfold Backfill.record_of.
      rewrite T, Q, N. now left.
  - intros A i L. unfold nonblank_before.
    rewrite trim_truthy_filter_all by exact A.
    apply firstn_length_le. exact L.
Qed.

End Blocks.

(** C8, as stated, fails: the file's first line is empty, so its
    record sits on the line of index 1; it is numbered with the start
    of the range, not with the start plus one. *)
Lemma blank_line_shifts_block_numbers :
  nth_error (Sample.gapped_file (s3Key Sample.range)) 1
  = Some (lit "{}")
  /\ Backfill.streamBlocks Sample.parse Sample.gapped_file Sample.range
     = [{| blockNumber := Finite 830000000; data := lit "{}" |}]
  /\ Finite 830000000 <> Finite (830000000 + 1).
Proof.
  repeat split. discriminate.
Qed.

Lemma block_number_counts_nonblank_lines_witness :
  In {| blockNumber := Finite (830000000 + 2); data := lit "{}" |}
    (Backfill.streamBlocks Sample.parse Sample.dense_file Sample.range)
  /\ (exists i line,
        nth_error (Sample.dense_file (s3Key Sample.range)) i = Some line
        /\ Sample.parse line = Some (lit "{}")
        /\ Finite 830000000
           = Finite (830000000
                     + Z.of_nat (nonblank_before
                                   (Sample.dense_file (s3Key Sample.range))
                                   i)))
  /\ nonblank_before (Sample.dense_file (s3Key Sample.range)) 2 = 2%nat.
Proof.
  assert (P : (0 <= 830000000)%Z) by lia.
  assert (B : (830000000
               + Z.of_nat (List.length
                             (Sample.dense_file (s3Key Sample.range)))
               <= 2 ^ 53)%Z) by (cbn; lia).
  destruct (@block_number_counts_nonblank_lines jsstring Sample.parse
              Sample.dense_file Sample.range 830000000 eq_refl P B)
    as (_ & H2 & H3 & H4).
  refine (conj _ (conj _ _)).
  - apply (H3 2%nat (lit "{}") (lit "{}")); reflexivity.
  - destruct (H2 {| blockNumber := Finite 830000000; data := lit "{}" |})
      as (i & line & E1 & _ & E3 & E4); [now left|].
    exists i, line. refine (conj E1 (conj E3 E4)).
  - apply H4; [reflexivity|cbn; lia].
Defined.

Section Find.
Variable s3_list : jsstring -> option ListResponse.

Local Abbreviation listS3 := (listS3 s3_list).

Lemma split_file_key (cp d f : jsstring) :
  split slash (file_key cp d f)
  = [BLOCKS_PREFIX] ++ split slash cp ++ split slash d ++ split slash f.
Proof.
  unfold file_key. cbn [app]. rewrite !split_app. reflexivity.
Qed.

(** What a successful parse of a key built by [findBlockFile] tells:
    the three names hold no slash, so the key has exactly the four
    segments it was built from, and the file name has two non-empty
    dash-separated fields in front, which [parseInt] reads. *)
Lemma parseBlockRange_file_key (cp d f : jsstring) (br : BlockRange) :
  parseBlockRange (file_key cp d f) = Some br ->
  split slash (file_key cp d f) = [BLOCKS_PREFIX; cp; d; f]
  /\ checkpoint br = cp /\ date br = d
  /\ s3Key br = file_key cp d f
  /\ exists start end_ more,
       split dash f = start :: end_ :: more
       /\ start <> [] /\ end_ <> []
       /\ startBlock br = parseInt start
       /\ endBlock br = parseInt end_.
Proof.
  unfold parseBlockRange. rewrite split_file_key.
  destruct (Nat.eqb_spec
              (List.length ([BLOCKS_PREFIX] ++ split slash cp
                            ++ split slash d ++ split slash f)) 4)
    as [L|_]; [|intro Q; discriminate Q].
  rewrite !length_app in L. cbn [List.length] in L.
  pose proof (split_length slash cp).
  pose proof (split_length slash d).
  pose proof (split_length slash f).
  rewrite (@split_single slash cp), (@split_single slash d),
    (@split_single slash f) by lia.
  cbn [app nth negb orb].
  replace (eqb BLOCKS_PREFIX BLOCKS_PREFIX) with true by reflexivity.
  cbn [negb].
  destruct (split dash f) as [|start [|end_ more]]; cbn [nth_error];
    try (intro Q; discriminate Q).
  destruct start as [|s0 start]; [intro Q; discriminate Q|].
  destruct end_ as [|e0 end_]; [intro Q; discriminate Q|].
  cbn [truthy negb orb]. intro Q. injection Q as <-.
  cbn [checkpoint date s3Key startBlock endBlock].
  repeat split. exists (s0 :: start), (e0 :: end_), more.
  repeat split; discriminate.
Qed.

Lemma contains_bounds (br : BlockRange) (t : Z) :
  contains br t = true ->
  num_le (startBlock br) (Finite t) = true
  /\ num_le (Finite t) (endBlock br) = true
  /\ startBlock br <> NaN /\ endBlock br <> NaN
  /\ (forall s, startBlock br = Finite s -> (s <= t)%Z)
  /\ (forall e, endBlock br = Finite e -> (t <= e)%Z).
Proof.
  unfold contains. intro H. apply andb_prop in H as [H1 H2].
  destruct (@num_le_finite _ _ _ H1 H2) as (A & B & C & D & _).
  repeat split; assumption.
Qed.

Lemma scan_files_sound (t : Z) (cp d : jsstring)
    (files : list jsstring) (br : BlockRange) :
  scan_files t cp d files = Some br ->
  exists f, In f files
            /\ parseBlockRange (file_key cp d f) = Some br
            /\ contains br t = true.
Proof.
  induction files as [|f files IH]; cbn [scan_files];
    [discriminate|].
  destruct (parseBlockRange (file_key cp d f)) as [b|] eqn:P.
  - destruct (contains b t) eqn:C.
    + intro H. injection H as <-. exists f. now repeat split; [left|..].
    + intro H. destruct (IH H) as (f' & I & R). exists f'.
      split; [now right|exact R].
  - intro H. destruct (IH H) as (f' & I & R). exists f'.
    split; [now right|exact R].
Qed.

Lemma scan_files_none (t : Z) (cp d : jsstring)
    (files : list jsstring) :
  (forall f br, In f files ->
                parseBlockRange (file_key cp d f) = Some br ->
                contains br t = false) ->
  scan_files t cp d files = None.
Proof.
  induction files as [|f files IH]; intro H; cbn [scan_files];
    [reflexivity|].
  destruct (parseBlockRange (file_key cp d f)) as [b|] eqn:P.
  - rewrite (H f b (or_introl eq_refl) P). apply IH.
    intros f' br I. apply H. now right.
  - apply IH. intros f' br I. apply H. now right.
Qed.

Lemma scan_dates_sound (t : Z) (cp : jsstring)
    (dates : list jsstring) (br : BlockRange) :
  scan_dates s3_list t cp dates = Some br ->
  exists d f,
    In d dates
    /\ In f (listS3 (BLOCKS_PREFIX ++ [slash] ++ cp ++ [slash]
                     ++ d ++ [slash]))
    /\ parseBlockRange (file_key cp d f) = Some br
    /\ contains br t = true.
Proof.
  induction dates as [|d dates IH]; cbn [scan_dates]; [discriminate|].
  destruct (scan_files t cp d _) as [b|] eqn:F.
  - intro H. injection H as <-.
    apply scan_files_sound in F as (f & I & R). exists d, f.
    split; [now left|]. split; [exact I|exact R].
  - intro H. destruct (IH H) as (d' & f & I & R). exists d', f.
    split; [now right|exact R].
Qed.

Lemma scan_dates_none (t : Z) (cp : jsstring)
    (dates : list jsstring) :
  (forall d f br,
     In d dates ->
     In f (listS3 (BLOCKS_PREFIX ++ [slash] ++ cp ++ [slash]
                   ++ d ++ [slash])) ->
     parseBlockRange (file_key cp d f) = Some br ->
     contains br t = false) ->
  scan_dates s3_list t cp dates = None.
Proof.
  induction dates as [|d dates IH]; intro H; cbn [scan_dates];
    [reflexivity|].
  rewrite scan_files_none.
  - apply IH. intros d' f br I. apply H. now right.
  - intros f br I. apply H; [now left|exact I].
Qed.

Lemma listS3_sorted (prefix : jsstring) :
  StronglySorted (fun a b => leb a b = true) (listS3 prefix).
Proof.
  unfold Backfill.listS3. destruct (s3_list prefix);
    [apply sort_sorted|constructor].
Qed.

(** C9 (amended).  A range [findBlockFile] returns comes from a key
    [replica_cmds/{checkpoint}/{date}/{file}] of exactly four
    segments, whose checkpoint is the last, hence greatest, entry of
    the sorted checkpoint listing, whose date and file are entries
    of the listings below it, and whose file name starts with two
    non-empty dash-separated fields that [parseInt] reads as the
    bounds, neither as NaN; the target lies between the bounds.  What
    follows the digits of a field, and any further field, is ignored.
    Only that checkpoint is searched: when no file below it holds the
    target the answer is null, whatever lies below earlier
    checkpoints. *)
Theorem findBlockFile_latest_checkpoint (targetBlock : Z) :
  let checkpoints := listS3 (BLOCKS_PREFIX ++ [slash]) in
  let latest := last checkpoints [] in
  let dates := listS3 (BLOCKS_PREFIX ++ [slash] ++ latest ++ [slash]) in
  let files d := listS3 (BLOCKS_PREFIX ++ [slash] ++ latest ++ [slash]
                         ++ d ++ [slash]) in
  (forall br,
     findBlockFile s3_list targetBlock = Some br ->
     exists d f start end_ more,
       In latest checkpoints
       /\ (forall c, In c checkpoints -> leb c latest = true)
       /\ In d dates /\ In f (files d)
       /\ s3Key br = file_key latest d f
       /\ split slash (s3Key br) = [BLOCKS_PREFIX; latest; d; f]
       /\ checkpoint br = latest /\ date br = d
       /\ split dash f = start :: end_ :: more
       /\ start <> [] /\ end_ <> []
       /\ startBlock br = parseInt start /\ endBlock br = parseInt end_
       /\ startBlock br <> NaN /\ endBlock br <> NaN
       /\ num_le (startBlock br) (Finite targetBlock) = true
       /\ num_le (Finite targetBlock) (endBlock br) = true)
  /\ ((forall d f br,
         In d dates -> In f (files d) ->
         parseBlockRange (file_key latest d f) = Some br ->
         contains br targetBlock = false) ->
      findBlockFile s3_list targetBlock = None).
Proof.
  cbv zeta. unfold Backfill.findBlockFile.
  pose proof (listS3_sorted (BLOCKS_PREFIX ++ [slash])) as SS.
  destruct (listS3 (BLOCKS_PREFIX ++ [slash])) as [|c0 cs];
    [split; [intros br Q; discriminate Q|reflexivity]|].
  set (latest := last (c0 :: cs) []) in *. split.
  - intros br H.
    apply scan_dates_sound in H as (d & f & Id & If & P & B).
    apply parseBlockRange_file_key in P
      as (K & Hc & Hd & Hk & start & end_ & more & F & Ns & Ne & Ps & Pe).
    apply contains_bounds in B as (B1 & B2 & B3 & B4 & _).
    exists d, f, start, end_, more.
    repeat split; try assumption.
    + apply last_in. discriminate.
    + now apply sorted_last_greatest.
    + rewrite Hk. exact K.
  - intro H. now apply scan_dates_none.
Qed.

End Find.

(** C9, as stated, fails: the file name [100-200abc-7] is not in the
    layout [{start}-{end}], which the Go sibling refuses, and
    [findBlockFile] returns the range 100..200 read off it. *)
Lemma findBlockFile_accepts_malformed_key :
  exists br,
    findBlockFile Sample.odd_bucket 150 = Some br
    /\ s3Key br = lit "replica_cmds/9/d1/100-200abc-7"
    /\ startBlock br = Finite 100 /\ endBlock br = Finite 200
    /\ well_formed_key (s3Key br) = false
    /\ ParseBlockRange (s3Key br) = None.
Proof.
  eexists. split; [reflexivity|]. repeat split.
Qed.

Lemma findBlockFile_latest_checkpoint_witness :
  (exists br,
     findBlockFile Sample.bucket 840000005 = Some br
     /\ startBlock br = parseInt (lit "840000000")
     /\ endBlock br = parseInt (lit "840010000")
     /\ num_le (startBlock br) (Finite 840000005) = true
     /\ num_le (Finite 840000005) (endBlock br) = true)
  /\ findBlockFile Sample.bucket 830000005 = None.
Proof.
  split.
  - destruct (findBlockFile Sample.bucket 840000005) as [br|] eqn:F;
      [|discriminate F].
    destruct (findBlockFile_latest_checkpoint Sample.bucket 840000005)
      as [H _].
    destruct (H br F)
      as (d & f & start & end_ & more & R).
    destruct R as (_ & _ & _ & _ & _ & _ & _ & _ & _ & _ & _ & _ & _
                   & _ & _ & Bs & Be).
    exists br. vm_compute in F. injection F as <-.
    repeat split; assumption.
  - destruct (findBlockFile_latest_checkpoint Sample.bucket 830000005)
      as [_ H].
    apply H. intros d f br Hd Hf P.
    vm_compute in Hd. destruct Hd as [<-|[]].
    vm_compute in Hf. destruct Hf as [<-|[]].
    vm_compute in P. injection P as <-. reflexivity.
Defined.

(** ** The Go sibling *)

Example go_ParseBlockRange_example :
  ParseBlockRange
    (lit "replica_cmds/1704067200/20240101/830000000-830010000")
  = Some Sample.go_range.
Proof. reflexivity. Qed.

Example go_findBlockFile_examples :
  go_findBlockFile Sample.go_bucket 830000005 = NotFound
  /\ exists br, go_findBlockFile Sample.go_bucket 840000005 = Found br
                /\ Checkpoint br = lit "1706745600".
Proof. split; [reflexivity|]. eexists. split; reflexivity. Qed.

(** The Go loop numbers as the JavaScript one does: the empty first line
    is not counted, the malformed line is. *)
Example go_streamBlocks_examples :
  map (@BlockNumber _)
    (go_streamBlocks Sample.unmarshal Sample.gapped_body Sample.go_range)
  = [830000000%Z]
  /\ map (@BlockNumber _)
       (go_streamBlocks Sample.unmarshal Sample.dense_body Sample.go_range)
     = [830000000; 830000002]%Z.
Proof. split; reflexivity. Qed.

(** The scanner cuts at LF only, drops a CR in front of it, delivers a
    last line without LF, and stops for good at a line that does not
    fit its buffer. *)
Example scan_lines_examples :
  scan_lines 8 [] (lit "ab" ++ [13; 10]%N ++ lit "c" ++ [13]%N ++ lit "d"
                   ++ [10; 10]%N ++ lit "e")
  = [lit "ab"; lit "c" ++ [13]%N ++ lit "d"; []; lit "e"]
  /\ scan_lines 4 [] (lit "ab" ++ [10]%N ++ lit "abcd" ++ [10]%N
                      ++ lit "ef" ++ [10]%N)
     = [lit "ab"]
  /\ scan_lines 4 [] (lit "abc" ++ [10]%N ++ lit "ef") = [lit "abc"; lit "ef"]
  /\ scan_lines 4 [] [] = [].
Proof. repeat split. Qed.

Lemma add64_small (a b : Z) :
  (- 2 ^ 63 <= a + b < 2 ^ 63)%Z -> add64 a b = (a + b)%Z.
Proof.
  intro H. unfold add64. rewrite Z.mod_small; lia.
Qed.

Section GoBlocks.
Variable Json : Type.
Variable Unmarshal : gostring -> option Json.

Lemma go_nonblank_before_cons (line : gostring) (lines : list gostring)
    (i : nat) :
  go_nonblank_before (line :: lines) (S i)
  = ((if all_space line then 0 else 1) + go_nonblank_before lines i)%nat.
Proof.
  unfold go_nonblank_before. cbn [firstn filter].
  now destruct (all_space line).
Qed.

(** Every block sent comes from a line that is not blank and parses, and
    carries the start of the range plus the number of non-blank lines
    before that line. *)
Lemma go_streamBlocks_loop_numbering (br : GoBlockRange) :
  forall (lines : list gostring) (n : Z) (b : GoBlock Json),
    (0 <= n)%Z -> (n + Z.of_nat (List.length lines) < 2 ^ 63)%Z ->
    In b (go_streamBlocks_loop Unmarshal br n lines) ->
    exists i line,
      nth_error lines i = Some line
      /\ all_space line = false
      /\ Unmarshal line = Some (Data b)
      /\ BlockNumber b
         = add64 (StartBlock br)
             (n + Z.of_nat (go_nonblank_before lines i)).
Proof.
  induction lines as [|line rest IH]; intros n b N L H; [destruct H|].
  cbn [List.length] in L. cbn [go_streamBlocks_loop] in H.
  assert (K : forall k,
             (0 <= k)%Z -> (k + Z.of_nat (List.length rest) < 2 ^ 63)%Z ->
             k = (n + Z.of_nat (if all_space line then 0 else 1))%Z ->
             In b (go_streamBlocks_loop Unmarshal br k rest) ->
             exists i l,
               nth_error (line :: rest) i = Some l
               /\ all_space l = false
               /\ Unmarshal l = Some (Data b)
               /\ BlockNumber b
                  = add64 (StartBlock br)
                      (n + Z.of_nat (go_nonblank_before (line :: rest) i))).
  { intros k K0 K1 -> Hb.
    destruct (IH _ b K0 K1 Hb) as (i & l & E1 & E2 & E3 & E4).
    exists (S i), l. repeat split; try assumption.
    rewrite go_nonblank_before_cons, E4. f_equal. lia. }
  assert (P : (0 < 2 ^ 63)%Z) by reflexivity.
  destruct (all_space line) eqn:A.
  - apply (K n); cbn [Z.of_nat]; try lia. exact H.
  - rewrite (add64_small n 1) in H by lia.
    destruct (Unmarshal line) as [d|] eqn:U.
    + destruct H as [<-|H];
        [|apply (K (n + 1)%Z); cbn [Z.of_nat Pos.of_succ_nat]; try lia;
          exact H].
      exists 0%nat, line. cbn [nth_error Data BlockNumber].
      repeat split; try assumption. f_equal.
      unfold go_nonblank_before. cbn [firstn filter List.length Z.of_nat].
      lia.
    + apply (K (n + 1)%Z); cbn [Z.of_nat Pos.of_succ_nat]; try lia.
      exact H.
Qed.

Lemma go_streamBlocks_numbering
    (s3_body : gostring -> option gostring) (br : GoBlockRange)
    (b : GoBlock Json) (body : gostring) :
  s3_body (S3Key br) = Some body ->
  let lines := scan_lines maxTokenSize [] body in
  (Z.of_nat (List.length lines) < 2 ^ 63)%Z ->
  In b (go_streamBlocks Unmarshal s3_body br) ->
  exists i line,
    nth_error lines i = Some line
    /\ all_space line = false
    /\ Unmarshal line = Some (Data b)
    /\ BlockNumber b
       = add64 (StartBlock br) (Z.of_nat (go_nonblank_before lines i)).
Proof.
  intros E lines L H. unfold go_streamBlocks in H. rewrite E in H.
  apply go_streamBlocks_loop_numbering in H; [exact H|lia|exact L].
Qed.

End GoBlocks.

Section GoFind.
Variable go_s3_list : gostring -> option (list gostring * list gostring).

Lemma ParseBlockRange_file_key (cp d f : gostring) (br : GoBlockRange) :
  ParseBlockRange (file_key cp d f) = Some br ->
  split slash (file_key cp d f) = [BLOCKS_PREFIX; cp; d; f]
  /\ Checkpoint br = cp /\ Date br = d
  /\ S3Key br = file_key cp d f
  /\ exists start end_,
       split dash f = [start; end_]
       /\ ParseInt start = Some (StartBlock br)
       /\ ParseInt end_ = Some (EndBlock br).
Proof.
  unfold ParseBlockRange. rewrite split_file_key.
  destruct (Nat.eqb_spec
              (List.length ([BLOCKS_PREFIX] ++ split slash cp
                            ++ split slash d ++ split slash f)) 4)
    as [L|_]; [|intro Q; discriminate Q].
  rewrite !length_app in L. cbn [List.length] in L.
  pose proof (split_length slash cp).
  pose proof (split_length slash d).
  pose proof (split_length slash f).
  rewrite (@split_single slash cp), (@split_single slash d),
    (@split_single slash f) by lia.
  cbn [app nth negb orb].
  replace (eqb BLOCKS_PREFIX BLOCKS_PREFIX) with true by reflexivity.
  cbn [negb].
  destruct (split dash f) as [|start [|end_ [|x more]]];
    cbn [List.length Nat.eqb negb nth]; try (intro Q; discriminate Q).
  destruct (ParseInt start) as [s|] eqn:Ps; [|intro Q; discriminate Q].
  destruct (ParseInt end_) as [e|] eqn:Pe; [|intro Q; discriminate Q].
  intro Q. injection Q as <-.
  cbn [Checkpoint Date S3Key StartBlock EndBlock].
  repeat split. now exists start, end_.
Qed.

Lemma go_scan_files_sound (t : Z) (cp d : gostring)
    (files : list gostring) (br : GoBlockRange) :
  go_scan_files t cp d files = Some br ->
  exists f, In f files
            /\ ParseBlockRange (file_key cp d f) = Some br
            /\ (StartBlock br <= t <= EndBlock br)%Z.
Proof.
  induction files as [|f files IH]; cbn [go_scan_files]; [discriminate|].
  destruct (ParseBlockRange (file_key cp d f)) as [b|] eqn:P.
  - destruct ((StartBlock b <=? t)%Z && (t <=? EndBlock b)%Z) eqn:C.
    + intro Q. injection Q as <-. exists f.
      apply andb_prop in C as [C1 C2]. apply Z.leb_le in C1, C2.
      repeat split; try assumption. now left.
    + intro Q. destruct (IH Q) as (f' & I & R). exists f'.
      split; [now right|exact R].
  - intro Q. destruct (IH Q) as (f' & I & R). exists f'.
    split; [now right|exact R].
Qed.

Lemma go_scan_dates_sound (t : Z) (cp : gostring)
    (dates : list gostring) (br : GoBlockRange) :
  go_scan_dates go_s3_list t cp dates = Some br ->
  exists d files f,
    In d dates
    /\ go_listS3 go_s3_list (BLOCKS_PREFIX ++ [slash] ++ cp ++ [slash]
                             ++ d ++ [slash]) = Some files
    /\ In f files
    /\ ParseBlockRange (file_key cp d f) = Some br
    /\ (StartBlock br <= t <= EndBlock br)%Z.
Proof.
  induction dates as [|d dates IH]; cbn [go_scan_dates]; [discriminate|].
  destruct (go_listS3 go_s3_list _) as [files|] eqn:E.
  - destruct (go_scan_files t cp d files) as [b|] eqn:F.
    + intro Q. injection Q as <-.
      apply go_scan_files_sound in F as (f & I & R).
      exists d, files, f. split; [now left|]. split; [exact E|].
      split; [exact I|exact R].
    + intro Q. destruct (IH Q) as (d' & fs & f & I & R).
      exists d', fs, f. split; [now right|exact R].
  - intro Q. destruct (IH Q) as (d' & fs & f & I & R).
    exists d', fs, f. split; [now right|exact R].
Qed.

(** The Go [findBlockFile] answers as C9 says: a range it finds lies
    under the last, greatest, checkpoint of the sorted listing, its key
    has the four segments it was built from, its file name is two
    decimal integers joined by a dash, and the target lies between
    them. *)
Lemma go_findBlockFile_sound (targetBlock : Z) (br : GoBlockRange) :
  go_findBlockFile go_s3_list targetBlock = Found br ->
  exists checkpoints d f start end_,
    go_listS3 go_s3_list (BLOCKS_PREFIX ++ [slash]) = Some checkpoints
    /\ In (Checkpoint br) checkpoints
    /\ Checkpoint br = last checkpoints []
    /\ (forall c, In c checkpoints -> leb c (Checkpoint br) = true)
    /\ split slash (S3Key br) = [BLOCKS_PREFIX; Checkpoint br; d; f]
    /\ Date br = d
    /\ split dash f = [start; end_]
    /\ ParseInt start = Some (StartBlock br)
    /\ ParseInt end_ = Some (EndBlock br)
    /\ (StartBlock br <= targetBlock <= EndBlock br)%Z.
Proof.
  unfold go_findBlockFile.
  destruct (go_listS3 go_s3_list (BLOCKS_PREFIX ++ [slash]))
    as [[|c0 cs]|] eqn:E; try discriminate.
  set (latest := last (c0 :: cs) []).
  destruct (go_listS3 go_s3_list (BLOCKS_PREFIX ++ [slash] ++ latest
                                  ++ [slash])) as [dates|];
    [|discriminate].
  destruct (go_scan_dates go_s3_list targetBlock latest dates)
    as [b|] eqn:S; [|discriminate].
  intro Q. injection Q as ->.
  apply go_scan_dates_sound in S as (d & files & f & Id & El & If & P & B).
  apply ParseBlockRange_file_key in P
    as (K & Hc & Hd & Hk & start & end_ & F & Ps & Pe).
  exists (c0 :: cs), d, f, start, end_.
  assert (SS : StronglySorted (fun a b => leb a b = true) (c0 :: cs)).
  { unfold go_listS3 in E. destruct (go_s3_list _) as [[ps ks]|];
      [|discriminate E]. injection E as E. rewrite <- E. apply sort_sorted. }
  rewrite Hc, Hk. repeat split; try assumption; try lia.
  - apply last_in. discriminate.
  - now apply sorted_last_greatest.
Qed.

End GoFind.

End BackfillFacts.


(* ================================================================== *)
(** * Further properties of decompression *)
(* ================================================================== *)

Module PayloadMore.
Import Js Payload PayloadFacts.

Section Facts.
Variable zstd_decompress : bytes -> option bytes.
Variable utf8 : bytes -> jsstring.

Local Abbreviation decompress := (decompress zstd_decompress utf8).
Local Abbreviation go_decompress := (go_decompress zstd_decompress).

(** X1.  Decompressing twice is decompressing once: what [decompress]
    returns is a string, a short Buffer or a value that is no Buffer,
    and each of these is returned as it is. *)
Theorem decompress_idempotent (v r : JsValue) :
  decompress v = Fulfilled r -> decompress r = Fulfilled r.
Proof.
  destruct v as [| |x|s|b]; cbn [Payload.decompress];
    try (intro H; injection H as <-; reflexivity).
  destruct (Nat.ltb_spec (List.length b) 4) as [L|L].
  - intro H. injection H as <-. cbn [Payload.decompress].
    apply Nat.ltb_lt in L. now rewrite L.
  - destruct (byte_at b 0 x28 && byte_at b 1 xb5 && byte_at b 2 x2f
              && byte_at b 3 xfd).
    + destruct (zstd_decompress b); intro H; [|discriminate H].
      injection H as <-. reflexivity.
    + intro H. injection H as <-. reflexivity.
Qed.

(** X2.  The JavaScript and the Go clients read the same text off a
    payload on which their codecs agree.  The two codecs are different
    libraries (@mongodb-js/zstd and klauspost/compress), so their
    agreement is a hypothesis, and it is needed only for a payload that
    starts with the magic number.  Then one client fails exactly when
    the other does, and otherwise the text JavaScript hands to
    [JSON.parse] is the UTF-8 reading of the string Go returns, also
    for a payload under four bytes, which JavaScript returns as a
    Buffer. *)
Theorem decompress_js_go_agree
    (go_zstd_decompress : bytes -> option bytes) (b : bytes) :
  (magic_prefixed b -> zstd_decompress b = go_zstd_decompress b) ->
  match decompress (VBuffer b),
        Payload.go_decompress go_zstd_decompress b with
  | Fulfilled r, GoOk s => ToString utf8 r = utf8 s
  | Rejected, GoErr => True
  | _, _ => False
  end.
Proof.
  intro A.
  destruct (magic_test_iff b) as [M1 M2].
  destruct (byte_at b 0 x28 && byte_at b 1 xb5 && byte_at b 2 x2f
            && byte_at b 3 xfd) eqn:E.
  - pose proof (M1 eq_refl) as M.
    rewrite (decompress_magic zstd_decompress utf8 M),
      (go_decompress_magic go_zstd_decompress M), <- (A M).
    now destruct (zstd_decompress b).
  - assert (N : ~ magic_prefixed b) by (intro M; discriminate (M2 M)).
    rewrite (decompress_plain zstd_decompress utf8 N),
      (go_decompress_plain go_zstd_decompress N).
    now destruct (List.length b <? 4)%nat.
Qed.

(** X3.  The two Go versions of [decompress], the one of main.go with
    its early return for short input and the one of filter_example.go,
    return the same on every input. *)
Theorem go_decompress_variants_agree (b : bytes) :
  GoStream.decompress zstd_decompress b = go_decompress b.
Proof.
  unfold GoStream.decompress, Payload.go_decompress.
  destruct (Nat.ltb_spec (List.length b) 4) as [L|L].
  - destruct (Nat.leb_spec 4 (List.length b)) as [L'|_]; [lia|].
    reflexivity.
  - destruct (Nat.leb_spec 4 (List.length b)) as [_|L']; [|lia].
    reflexivity.
Qed.

End Facts.

Lemma decompress_js_go_agree_witness :
  ToString Sample.utf8
    (VString (Sample.utf8 [x7b; x7d]))
  = Sample.utf8 [x7b; x7d]
  /\ decompress Sample.zstd Sample.utf8
       (VBuffer [x28; xb5; x2f; xfd; x7b; x7d])
     = Fulfilled (VString (Sample.utf8 [x7b; x7d])).
Proof.
  pose proof (@decompress_js_go_agree Sample.zstd Sample.utf8 Sample.zstd
                [x28; xb5; x2f; xfd; x7b; x7d] (fun _ => eq_refl)) as H.
  split; [exact H|reflexivity].
Defined.

Lemma decompress_idempotent_witness :
  decompress Sample.zstd Sample.utf8 (VString [123; 125]%N)
  = Fulfilled (VString [123; 125]%N).
Proof.
  apply (decompress_idempotent Sample.zstd Sample.utf8
           (VBuffer [x28; xb5; x2f; xfd; x7b; x7d])).
  reflexivity.
Defined.

End PayloadMore.

(* ================================================================== *)
(** * Properties of the Go stream client *)
(* ================================================================== *)

Module GoStreamFacts.
Import Js Payload Numeral GoStream JsFacts.

Lemma eqb_eq (a b : jsstring) : eqb a b = true <-> a = b.
Proof.
  revert b. induction a as [|x a IH]; intros [|y b]; cbn [eqb];
    try (split; [discriminate|discriminate]); [tauto|].
  rewrite andb_true_iff, N.eqb_eq, IH. split.
  - now intros [-> ->].
  - intro H. now injection H.
Qed.

Lemma eqb_refl (a : jsstring) : eqb a a = true.
Proof. now apply eqb_eq. Qed.

Lemma map_get_set (k k' : jsstring) (v : list jsstring) (m : GoMap) :
  map_get k (map_set k' v m)
  = if eqb k' k then Some v else map_get k m.
Proof.
  induction m as [|[k0 v0] m IH]; cbn [map_set map_get].
  - reflexivity.
  - destruct (eqb k0 k') eqn:E0; cbn [map_get].
    + apply eqb_eq in E0. subst k0. now destruct (eqb k' k).
    + destruct (eqb k0 k) eqn:E1; [|exact IH].
      destruct (eqb k' k) eqn:E2; [|reflexivity].
      apply eqb_eq in E1, E2. subst. now rewrite eqb_refl in E0.
Qed.

Lemma split_free (c : N) (s : jsstring) :
  free_of c s = true -> split c s = [s].
Proof.
  induction s as [|x s IH]; cbn [free_of forallb split]; [reflexivity|].
  intro H. apply andb_prop in H as [H1 H2].
  apply negb_true_iff in H1. rewrite H1. unfold free_of in IH.
  now rewrite (IH H2).
Qed.

(** Splitting undoes joining when no part holds the separator. *)
Lemma split_join (c : N) (parts : list jsstring) :
  parts <> [] -> forallb (free_of c) parts = true ->
  split c (join c parts) = parts.
Proof.
  induction parts as [|p parts IH]; [easy|]. intros _ H.
  cbn [forallb] in H. apply andb_prop in H as [H1 H2].
  destruct parts as [|q parts].
  - cbn [join]. now apply split_free.
  - change (join c (p :: q :: parts)) with (p ++ c :: join c (q :: parts)).
    rewrite split_app, (split_free _ _ H1), IH by (discriminate || exact H2).
    reflexivity.
Qed.

Lemma SplitN2_entry (c : N) (field vals : jsstring) :
  free_of c field = true ->
  SplitN2 c (field ++ c :: vals) = [field; vals].
Proof.
  induction field as [|x field IH]; cbn [free_of forallb app SplitN2].
  - now rewrite N.eqb_refl.
  - intro H. apply andb_prop in H as [H1 H2].
    apply negb_true_iff in H1. rewrite H1. unfold free_of in IH.
    now rewrite (IH H2).
Qed.

Section Facts.
Variable zstd_decompress : bytes -> option bytes.
Variable Json : Type.
Variable Unmarshal : bytes -> option Json.

Local Abbreviation receive := (receive zstd_decompress Unmarshal).
Local Abbreviation on_update := (on_update zstd_decompress Unmarshal).

Lemma receive_app (rs : list Response) (rest : list Recv) :
  receive (map Got rs ++ rest)
  = (flat_map on_update rs ++ fst (receive rest), snd (receive rest)).
Proof.
  induction rs as [|r rs IH]; cbn [map app GoStream.receive flat_map].
  - now destruct (receive rest).
  - rewrite IH. cbn [fst snd]. now rewrite app_assoc.
Qed.

(** X4.  The Go receive loop handles every update that arrives before
    the stream ends or fails, and nothing that is scripted after: it
    returns nil at EOF and the error otherwise.  A data message gives
    exactly one line, also when its frame does not decompress, so a bad
    frame does not stop the stream. *)
Theorem go_receive_until_end (rs : list Response) (after : list Recv)
    (msg : jsstring) :
  receive (map Got rs ++ GotEOF :: after)
  = (flat_map on_update rs ++ [LogStreamEnded Json], ReturnNil)
  /\ receive (map Got rs ++ GotError msg :: after)
     = (flat_map on_update rs, ReceiveError msg)
  /\ receive (map Got rs) = (flat_map on_update rs, InRecv)
  /\ Forall (fun r => match r with
                      | RData _ => List.length (on_update r) = 1%nat
                      | RPong _ => List.length (on_update r) = 1%nat
                      | RNone => on_update r = []
                      end) rs.
Proof.
  repeat split.
  - now rewrite receive_app.
  - rewrite receive_app. cbn [GoStream.receive fst snd].
    now rewrite app_nil_r.
  - rewrite <- (app_nil_r (map Got rs)), receive_app.
    cbn [GoStream.receive fst snd]. now rewrite app_nil_r.
  - apply Forall_forall. intros [m|ts|] _; try reflexivity.
    cbn [GoStream.on_update].
    destruct (GoStream.decompress zstd_decompress (data m)); [|reflexivity].
    now destruct (Unmarshal s).
Qed.

End Facts.

Lemma fold_add_filter (k : jsstring)
    (entries : list (jsstring * jsstring)) :
  forall (acc : option jsstring) (m : GoMap),
    forallb (fun e => free_of equals (fst e)) entries = true ->
    map_get k m = option_map (split comma) acc ->
    map_get k
      (fold_left add_filter
         (map (fun '(field, vals) => field ++ equals :: vals) entries) m)
    = option_map (split comma)
        (fold_left (fun acc '(field, vals) =>
                      if eqb field k then Some vals else acc) entries acc).
Proof.
  induction entries as [|[f v] es IH]; intros acc m H I; [exact I|].
  cbn [forallb fst] in H. apply andb_prop in H as [H1 H2].
  cbn [map fold_left]. apply IH; [exact H2|].
  unfold add_filter. rewrite (SplitN2_entry _ _ v H1), map_get_set.
  now destruct (eqb f k).
Qed.

(** X5.  A [-filter] flag written in the documented format,
    [field=val1,val2;field2=val3], is read back entry by entry: for
    every field the filters hold the values of the last entry that
    names it, split at the commas, and nothing for a field no entry
    names.  A field may not hold [=] or [;] and the values may not
    hold [;], but the values may hold [=]. *)
Theorem go_parse_filters_reads_format (k : jsstring)
    (entries : list (jsstring * jsstring)) :
  forallb (fun e => free_of equals (fst e) && free_of semicolon (fst e)
                    && free_of semicolon (snd e)) entries = true ->
  map_get k (parse_filters (format_filters entries))
  = option_map (split comma) (last_entry k entries).
Proof.
  intro H. unfold parse_filters, format_filters, last_entry.
  destruct entries as [|e es]; [reflexivity|].
  set (parts := map (fun '(field, vals) => field ++ equals :: vals) (e :: es)).
  assert (T : truthy (join semicolon parts) = true).
  { subst parts. destruct e as [f v]. cbn [map join].
    destruct es as [|e' es]; [|cbn [map]]; now destruct f. }
  rewrite T, split_join.
  - apply fold_add_filter; [|reflexivity].
    apply forallb_forall. intros x Hx.
    rewrite forallb_forall in H. specialize (H x Hx).
    apply andb_prop in H as [H _]. now apply andb_prop in H as [H _].
  - subst parts. discriminate.
  - subst parts. apply forallb_forall. intros p Hp.
    apply in_map_iff in Hp as ([f v] & <- & Hx).
    rewrite forallb_forall in H. specialize (H _ Hx). cbn [fst snd] in H.
    apply andb_prop in H as [H Hv]. apply andb_prop in H as [_ Hf].
    unfold free_of in *. rewrite forallb_app. cbn [forallb].
    now rewrite Hf, Hv.
Qed.

Lemma go_parse_filters_reads_format_witness :
  map_get (lit "coin")
    (parse_filters (lit "coin=ETH;user=0xab;coin=BTC,SOL"))
  = Some [lit "BTC"; lit "SOL"].
Proof.
  apply (go_parse_filters_reads_format (lit "coin")
           [(lit "coin", lit "ETH"); (lit "user", lit "0xab");
            (lit "coin", lit "BTC,SOL")]).
  reflexivity.
Defined.

End GoStreamFacts.

(* ================================================================== *)
(** * Properties of decimal numerals *)
(* ================================================================== *)

Module NumeralFacts.
Import Js Numeral JsFacts.

Example decimal_examples :
  decimal 0 = lit "0" /\ decimal 7 = lit "7" /\ decimal 10 = lit "10"
  /\ decimal 830000000 = lit "830000000"
  /\ decimal 9223372036854775807 = lit "9223372036854775807".
Proof. repeat split. Qed.

Lemma horner_app (ds es : jsstring) (a : Z) :
  horner a (ds ++ es) = horner (horner a ds) es.
Proof. unfold horner. apply fold_left_app. Qed.

(** The numeral is put in front of the accumulator; it is a non-empty
    string of digits that denotes [n]. *)
Lemma decimal_aux_spec (fuel : nat) : forall (n : N) (acc : jsstring),
  (n < 2 ^ N.of_nat fuel)%N -> fuel <> 0%nat ->
  exists ds,
    decimal_aux fuel n acc = ds ++ acc
    /\ forallb is_digit ds = true
    /\ ds <> []
    /\ forall a, horner a ds
                 = (a * 10 ^ Z.of_nat (List.length ds) + Z.of_N n)%Z.
Proof.
  induction fuel as [|fuel IH]; intros n acc H F; [easy|].
  cbn [decimal_aux].
  assert (M : (n mod 10 < 10)%N) by (apply N.mod_lt; discriminate).
  pose proof (N.div_mod n 10) as DM.
  rewrite Nnat.Nat2N.inj_succ, N.pow_succ_r' in H.
  assert (IH' := IH (n / 10)%N ((48 + n mod 10)%N :: acc)).
  set (q := (n / 10)%N) in *. set (r := (n mod 10)%N) in *.
  clearbody q r. clear IH. specialize (DM ltac:(discriminate)).
  assert (D0 : is_digit (48 + r) = true).
  { unfold is_digit. apply andb_true_intro. split; apply N.leb_le; lia. }
  destruct (N.ltb_spec n 10) as [L|L].
  - exists [(48 + r)%N]. repeat split.
    + cbn [forallb]. now rewrite D0.
    + discriminate.
    + intro a. cbn [horner fold_left List.length].
      change (Z.of_nat 1) with 1%Z. lia.
  - destruct IH' as (ds & E & D & NE & V); [lia| |].
    { intros ->. cbn in H. lia. }
    exists (ds ++ [(48 + r)%N]). repeat split.
    + rewrite E, <- app_assoc. reflexivity.
    + rewrite forallb_app, D. cbn [forallb andb]. now rewrite D0.
    + intro Q. now apply app_eq_nil in Q as [_ Q].
    + intro a. rewrite horner_app, V, length_app.
      cbn [List.length horner fold_left].
      rewrite Nat.add_1_r, Nat2Z.inj_succ, Z.pow_succ_r by lia. lia.
Qed.

Lemma decimal_spec (n : N) :
  forallb is_digit (decimal n) = true
  /\ decimal n <> []
  /\ horner 0 (decimal n) = Z.of_N n.
Proof.
  unfold decimal.
  destruct (@decimal_aux_spec (S (N.to_nat (N.size n))) n [])
    as (ds & E & D & NE & V).
  - rewrite Nnat.Nat2N.inj_succ, Nnat.N2Nat.id, N.pow_succ_r'.
    pose proof (N.size_gt n). lia.
  - discriminate.
  - rewrite E, app_nil_r. repeat split; try assumption.
    rewrite V. lia.
Qed.

End NumeralFacts.

(* ================================================================== *)
(** * Further properties of the backfill script *)
(* ================================================================== *)

Module BackfillMore.
Import Js Numeral Backfill JsFacts NumeralFacts.

Lemma is_digit_cases (c : N) :
  is_digit c = true ->
  (c = 48 \/ c = 49 \/ c = 50 \/ c = 51 \/ c = 52 \/ c = 53 \/ c = 54
   \/ c = 55 \/ c = 56 \/ c = 57)%N.
Proof.
  unfold is_digit. intro H. apply andb_prop in H as [H1 H2].
  apply N.leb_le in H1, H2. lia.
Qed.

Lemma digit_facts (c : N) :
  is_digit c = true ->
  digit_of c = Some (Z.of_N c - 48)%Z
  /\ is_white_space c = false
  /\ N.eqb c slash = false /\ N.eqb c dash = false
  /\ N.eqb c 43 = false.
Proof.
  intro H. apply is_digit_cases in H.
  repeat (destruct H as [->|H]; [repeat split|]); subst; repeat split.
Qed.

Lemma digits_free (c : N) (ds : jsstring) :
  forallb is_digit ds = true -> is_digit c = false ->
  forallb (fun x => negb (N.eqb x c)) ds = true.
Proof.
  intros H C. apply forallb_forall. intros x Hx.
  rewrite forallb_forall in H. specialize (H x Hx).
  destruct (N.eqb_spec x c) as [->|]; [congruence|reflexivity].
Qed.

Lemma digits_horner (ds : jsstring) : forall a : Z,
  forallb is_digit ds = true ->
  digits (Some a) ds = Some (horner a ds).
Proof.
  induction ds as [|c ds IH]; intros a H; [reflexivity|].
  cbn [forallb] in H. apply andb_prop in H as [H1 H2].
  cbn [digits]. destruct (digit_facts _ H1) as (-> & _).
  rewrite IH by exact H2. reflexivity.
Qed.

Lemma all_digits_horner (ds : jsstring) : forall a : Z,
  forallb is_digit ds = true ->
  all_digits a ds = Some (horner a ds).
Proof.
  induction ds as [|c ds IH]; intros a H; [reflexivity|].
  cbn [forallb] in H. apply andb_prop in H as [H1 H2].
  cbn [all_digits]. destruct (digit_facts _ H1) as (-> & _).
  rewrite IH by exact H2. reflexivity.
Qed.

(** [parseInt] reads a numeral back, as the double nearest to it. *)
Lemma parseInt_decimal (n : N) :
  parseInt (decimal n) = to_number (Z.of_N n).
Proof.
  destruct (decimal_spec n) as (D & NE & V).
  destruct (decimal n) as [|c ds]; [easy|].
  cbn [forallb] in D. apply andb_prop in D as [D1 D2].
  destruct (digit_facts _ D1) as (Dg & W & _ & Dd & Dp).
  unfold parseInt. cbv zeta. cbn [skip_white]. rewrite W.
  pose proof (is_digit_cases _ D1) as Cs.
  repeat (destruct Cs as [Cs|Cs]); subst c;
    (cbn [digits]; rewrite Dg, digits_horner by exact D2;
     cbv beta iota; f_equal; exact V).
Qed.

(** So does [strconv.ParseInt], for a number that fits [int64]. *)
Lemma ParseInt_decimal (n : N) :
  (n < 2 ^ 63)%N -> ParseInt (decimal n) = Some (Z.of_N n).
Proof.
  intro B. destruct (decimal_spec n) as (D & NE & V).
  assert (R : ((- 2 ^ 63 <=? Z.of_N n) && (Z.of_N n <? 2 ^ 63))%Z = true).
  { apply andb_true_intro. split; [apply Z.leb_le|apply Z.ltb_lt].
    - assert (0 < 2 ^ 63)%Z by reflexivity. lia.
    - change (2 ^ 63)%Z with (Z.of_N (2 ^ 63)). lia. }
  pose proof (all_digits_horner (decimal n) 0 D) as A. rewrite V in A.
  destruct (decimal n) as [|c ds]; [easy|].
  cbn [forallb] in D. apply andb_prop in D as [D1 _].
  pose proof (is_digit_cases _ D1) as Cs. unfold ParseInt.
  repeat (destruct Cs as [Cs|Cs]); subst c; cbv zeta; rewrite A;
    cbv beta iota; rewrite R; reflexivity.
Qed.

Lemma split_decimal (c : N) (n : N) :
  is_digit c = false -> split c (decimal n) = [decimal n].
Proof.
  intro C. apply GoStreamFacts.split_free.
  apply digits_free; [apply decimal_spec|exact C].
Qed.

(** X6.  A key in the documented layout,
    [replica_cmds/{checkpoint}/{date}/{start}-{end}] with the two
    numbers in decimal, parses to its parts: [parseBlockRange] returns
    the checkpoint, the date and, as doubles, the two numbers, which
    are exact up to 2^53; the Go [ParseBlockRange] returns the same
    when the numbers fit [int64]. *)
Theorem parseBlockRange_reads_documented_key (cp d : jsstring) (s e : N) :
  free_of slash cp = true -> free_of slash d = true ->
  let key := file_key cp d (decimal s ++ dash :: decimal e) in
  parseBlockRange key
  = Some {| checkpoint := cp; date := d;
            startBlock := to_number (Z.of_N s);
            endBlock := to_number (Z.of_N e);
            s3Key := key |}
  /\ ((s <= 2 ^ 53)%N -> (e <= 2 ^ 53)%N ->
      parseBlockRange key
      = Some {| checkpoint := cp; date := d;
                startBlock := Finite (Z.of_N s);
                endBlock := Finite (Z.of_N e);
                s3Key := key |})
  /\ ((s < 2 ^ 63)%N -> (e < 2 ^ 63)%N ->
      ParseBlockRange key
      = Some {| Checkpoint := cp; Date := d;
                StartBlock := Z.of_N s; EndBlock := Z.of_N e;
                S3Key := key |}).
Proof.
  intros Hc Hd key.
  assert (F : split dash (decimal s ++ dash :: decimal e)
              = [decimal s; decimal e]).
  { rewrite split_app, !split_decimal by reflexivity. reflexivity. }
  assert (P : split slash key
              = [BLOCKS_PREFIX; cp; d; decimal s ++ dash :: decimal e]).
  { subst key. rewrite BackfillFacts.split_file_key.
    rewrite (GoStreamFacts.split_free _ _ Hc),
      (GoStreamFacts.split_free _ _ Hd).
    rewrite GoStreamFacts.split_free; [reflexivity|].
    unfold free_of. rewrite forallb_app. cbn [forallb].
    rewrite !digits_free by (apply decimal_spec || reflexivity).
    reflexivity. }
  destruct (decimal_spec s) as (_ & Ns & _).
  destruct (decimal_spec e) as (_ & Ne & _).
  assert (J : parseBlockRange key
              = Some {| checkpoint := cp; date := d;
                        startBlock := to_number (Z.of_N s);
                        endBlock := to_number (Z.of_N e);
                        s3Key := key |}).
  { unfold parseBlockRange. rewrite P.
    cbn [List.length Nat.eqb negb orb nth].
    replace (eqb BLOCKS_PREFIX BLOCKS_PREFIX) with true by reflexivity.
    cbn [negb]. rewrite F. cbn [nth_error].
    rewrite !parseInt_decimal.
    destruct (decimal s); [easy|]. destruct (decimal e); [easy|].
    reflexivity. }
  split; [exact J|split].
  - intros Bs Be. rewrite J.
    assert (Q : Z.of_N (2 ^ 53) = (2 ^ 53)%Z) by reflexivity.
    rewrite !to_number_exact by lia. reflexivity.
  - intros Bs Be. unfold ParseBlockRange. rewrite P.
    cbn [List.length Nat.eqb negb orb nth].
    replace (eqb BLOCKS_PREFIX BLOCKS_PREFIX) with true by reflexivity.
    cbn [negb]. rewrite F. cbn [List.length Nat.eqb negb nth].
    now rewrite !ParseInt_decimal.
Qed.

Lemma parseBlockRange_reads_documented_key_witness :
  option_map startBlock
    (parseBlockRange
       (lit "replica_cmds/1704067200/20240101/830000000-830010000"))
  = Some (Finite 830000000).
Proof.
  destruct (@parseBlockRange_reads_documented_key
              (lit "1704067200") (lit "20240101") 830000000 830010000
              eq_refl eq_refl) as (_ & H & _).
  change (file_key (lit "1704067200") (lit "20240101")
            (decimal 830000000 ++ dash :: decimal 830010000))
    with (lit "replica_cmds/1704067200/20240101/830000000-830010000") in H.
  rewrite H by (vm_compute; discriminate). reflexivity.
Defined.

Section Find.
Variable s3_list : jsstring -> option ListResponse.
Variable go_s3_list : jsstring -> option (list jsstring * list jsstring).

Local Abbreviation listS3 := (listS3 s3_list).

Lemma scan_files_complete (t : Z) (cp d : jsstring)
    (files : list jsstring) (f : jsstring) (br : BlockRange) :
  In f files -> parseBlockRange (file_key cp d f) = Some br ->
  contains br t = true ->
  exists br', scan_files t cp d files = Some br'
              /\ contains br' t = true.
Proof.
  induction files as [|f0 files IH]; [easy|].
  intros [->|I] P C; cbn [scan_files].
  - rewrite P, C. now exists br.
  - destruct (parseBlockRange (file_key cp d f0)) as [b|];
      [destruct (contains b t) eqn:C0; [now exists b|]|]; now apply IH.
Qed.

Lemma scan_dates_complete (t : Z) (cp : jsstring)
    (dates : list jsstring) (d f : jsstring) (br : BlockRange) :
  In d dates ->
  In f (listS3 (BLOCKS_PREFIX ++ [slash] ++ cp ++ [slash] ++ d ++ [slash])) ->
  parseBlockRange (file_key cp d f) = Some br ->
  contains br t = true ->
  exists br', scan_dates s3_list t cp dates = Some br'
              /\ contains br' t = true.
Proof.
  induction dates as [|d0 dates IH]; [easy|].
  intros [->|I] If P C; cbn [scan_dates].
  - destruct (scan_files_complete _ _ _ _ _ If P C) as (br' & -> & C').
    now exists br'.
  - destruct (scan_files t cp d0 _) as [b|] eqn:S; [|now apply IH].
    apply BackfillFacts.scan_files_sound in S as (f' & _ & _ & C').
    now exists b.
Qed.

(** X7.  [findBlockFile] misses nothing under the checkpoint it
    searches: if a date and a file listed under the last checkpoint
    give a key that parses to a range holding the target, the result is
    a range that holds the target, not null. *)
Theorem findBlockFile_finds_listed_range (targetBlock : Z)
    (d f : jsstring) (br : BlockRange) :
  let checkpoints := listS3 (BLOCKS_PREFIX ++ [slash]) in
  let latest := last checkpoints [] in
  checkpoints <> [] ->
  In d (listS3 (BLOCKS_PREFIX ++ [slash] ++ latest ++ [slash])) ->
  In f (listS3 (BLOCKS_PREFIX ++ [slash] ++ latest ++ [slash]
                ++ d ++ [slash])) ->
  parseBlockRange (file_key latest d f) = Some br ->
  contains br targetBlock = true ->
  exists br', findBlockFile s3_list targetBlock = Some br'
              /\ contains br' targetBlock = true.
Proof.
  cbv zeta. unfold findBlockFile.
  destruct (listS3 (BLOCKS_PREFIX ++ [slash])) as [|c0 cs]; [easy|].
  intros _ Id If P C. eapply scan_dates_complete; eassumption.
Qed.

Lemma remove_first_eq (pat s : jsstring) :
  remove_first pat s
  = if starts_with pat s then skipn (List.length pat) s
    else match s with
         | [] => []
         | x :: s' => x :: remove_first pat s'
         end.
Proof. destruct s; reflexivity. Qed.

Lemma starts_with_app (prefix x : jsstring) :
  starts_with prefix (prefix ++ x) = true.
Proof.
  induction prefix as [|p prefix IH]; [reflexivity|].
  cbn [app starts_with]. now rewrite N.eqb_refl.
Qed.

Lemma remove_first_prefix (prefix x : jsstring) :
  remove_first prefix (prefix ++ x) = x.
Proof.
  rewrite remove_first_eq, starts_with_app, skipn_app, skipn_all,
    Nat.sub_diag.
  reflexivity.
Qed.

Lemma remove_first_trailing (c : N) (n : jsstring) :
  free_of c n = true -> remove_first [c] (n ++ [c]) = n.
Proof.
  induction n as [|x n IH]; cbn [free_of forallb app].
  - intros _. rewrite remove_first_eq. cbn [starts_with].
    now rewrite N.eqb_refl.
  - intro H. apply andb_prop in H as [H1 H2].
    apply negb_true_iff in H1.
    rewrite remove_first_eq. cbn [starts_with].
    rewrite N.eqb_sym, H1. cbn [andb]. f_equal. now apply IH.
Qed.

Lemma TrimPrefix_prefix (prefix x : jsstring) :
  TrimPrefix (prefix ++ x) prefix = x.
Proof.
  unfold TrimPrefix.
  rewrite starts_with_app, skipn_app, skipn_all, Nat.sub_diag.
  reflexivity.
Qed.

Lemma TrimSlash_trailing (n : jsstring) : TrimSlash (n ++ [slash]) = n.
Proof.
  unfold TrimSlash. rewrite rev_app_distr. cbn [rev app].
  now rewrite N.eqb_refl, rev_involutive.
Qed.

(** X8.  For an answer of S3 in its usual form, every common prefix
    being the listed prefix, a child name and a slash and every key the
    listed prefix and a child name, [listS3] returns the child names in
    sorted order, in JavaScript (which removes the first occurrence of
    the prefix and the first slash) and in Go (which trims the prefix
    and a trailing slash) alike. *)
Theorem listS3_returns_sorted_children (prefix : jsstring)
    (dirs files : list jsstring) :
  forallb (fun n => truthy n && free_of slash n) dirs = true ->
  forallb truthy files = true ->
  s3_list prefix
  = Some {| CommonPrefixes :=
              map (fun n => Some (prefix ++ n ++ [slash])) dirs;
            Contents := map (fun n => Some (prefix ++ n)) files |} ->
  go_s3_list prefix
  = Some (map (fun n => prefix ++ n ++ [slash]) dirs,
          map (fun n => prefix ++ n) files) ->
  listS3 prefix = sort (dirs ++ files)
  /\ go_listS3 go_s3_list prefix = Some (listS3 prefix)
  /\ StronglySorted (fun a b => leb a b = true) (listS3 prefix)
  /\ forall n, In n (listS3 prefix) <-> In n dirs \/ In n files.
Proof.
  intros Hd Hf E G.
  assert (J : listS3 prefix = sort (dirs ++ files)).
  { unfold Backfill.listS3. rewrite E. cbn [CommonPrefixes Contents].
    f_equal. f_equal.
    - clear E G. induction dirs as [|n dirs IH]; [reflexivity|].
      cbn [forallb] in Hd. apply andb_prop in Hd as [H1 H2].
      apply andb_prop in H1 as [T S].
      cbn [map flat_map]. rewrite (IH H2), remove_first_prefix,
        (remove_first_trailing _ _ S).
      unfold keep_truthy. rewrite T.
      now destruct (prefix ++ n ++ [slash]) eqn:Q;
        [destruct prefix, n; discriminate Q|].
    - clear E G. induction files as [|n files IH]; [reflexivity|].
      cbn [forallb] in Hf. apply andb_prop in Hf as [T H2].
      cbn [map flat_map]. rewrite (IH H2), remove_first_prefix.
      unfold keep_truthy. rewrite T.
      now destruct (prefix ++ n) eqn:Q; [destruct prefix, n; discriminate|]. }
  repeat split.
  - exact J.
  - rewrite J. unfold go_listS3. rewrite G. f_equal. f_equal. f_equal.
    + clear E G J. induction dirs as [|n dirs IH]; [reflexivity|].
      cbn [forallb] in Hd. apply andb_prop in Hd as [H1 H2].
      apply andb_prop in H1 as [T S].
      cbn [map flat_map]. rewrite (IH H2), TrimPrefix_prefix,
        TrimSlash_trailing. unfold keep_truthy. now rewrite T.
    + clear E G J. induction files as [|n files IH]; [reflexivity|].
      cbn [forallb] in Hf. apply andb_prop in Hf as [T H2].
      cbn [map flat_map]. rewrite (IH H2), TrimPrefix_prefix.
      unfold keep_truthy. now rewrite T.
  - rewrite J. apply sort_sorted.
  - rewrite J, sort_in. apply in_app_or.
  - rewrite J, sort_in. apply in_or_app.
Qed.

End Find.

Lemma findBlockFile_finds_listed_range_witness :
  exists br, findBlockFile Sample.bucket 840000005 = Some br
             /\ contains br 840000005 = true.
Proof.
  apply (@findBlockFile_finds_listed_range Sample.bucket 840000005
           (lit "20240201") (lit "840000000-840010000")
           {| checkpoint := lit "1706745600"; date := lit "20240201";
              startBlock := Finite 840000000;
              endBlock := Finite 840010000;
              s3Key := lit "replica_cmds/1706745600/20240201/840000000-840010000" |}).
  - discriminate.
  - vm_compute. now left.
  - vm_compute. now left.
  - reflexivity.
  - reflexivity.
Defined.

Lemma listS3_returns_sorted_children_witness :
  listS3 Sample.bucket (lit "replica_cmds/")
  = [lit "1704067200"; lit "1706745600"].
Proof.
  destruct (@listS3_returns_sorted_children Sample.bucket Sample.go_bucket
              (lit "replica_cmds/")
              [lit "1706745600"; lit "1704067200"] [])
    as [H _]; [reflexivity|reflexivity|reflexivity|reflexivity|].
  rewrite H. reflexivity.
Defined.

Section Blocks.
Variable Json : Type.
Variable JSON_parse : jsstring -> option Json.
Variable Unmarshal : jsstring -> option Json.

Lemma streamBlocks_loop_increasing (br : BlockRange) (start : Z) :
  startBlock br = Finite start -> (0 <= start)%Z ->
  forall (lines : list jsstring) (n : nat),
  (start + Z.of_nat n + Z.of_nat (List.length lines) <= 2 ^ 53)%Z ->
  exists ks : list nat,
    map (@blockNumber Json)
      (streamBlocks_loop JSON_parse br (Z.of_nat n) lines)
    = map (fun k => Finite (start + Z.of_nat k)) ks
    /\ StronglySorted lt ks
    /\ Forall (fun k => (n <= k
                         < n + List.length (filter trim_truthy lines))%nat)
         ks.
Proof.
  intros S P. induction lines as [|line rest IH]; intros n B.
  - exists []. repeat constructor.
  - cbn [List.length] in B. cbn [streamBlocks_loop filter].
    destruct (trim_truthy line); [|apply IH; lia].
    assert (R : round53 (Z.of_nat n + 1) = Z.of_nat (Datatypes.S n))
      by (rewrite round53_exact; lia).
    rewrite R.
    destruct (IH (Datatypes.S n)) as (ks & E & O & F); [lia|].
    cbn [List.length].
    destruct (JSON_parse line) as [d|].
    + exists (n :: ks). cbn [map blockNumber]. rewrite E, S.
      rewrite num_add_exact by lia.
      repeat split.
      * constructor; [exact O|].
        eapply Forall_impl; [|exact F]. cbn. intros k Hk. lia.
      * constructor; [lia|].
        eapply Forall_impl; [|exact F]. cbn. intros k Hk. lia.
    + exists ks. repeat split; try assumption.
      eapply Forall_impl; [|exact F]. cbn. intros k Hk. lia.
Qed.

(** X9.  While the start of the range plus the number of lines stays
    within 2^53, where doubles are exact, the block numbers
    [streamBlocks] yields go strictly up: they are the start of the
    range plus strictly increasing offsets, each below the number of
    non-blank lines of the file.  So no two records share a number and
    there are at most as many records as non-blank lines. *)
Theorem streamBlocks_numbers_increase
    (s3_lines : jsstring -> list jsstring) (br : BlockRange) (start : Z) :
  startBlock br = Finite start -> (0 <= start)%Z ->
  (start + Z.of_nat (List.length (s3_lines (s3Key br))) <= 2 ^ 53)%Z ->
  exists ks : list nat,
    map (@blockNumber Json) (streamBlocks JSON_parse s3_lines br)
    = map (fun k => Finite (start + Z.of_nat k)) ks
    /\ StronglySorted lt ks
    /\ Forall (fun k => (k < List.length
                               (filter trim_truthy (s3_lines (s3Key br))))%nat)
         ks.
Proof.
  intros S P B. unfold streamBlocks.
  destruct (@streamBlocks_loop_increasing br start S P
              (s3_lines (s3Key br)) 0)
    as (ks & E & O & F); [cbn [Z.of_nat]; lia|].
  exists ks. repeat split; try assumption.
  eapply Forall_impl; [|exact F]. cbn. intros k Hk. lia.
Qed.

Lemma all_space_ascii (c : N) (r : jsstring) :
  (c < 128)%N -> all_space (c :: r) = is_white_space c && all_space r.
Proof.
  intro H. rewrite <- (Nnat.N2Nat.id c).
  assert (K : (N.to_nat c < 128)%nat) by lia.
  revert K. generalize (N.to_nat c). intros k K.
  do 128 (destruct k as [|k]; [reflexivity|]). lia.
Qed.

(** On a line of ASCII text the two tests for a blank line agree. *)
Lemma blank_tests_agree (line : jsstring) :
  forallb (fun c => N.ltb c 128) line = true ->
  all_space line = negb (trim_truthy line).
Proof.
  induction line as [|c line IH]; [reflexivity|].
  cbn [forallb]. intro H. apply andb_prop in H as [H1 H2].
  apply N.ltb_lt in H1. rewrite all_space_ascii by exact H1.
  unfold trim_truthy in *. cbn [existsb]. rewrite (IH H2), negb_orb.
  now rewrite negb_involutive.
Qed.

Lemma go_js_loops_agree (br : BlockRange) (gbr : GoBlockRange) :
  startBlock br = Finite (StartBlock gbr) -> (0 <= StartBlock gbr)%Z ->
  forall (lines : list jsstring) (n : nat),
    (StartBlock gbr + Z.of_nat n + Z.of_nat (List.length lines)
     <= 2 ^ 53)%Z ->
    forallb (forallb (fun c => N.ltb c 128)) lines = true ->
    Forall (fun l => JSON_parse l = Unmarshal l) lines ->
    map (fun b => (Finite (BlockNumber b), Data b))
      (go_streamBlocks_loop Unmarshal gbr (Z.of_nat n) lines)
    = map (fun b => (blockNumber b, data b))
        (streamBlocks_loop JSON_parse br (Z.of_nat n) lines).
Proof.
  intros S P. induction lines as [|line rest IH]; intros n B A U;
    [reflexivity|].
  cbn [forallb] in A. apply andb_prop in A as [A1 A2].
  inversion U as [|? ? U1 U2]; subst. cbn [List.length] in B.
  assert (P63 : (2 ^ 53 < 2 ^ 63)%Z) by reflexivity.
  cbn [go_streamBlocks_loop streamBlocks_loop].
  rewrite (blank_tests_agree _ A1), <- U1.
  destruct (trim_truthy line); cbn [negb]; [|apply IH; [lia|easy|easy]].
  rewrite (BackfillFacts.add64_small (Z.of_nat n) 1) by lia.
  rewrite round53_exact by lia.
  replace (Z.of_nat n + 1)%Z with (Z.of_nat (Datatypes.S n)) by lia.
  destruct (JSON_parse line) as [d|]; [|apply IH; [lia|easy|easy]].
  cbn [map BlockNumber Data blockNumber data]. rewrite S.
  rewrite BackfillFacts.add64_small by lia.
  rewrite num_add_exact by lia.
  f_equal. apply IH; [lia|easy|easy].
Qed.

Lemma dropCR_free (l : gostring) :
  forallb (fun c => negb (N.eqb c 13)) l = true -> dropCR l = l.
Proof.
  intro H. unfold dropCR. destruct (rev l) as [|c r] eqn:E; [reflexivity|].
  assert (I : In c l) by (apply in_rev; rewrite E; now left).
  rewrite forallb_forall in H. specialize (H c I).
  now destruct (N.eqb c 13).
Qed.

(** The scanner on a line that holds no LF and is followed by one. *)
Lemma scan_lines_line (max : Z) (l : gostring) :
  forall piece rest,
    forallb (fun c => negb (N.eqb c 10)) l = true ->
    scan_lines max piece (l ++ 10%N :: rest)
    = if (Z.of_nat (List.length (piece ++ l)) + 1 <=? max)%Z
      then dropCR (piece ++ l) :: scan_lines max [] rest
      else [].
Proof.
  induction l as [|c l IH]; intros piece rest H.
  - rewrite app_nil_r. reflexivity.
  - cbn [forallb] in H. apply andb_prop in H as [H1 H2].
    cbn [app scan_lines]. apply negb_true_iff in H1. rewrite H1.
    rewrite IH by exact H2. now rewrite <- app_assoc.
Qed.

(** On lines free of LF and CR, each ended by LF and short enough for
    the buffer, the scanner delivers the lines. *)
Lemma scan_lines_body (max : Z) (lines : list gostring) :
  Forall (fun l =>
            forallb (fun c => negb (N.eqb c 10)) l = true
            /\ forallb (fun c => negb (N.eqb c 13)) l = true
            /\ (Z.of_nat (List.length l) < max)%Z) lines ->
  scan_lines max [] (flat_map (fun l => l ++ [10%N]) lines) = lines.
Proof.
  induction 1 as [|l lines (H1 & H2 & H3) _ IH]; [reflexivity|].
  cbn [flat_map]. rewrite <- app_assoc. cbn [app].
  rewrite scan_lines_line by exact H1. cbn [app].
  destruct (Z.leb_spec (Z.of_nat (List.length l) + 1) max); [|lia].
  now rewrite dropCR_free, IH.
Qed.

(** X10.  Take a body of ASCII lines, each ended by LF, free of CR and
    shorter than the scanner's buffer of 10 MiB, which readline
    delivers as these lines and which the two JSON parsers read alike,
    and let the block numbers stay within 2^53, where doubles are
    exact.  Then the Go [streamBlocks] sends the records the JavaScript
    one yields: same data, same block numbers, same order. *)
Theorem go_streamBlocks_agrees_with_js
    (s3_lines : jsstring -> list jsstring)
    (s3_body : gostring -> option gostring)
    (br : BlockRange) (gbr : GoBlockRange) (lines : list jsstring) :
  S3Key gbr = s3Key br ->
  s3_body (S3Key gbr) = Some (flat_map (fun l => l ++ [10%N]) lines) ->
  s3_lines (s3Key br) = lines ->
  startBlock br = Finite (StartBlock gbr) -> (0 <= StartBlock gbr)%Z ->
  (StartBlock gbr + Z.of_nat (List.length lines) <= 2 ^ 53)%Z ->
  forallb (forallb (fun c => N.ltb c 128 && negb (N.eqb c 10)
                             && negb (N.eqb c 13))) lines = true ->
  Forall (fun l => (Z.of_nat (List.length l) < maxTokenSize)%Z) lines ->
  Forall (fun l => JSON_parse l = Unmarshal l) lines ->
  map (fun b => (Finite (BlockNumber b), Data b))
    (go_streamBlocks Unmarshal s3_body gbr)
  = map (fun b => (blockNumber b, data b))
      (streamBlocks JSON_parse s3_lines br).
Proof.
  intros K Eb El S P B A T U. unfold go_streamBlocks, streamBlocks.
  rewrite Eb, El.
  assert (C : forall (f : N -> bool),
             (forall c, (N.ltb c 128 && negb (N.eqb c 10)
                         && negb (N.eqb c 13)) = true -> f c = true) ->
             Forall (fun l => forallb f l = true) lines).
  { intros f Hf. apply Forall_forall. intros l Hl.
    rewrite forallb_forall in A. specialize (A l Hl).
    apply forallb_forall. intros c Hc.
    rewrite forallb_forall in A. exact (Hf c (A c Hc)). }
  rewrite scan_lines_body.
  - change 0%Z with (Z.of_nat 0).
    apply (@go_js_loops_agree br gbr S P lines 0);
      [cbn [Z.of_nat]; lia| |exact U].
    apply forallb_forall. intros l Hl.
    assert (Q := C (fun c => N.ltb c 128)).
    rewrite Forall_forall in Q. apply Q; [|exact Hl].
    intros c Hc. now destruct (N.ltb c 128).
  - apply Forall_forall. intros l Hl.
    rewrite Forall_forall in T.
    assert (Q1 := C (fun c => negb (N.eqb c 10))).
    assert (Q2 := C (fun c => negb (N.eqb c 13))).
    rewrite Forall_forall in Q1, Q2.
    repeat split.
    + apply Q1; [|exact Hl]. intros c Hc.
      destruct (N.ltb c 128), (N.eqb c 10); easy.
    + apply Q2; [|exact Hl]. intros c Hc.
      destruct (N.ltb c 128), (N.eqb c 10), (N.eqb c 13); easy.
    + exact (T l Hl).
Qed.

End Blocks.

Lemma streamBlocks_numbers_increase_witness :
  exists ks : list nat,
    map (@blockNumber _)
      (streamBlocks Sample.parse Sample.dense_file Sample.range)
    = map (fun k => Finite (830000000 + Z.of_nat k)) ks
    /\ StronglySorted lt ks.
Proof.
  assert (P : (0 <= 830000000)%Z) by lia.
  assert (B : (830000000
               + Z.of_nat (List.length
                             (Sample.dense_file (s3Key Sample.range)))
               <= 2 ^ 53)%Z) by (cbn; lia).
  destruct (@streamBlocks_numbers_increase jsstring Sample.parse
              Sample.dense_file Sample.range 830000000 eq_refl P B)
    as (ks & E & O & _).
  exists ks. split; assumption.
Defined.

Lemma go_streamBlocks_agrees_with_js_witness :
  map (fun b => (Finite (BlockNumber b), Data b))
    (go_streamBlocks Sample.unmarshal Sample.dense_body Sample.go_range)
  = map (fun b => (blockNumber b, data b))
      (streamBlocks Sample.parse Sample.dense_file Sample.range).
Proof.
  apply (@go_streamBlocks_agrees_with_js jsstring Sample.parse
           Sample.unmarshal Sample.dense_file Sample.dense_body
           Sample.range Sample.go_range
           [lit "{}"; lit "oops"; lit "{}"]).
  - reflexivity.
  - reflexivity.
  - reflexivity.
  - reflexivity.
  - cbn. lia.
  - cbn. lia.
  - reflexivity.
  - repeat constructor.
  - repeat constructor.
Defined.

End BackfillMore.

(* ================================================================== *)
(** * Further properties of the Go reconnect loop *)
(* ================================================================== *)

Module OrderbookMore.
Import Js Orderbook OrderbookFacts.

Section Facts.
Variable Update : Type.
Variable sym : jsstring.
Variable nLevels : Z.

Local Abbreviation request := {| coin := sym; n_levels := nLevels |}.

Lemma go_dials_app (a b : list (GoOut Update)) :
  go_dials (a ++ b) = (go_dials a + go_dials b)%nat.
Proof. unfold go_dials. now rewrite filter_app, length_app. Qed.

Lemma go_sleeps_app (a b : list (GoOut Update)) :
  go_sleeps (a ++ b) = go_sleeps a ++ go_sleeps b.
Proof. unfold go_sleeps. apply flat_map_app. Qed.

Lemma go_dials_recv (us : list Update) : forall rc mc,
  go_dials (snd (go_recv rc mc us)) = 0%nat.
Proof.
  induction us as [|u us IH]; intros rc mc; [reflexivity|].
  cbn [go_recv].
  destruct (S mc =? 1)%nat;
    [specialize (IH 0%nat (S mc)); destruct (go_recv 0 (S mc) us) as [[a b] c]
    |specialize (IH rc (S mc)); destruct (go_recv rc (S mc) us) as [[a b] c]];
    cbn [snd] in *; rewrite go_dials_app; exact IH.
Qed.

Lemma go_loop_dials_without_progress (world : list (GoConn Update)) :
  Forall (fun c => match c with
                   | Stream (_ :: _) _ => False
                   | _ => True
                   end) world ->
  forall rc, (go_dials (fst (go_loop request rc world))
              <= maxRetries - rc)%nat.
Proof.
  induction 1 as [|c rest Q _ IH]; intro rc; cbn [go_loop].
  - destruct (rc <? maxRetries)%nat; cbn [fst go_dials filter List.length];
      lia.
  - destruct (Nat.ltb_spec rc maxRetries) as [L|L];
      [|cbn [fst go_dials filter List.length]; lia].
    destruct c as [m|m|[|u us] e]; try easy.
    + cbn [fst go_dials filter List.length]. lia.
    + destruct (0 <? rc)%nat; cbn [fst go_dials filter List.length]; lia.
    + cbn [go_recv app].
      destruct e as [|err|].
      * destruct (0 <? rc)%nat; cbn [fst go_dials filter List.length]; lia.
      * destruct (is_data_loss err).
        -- destruct (Nat.ltb_spec (S rc) maxRetries) as [L'|L'].
           ++ specialize (IH (S rc)).
              destruct (go_loop request (S rc) rest) as [o' ret].
              unfold go_dials in *.
              destruct (0 <? rc)%nat;
                cbn [fst app filter List.length] in *; lia.
           ++ destruct (0 <? rc)%nat;
                cbn [fst go_dials filter List.length]; lia.
        -- destruct (0 <? rc)%nat;
             cbn [fst go_dials filter List.length]; lia.
      * destruct (0 <? rc)%nat; cbn [fst go_dials filter List.length]; lia.
Qed.

(** X11.  Retries are bounded in Go: in a run in which no update is
    ever received, whatever the connections do otherwise, the client
    dials at most [maxRetries] times. *)
Theorem go_dials_bounded_without_progress (world : list (GoConn Update)) :
  Forall (fun c => match c with
                   | Stream (_ :: _) _ => False
                   | _ => True
                   end) world ->
  (go_dials (fst (go_streamL2Orderbook sym nLevels world))
   <= maxRetries)%nat.
Proof.
  intro Q. unfold go_streamL2Orderbook.
  pose proof (go_loop_dials_without_progress Q 0) as H.
  destruct (go_loop request 0 world) as [o ret]. cbn [fst] in *.
  unfold go_dials in *. cbn [filter]. lia.
Qed.

(** X12.  Every wait of the Go client, in any run, is the base delay
    doubled at most eight times: between 2 s and 512 s. *)
Theorem go_sleeps_are_bounded (world : list (GoConn Update)) (rc : nat) :
  Forall (fun d => exists k : nat,
                     (k <= 8)%nat /\ d = (goBaseDelay * 2 ^ Z.of_nat k)%Z)
    (go_sleeps (fst (go_loop request rc world))).
Proof.
  revert rc. induction world as [|c rest IH]; intro rc; cbn [go_loop].
  - destruct (rc <? maxRetries)%nat; constructor.
  - destruct (rc <? maxRetries)%nat; [|constructor].
    destruct c as [m|m|us e]; [constructor| |].
    + destruct (0 <? rc)%nat; constructor.
    + pose proof (go_recv_no_sleep us rc 0) as O.
      destruct (go_recv rc 0 us) as [[rc1 mc1] o]. cbn [snd] in O.
      assert (P : forall t : list (GoOut Update),
                 go_sleeps (([GDial Update;
                              if (0 <? rc)%nat
                              then GLogReconnecting Update (rc + 1) maxRetries
                              else GLogConnecting Update;
                              GStreamL2Book Update request] ++ o) ++ t)
                 = go_sleeps t).
      { intro t. rewrite !go_sleeps_app, O.
        now destruct (0 <? rc)%nat. }
      destruct e as [|err|].
      * cbn [fst]. rewrite P. constructor.
      * destruct (is_data_loss err).
        -- destruct (Nat.ltb_spec (S rc1) maxRetries) as [L|L].
           ++ specialize (IH (S rc1)).
              destruct (go_loop request (S rc1) rest) as [o' ret].
              cbn [fst] in *. rewrite P. cbn [go_sleeps flat_map app].
              constructor; [|exact IH].
              exists rc1. split; [unfold maxRetries in L; lia|].
              do 3 f_equal. lia.
           ++ cbn [fst]. rewrite P. constructor.
        -- cbn [fst]. rewrite P. constructor.
      * cbn [fst]. rewrite <- (app_nil_r (_ ++ o)), P. constructor.
Qed.

(** X13.  Progress resets the Go backoff: after a connection on which
    at least one update arrived, a DATA_LOSS is followed by the base
    delay, whatever the counter had reached, and the loop goes on with
    the counter at 1. *)
Theorem go_update_resets_backoff (rc : nat) (u : Update)
    (us : list Update) (e : RecvError) (rest : list (GoConn Update)) :
  (rc < maxRetries)%nat -> is_data_loss e = true ->
  go_sleeps (fst (go_loop request rc (Stream (u :: us) (Failed e) :: rest)))
  = goBaseDelay :: go_sleeps (fst (go_loop request 1 rest))
  /\ snd (go_loop request rc (Stream (u :: us) (Failed e) :: rest))
     = snd (go_loop request 1 rest).
Proof.
  intros L D.
  destruct (go_data_loss_retries sym nLevels (u :: us) e rest L D)
    as (pre & Z & E); [unfold maxRetries; lia|].
  rewrite E. cbn [fst snd]. split; [|reflexivity].
  rewrite go_sleeps_app, Z. cbn [app go_sleeps flat_map].
  f_equal.
Qed.

End Facts.

Lemma go_dials_bounded_without_progress_witness :
  (go_dials (fst (go_streamL2Orderbook (lit "BTC") 20
                    (repeat (Sample.go_failing Z) 12)))
   <= maxRetries)%nat.
Proof.
  apply go_dials_bounded_without_progress.
  repeat constructor.
Defined.

Lemma go_update_resets_backoff_witness :
  go_sleeps (fst (go_loop {| coin := lit "BTC"; n_levels := 20 |} 7
                    [Stream [5%Z] (Failed (StatusError Sample.data_loss));
                     Stream [] EOF]))
  = [goBaseDelay].
Proof.
  destruct (@go_update_resets_backoff Z (lit "BTC") 20 7 5%Z []
              (StatusError Sample.data_loss) [Stream [] EOF]) as [H _].
  - unfold maxRetries. lia.
  - reflexivity.
  - rewrite H. reflexivity.
Defined.

End OrderbookMore.

(* ================================================================== *)
(** * More on the order-book client: the display and the L4 stream *)
(* ================================================================== *)

Module DisplayFacts.
Import Display.

Section Facts.
Variable Level : Type.

Lemma firstn_snoc (l : list Level) : forall i x,
  nth_error l i = Some x -> firstn (S i) l = firstn i l ++ [x].
Proof.
  induction l as [|a l IH]; intros [|i] x E; try discriminate.
  - now inversion E.
  - cbn [nth_error] in E. change (firstn (S (S i)) (a :: l))
      with (a :: firstn (S i) l).
    now rewrite (IH _ _ E).
Qed.

Lemma skipn_cons (l : list Level) : forall i x,
  nth_error l i = Some x -> skipn i l = x :: skipn (S i) l.
Proof.
  induction l as [|a l IH]; intros [|i] x E; try discriminate.
  - now inversion E.
  - cbn [nth_error] in E. exact (IH _ _ E).
Qed.

Lemma go_count_down_rev (asks : list Level) : forall n,
  (n <= List.length asks)%nat ->
  go_count_down asks n = Some (map (@Row Level) (rev (firstn n asks))).
Proof.
  induction n as [|i IH]; intro L; [reflexivity|].
  cbn [go_count_down].
  destruct (nth_error asks i) as [x|] eqn:E.
  - rewrite IH by lia. rewrite firstn_snoc with (x := x) by exact E.
    rewrite rev_app_distr.
    reflexivity.
  - apply nth_error_None in E. lia.
Qed.

Lemma go_count_up_firstn (bids : list Level) : forall todo i,
  (i + todo <= List.length bids)%nat ->
  go_count_up bids todo i
  = Some (map (@Row Level) (firstn todo (skipn i bids))).
Proof.
  induction todo as [|todo IH]; intros i L; [reflexivity|].
  cbn [go_count_up].
  destruct (nth_error bids i) as [x|] eqn:E.
  - rewrite IH by lia. now rewrite skipn_cons with (i := i) (x := x) by exact E.
  - apply nth_error_None in E. lia.
Qed.

(** X14.  The Go display loops never index a level out of range, and
    they print what the JavaScript [slice]/[reverse] chains print: up
    to ten asks, the best one last, and up to ten bids in order. *)
Theorem go_display_agrees_with_js (asks bids : list Level) :
  go_asks asks = Some (js_asks asks)
  /\ go_bids bids = Some (js_bids bids).
Proof.
  unfold go_asks, js_asks, go_bids, js_bids. split.
  - destruct (0 <? List.length asks)%nat; [|reflexivity].
    destruct (Nat.ltb_spec 10 (List.length asks)) as [L|L].
    + now rewrite go_count_down_rev by lia.
    + rewrite go_count_down_rev by lia.
      now rewrite (firstn_all2 (n := 10)) by lia; rewrite firstn_all.
  - destruct (0 <? List.length bids)%nat; [|reflexivity].
    destruct (Nat.ltb_spec 10 (List.length bids)) as [L|L].
    + now rewrite go_count_up_firstn by lia.
    + rewrite go_count_up_firstn by (cbn; lia). cbn [skipn].
      now rewrite (firstn_all2 (n := 10)) by lia; rewrite firstn_all.
Qed.

End Facts.
End DisplayFacts.

Module GoL4Facts.
Import Js Orderbook GoL4.

Section Facts.
Variables Snapshot Diff : Type.
Variable sym : jsstring.
Variable maxMessages : Z.

Local Abbreviation Conn4 := (GoConn (L4Update Snapshot Diff)).

Lemma l4_on_update_total (v : L4Vars) (u : L4Update Snapshot Diff) :
  l4_totalMsgCount (fst (l4_on_update v u)) = S (l4_totalMsgCount v).
Proof. now destruct u. Qed.

(** The receive loop stops at the limit, and only there. *)
Lemma l4_recv_limit (us : list (L4Update Snapshot Diff)) : forall v,
  (0 < maxMessages)%Z ->
  (Z.of_nat (l4_totalMsgCount v) < maxMessages)%Z ->
  match l4_recv maxMessages v us with
  | (v', _, true) => Z.of_nat (l4_totalMsgCount v') = maxMessages
  | (v', _, false) => (Z.of_nat (l4_totalMsgCount v') < maxMessages)%Z
  end.
Proof.
  induction us as [|u us IH]; intros v P L; cbn [l4_recv]; [exact L|].
  pose proof (l4_on_update_total v u) as T.
  destruct (l4_on_update v u) as [v1 o1]. cbn [fst] in T.
  unfold l4_reached.
  destruct (Z.ltb_spec 0 maxMessages) as [_|N]; [|lia].
  destruct (Z.leb_spec maxMessages (Z.of_nat (l4_totalMsgCount v1)))
    as [R|R]; cbn [andb].
  - lia.
  - specialize (IH v1 P R).
    now destruct (l4_recv maxMessages v1 us) as [[v2 o2] [|]].
Qed.

Lemma l4_loop_limit (world : list Conn4) : forall rc total,
  (0 < maxMessages)%Z ->
  (Z.of_nat total < maxMessages)%Z ->
  match l4_loop sym maxMessages rc total world with
  | (_, ret, total') =>
      (Z.of_nat total' <= maxMessages)%Z
      /\ (Z.of_nat total' = maxMessages -> ret = ReturnNil)
  end.
Proof.
  induction world as [|c rest IH]; intros rc total P L; cbn [l4_loop].
  - destruct (rc <? maxRetries)%nat; split; lia.
  - destruct (rc <? maxRetries)%nat; [|split; lia].
    destruct c as [m|m|us e]; [split; lia|split; lia|].
    pose proof (@l4_recv_limit us
                  {| l4_retryCount := rc; l4_totalMsgCount := total;
                     l4_snapshotReceived := false |} P L) as R.
    destruct (l4_recv maxMessages _ us) as [[v o] [|]].
    + split; [lia|reflexivity].
    + destruct e as [|err|]; [split; lia| |split; lia].
      destruct (is_data_loss err); [|split; lia].
      destruct (S (l4_retryCount v) <? maxRetries)%nat; [|split; lia].
      specialize (IH (S (l4_retryCount v)) (l4_totalMsgCount v) P R).
      now destruct (l4_loop sym maxMessages _ _ rest) as [[o' ret] t].
Qed.

Lemma l4_handled_app (a b : list (L4Out Snapshot Diff)) :
  l4_handled (a ++ b) = (l4_handled a + l4_handled b)%nat.
Proof. unfold l4_handled. now rewrite filter_app, length_app. Qed.

Lemma l4_on_update_handled (v : L4Vars) (u : L4Update Snapshot Diff) :
  (l4_handled (snd (l4_on_update v u)) <= 1)%nat.
Proof.
  destruct u as [s|d|]; cbn [l4_on_update snd];
    [|destruct (l4_snapshotReceived v)|]; cbn; lia.
Qed.

(** Every update whose handling shows in the output has been counted,
    and a receive loop that stops at the limit says so. *)
Lemma l4_recv_handled (us : list (L4Update Snapshot Diff)) : forall v,
  match l4_recv maxMessages v us with
  | (v', o, stop) =>
      (l4_handled o + l4_totalMsgCount v <= l4_totalMsgCount v')%nat
      /\ (stop = true -> In (L4LogReached Snapshot Diff maxMessages) o)
  end.
Proof.
  induction us as [|u us IH]; intro v; cbn [l4_recv].
  - split; [cbn; lia|discriminate].
  - pose proof (l4_on_update_total v u) as T.
    pose proof (l4_on_update_handled v u) as H.
    destruct (l4_on_update v u) as [v1 o1]. cbn [fst snd] in T, H.
    destruct (l4_reached maxMessages (l4_totalMsgCount v1)).
    + split.
      * rewrite l4_handled_app. cbn. lia.
      * intros _. apply in_or_app. right. now left.
    + specialize (IH v1).
      destruct (l4_recv maxMessages v1 us) as [[v2 o2] stop].
      destruct IH as [I1 I2]. split.
      * rewrite l4_handled_app. lia.
      * intro Q. apply in_or_app. right. now apply I2.
Qed.

Lemma l4_handled_opening (rc : nat)
    (o t : list (L4Out Snapshot Diff)) :
  l4_handled (([L4Dial Snapshot Diff;
                if (0 <? rc)%nat
                then L4LogReconnecting Snapshot Diff (rc + 1) maxRetries
                else L4LogConnecting Snapshot Diff;
                L4StreamL4Book Snapshot Diff sym] ++ o) ++ t)
  = (l4_handled o + l4_handled t)%nat.
Proof.
  rewrite !l4_handled_app. now destruct (0 <? rc)%nat.
Qed.

Lemma l4_loop_handled (world : list Conn4) : forall rc total,
  match l4_loop sym maxMessages rc total world with
  | (os, _, total') => (l4_handled os + total <= total')%nat
  end.
Proof.
  induction world as [|c rest IH]; intros rc total; cbn [l4_loop].
  - destruct (rc <? maxRetries)%nat; cbn; lia.
  - destruct (rc <? maxRetries)%nat; [|cbn; lia].
    destruct c as [m|m|us e]; [cbn; lia| |].
    + destruct (0 <? rc)%nat; cbn; lia.
    + pose proof (l4_recv_handled us
                    {| l4_retryCount := rc; l4_totalMsgCount := total;
                       l4_snapshotReceived := false |}) as R.
      destruct (l4_recv maxMessages _ us) as [[v o] stop].
      cbn [l4_totalMsgCount] in R. destruct R as [R _].
      destruct stop.
      { rewrite <- (app_nil_r (_ ++ o)), l4_handled_opening. cbn. lia. }
      destruct e as [|err|].
      * rewrite l4_handled_opening. cbn. lia.
      * destruct (is_data_loss err).
        -- destruct (S (l4_retryCount v) <? maxRetries)%nat.
           ++ specialize (IH (S (l4_retryCount v)) (l4_totalMsgCount v)).
              destruct (l4_loop sym maxMessages _ _ rest) as [[o' ret] t].
              rewrite l4_handled_opening.
              change (l4_handled (?a :: ?b :: ?c :: ?d :: o'))
                with (l4_handled ([a; b; c; d] ++ o')).
              rewrite l4_handled_app. cbn [l4_handled filter List.length].
              unfold l4_handled in *. lia.
           ++ rewrite l4_handled_opening. cbn. lia.
        -- rewrite l4_handled_opening. cbn. lia.
      * rewrite <- (app_nil_r (_ ++ o)), l4_handled_opening. cbn. lia.
Qed.

Lemma l4_loop_reached (world : list Conn4) : forall rc total,
  (0 < maxMessages)%Z ->
  (Z.of_nat total < maxMessages)%Z ->
  match l4_loop sym maxMessages rc total world with
  | (os, _, total') =>
      Z.of_nat total' = maxMessages ->
      In (L4LogReached Snapshot Diff maxMessages) os
  end.
Proof.
  induction world as [|c rest IH]; intros rc total P L; cbn [l4_loop].
  - destruct (rc <? maxRetries)%nat; lia.
  - destruct (rc <? maxRetries)%nat; [|lia].
    destruct c as [m|m|us e]; [lia|lia|].
    pose proof (@l4_recv_limit us
                  {| l4_retryCount := rc; l4_totalMsgCount := total;
                     l4_snapshotReceived := false |} P L) as R.
    pose proof (l4_recv_handled us
                  {| l4_retryCount := rc; l4_totalMsgCount := total;
                     l4_snapshotReceived := false |}) as H.
    destruct (l4_recv maxMessages _ us) as [[v o] [|]].
    + intros _. apply in_or_app. right. now apply H.
    + destruct e as [|err|]; [lia| |lia].
      destruct (is_data_loss err); [|lia].
      destruct (S (l4_retryCount v) <? maxRetries)%nat; [|lia].
      specialize (IH (S (l4_retryCount v)) (l4_totalMsgCount v) P R).
      destruct (l4_loop sym maxMessages _ _ rest) as [[o' ret] t].
      intro Q. apply in_or_app. right. do 4 right. now apply IH.
Qed.

(** X15.  The message limit of the Go L4 stream counts across
    reconnects: with a positive [maxMessages], over the whole run,
    whatever the connections deliver and however often the stream is
    opened again, at most [maxMessages] snapshots and diffs are
    handled; when that many have been, the client has said that it
    reached the limit and has returned nil. *)
Theorem go_l4_stops_at_max_messages (world : list Conn4) :
  (0 < maxMessages)%Z ->
  match go_streamL4Orderbook sym maxMessages world with
  | (os, ret, _) =>
      (Z.of_nat (l4_handled os) <= maxMessages)%Z
      /\ (Z.of_nat (l4_handled os) = maxMessages ->
          ret = ReturnNil
          /\ In (L4LogReached Snapshot Diff maxMessages) os)
  end.
Proof.
  intro P. unfold go_streamL4Orderbook.
  assert (Z0 : (Z.of_nat 0 < maxMessages)%Z) by (cbn; lia).
  pose proof (@l4_loop_limit world 0%nat 0%nat P Z0) as H1.
  pose proof (l4_loop_handled world 0 0) as H2.
  pose proof (@l4_loop_reached world 0%nat 0%nat P Z0) as H3.
  destruct (l4_loop sym maxMessages 0 0 world) as [[o ret] t].
  destruct H1 as [H1 H1'].
  change (l4_handled (L4LogHeader Snapshot Diff sym :: o))
    with (l4_handled o).
  split; [lia|]. intro Q.
  assert (T : Z.of_nat t = maxMessages) by lia.
  split; [now apply H1'|]. right. now apply H3.
Qed.

Lemma l4_recv_without_snapshot (us : list (L4Update Snapshot Diff)) :
  forall v,
  existsb (@is_snapshot Snapshot Diff) us = false ->
  match l4_recv maxMessages v us with
  | (v', o, _) =>
      l4_retryCount v' = l4_retryCount v /\ l4_dials o = 0%nat
  end.
Proof.
  induction us as [|u us IH]; intros v N; cbn [l4_recv]; [now split|].
  cbn [existsb] in N. apply orb_false_elim in N. destruct N as [N1 N2].
  destruct u as [s|d|]; [discriminate| |]; cbn [l4_on_update].
  - destruct (l4_reached maxMessages _).
    + cbn [l4_retryCount]. split; [reflexivity|].
      now destruct (l4_snapshotReceived v).
    + specialize (IH {| l4_retryCount := l4_retryCount v;
                        l4_totalMsgCount := S (l4_totalMsgCount v);
                        l4_snapshotReceived := l4_snapshotReceived v |}
                     N2).
      destruct (l4_recv maxMessages _ us) as [[v2 o2] stop].
      cbn [l4_retryCount] in IH. destruct IH as [I1 I2].
      split; [exact I1|].
      unfold l4_dials in *. rewrite filter_app, length_app, I2.
      now destruct (l4_snapshotReceived v).
  - destruct (l4_reached maxMessages _).
    + now split.
    + specialize (IH {| l4_retryCount := l4_retryCount v;
                        l4_totalMsgCount := S (l4_totalMsgCount v);
                        l4_snapshotReceived := l4_snapshotReceived v |}
                     N2).
      now destruct (l4_recv maxMessages _ us) as [[v2 o2] stop].
Qed.

Lemma l4_dials_app (a b : list (L4Out Snapshot Diff)) :
  l4_dials (a ++ b) = (l4_dials a + l4_dials b)%nat.
Proof. unfold l4_dials. now rewrite filter_app, length_app. Qed.

Lemma l4_loop_dials_without_snapshot (world : list Conn4) :
  Forall (fun c => existsb (@is_snapshot Snapshot Diff) (delivered c)
                   = false) world ->
  forall rc total,
    (l4_dials (fst (fst (l4_loop sym maxMessages rc total world)))
     <= maxRetries - rc)%nat.
Proof.
  induction 1 as [|c rest Q _ IH]; intros rc total; cbn [l4_loop].
  - destruct (rc <? maxRetries)%nat; cbn [fst l4_dials filter List.length];
      lia.
  - destruct (Nat.ltb_spec rc maxRetries) as [L|L];
      [|cbn [fst l4_dials filter List.length]; lia].
    destruct c as [m|m|us e].
    + cbn [fst l4_dials filter List.length]. lia.
    + destruct (0 <? rc)%nat; cbn [fst l4_dials filter List.length]; lia.
    + cbn [delivered] in Q.
      pose proof (@l4_recv_without_snapshot us
                    {| l4_retryCount := rc; l4_totalMsgCount := total;
                       l4_snapshotReceived := false |} Q) as R.
      destruct (l4_recv maxMessages _ us) as [[v o] stop].
      cbn [l4_retryCount] in R. destruct R as [R1 R2]. rewrite R1.
      assert (D : forall t : list (L4Out Snapshot Diff),
                 l4_dials (([L4Dial Snapshot Diff;
                             if (0 <? rc)%nat
                             then L4LogReconnecting Snapshot Diff
                                    (rc + 1) maxRetries
                             else L4LogConnecting Snapshot Diff;
                             L4StreamL4Book Snapshot Diff sym] ++ o) ++ t)
                 = S (l4_dials t)).
      { intro t. rewrite !l4_dials_app, R2.
        now destruct (0 <? rc)%nat. }
      assert (D0 : l4_dials ([L4Dial Snapshot Diff;
                             if (0 <? rc)%nat
                             then L4LogReconnecting Snapshot Diff
                                    (rc + 1) maxRetries
                             else L4LogConnecting Snapshot Diff;
                             L4StreamL4Book Snapshot Diff sym] ++ o)
                      = 1%nat).
      { rewrite <- (app_nil_r (_ ++ o)). now rewrite D. }
      destruct stop; [cbn [fst]; rewrite D0; lia|].
      destruct e as [|err|].
      * cbn [fst]. rewrite D. cbn [l4_dials filter List.length]. lia.
      * destruct (is_data_loss err).
        -- destruct (Nat.ltb_spec (S rc) maxRetries) as [L'|L'].
           ++ specialize (IH (S rc) (l4_totalMsgCount v)).
              destruct (l4_loop sym maxMessages (S rc) _ rest)
                as [[o' ret] t].
              cbn [fst] in *. rewrite D.
              unfold l4_dials in *. cbn [app filter]. lia.
           ++ cbn [fst]. rewrite D. cbn [l4_dials filter List.length]. lia.
        -- cbn [fst]. rewrite D. cbn [l4_dials filter List.length]. lia.
      * cbn [fst]. rewrite D0. lia.
Qed.

Lemma l4_sleeps_app (a b : list (L4Out Snapshot Diff)) :
  l4_sleeps (a ++ b) = l4_sleeps a ++ l4_sleeps b.
Proof. unfold l4_sleeps. apply flat_map_app. Qed.

(** A receive loop that the message limit does not stop: it takes
    every update; the counter is 0 after it when a snapshot came and
    is untouched otherwise. *)
Lemma l4_recv_open (us : list (L4Update Snapshot Diff)) : forall v,
  (maxMessages <= 0
   \/ Z.of_nat (l4_totalMsgCount v + List.length us) < maxMessages)%Z ->
  match l4_recv maxMessages v us with
  | (v', o, stop) =>
      stop = false
      /\ l4_totalMsgCount v' = (l4_totalMsgCount v + List.length us)%nat
      /\ l4_retryCount v'
         = (if existsb (@is_snapshot Snapshot Diff) us then 0%nat
            else l4_retryCount v)
      /\ l4_sleeps o = []
  end.
Proof.
  induction us as [|u us IH]; intros v B; cbn [List.length] in B;
    cbn [l4_recv List.length existsb].
  - repeat split. lia.
  - pose proof (l4_on_update_total v u) as T.
    assert (R : l4_retryCount (fst (l4_on_update v u))
                = if is_snapshot u then 0%nat else l4_retryCount v)
      by now destruct u.
    assert (S0 : l4_sleeps (snd (l4_on_update v u)) = []).
    { destruct u as [s|d|]; cbn [l4_on_update snd];
        [|destruct (l4_snapshotReceived v)|]; reflexivity. }
    destruct (l4_on_update v u) as [v1 o1]. cbn [fst snd] in T, R, S0.
    assert (N : l4_reached maxMessages (l4_totalMsgCount v1) = false).
    { unfold l4_reached.
      destruct (Z.ltb_spec 0 maxMessages) as [P|_]; [|reflexivity].
      destruct (Z.leb_spec maxMessages (Z.of_nat (l4_totalMsgCount v1)));
        [lia|reflexivity]. }
    rewrite N. specialize (IH v1).
    destruct (l4_recv maxMessages v1 us) as [[v2 o2] stop].
    destruct IH as (I1 & I2 & I3 & I4); [lia|].
    repeat split.
    + exact I1.
    + lia.
    + rewrite I3, R. now destruct (is_snapshot u), (existsb _ us).
    + now rewrite l4_sleeps_app, S0, I4.
Qed.

(** A DATA_LOSS after such a receive loop, with retries left. *)
Lemma l4_data_loss_step (rc total : nat)
    (us : list (L4Update Snapshot Diff)) (e : RecvError)
    (rest : list Conn4) :
  let rc' := S (if existsb (@is_snapshot Snapshot Diff) us then 0%nat
                else rc) in
  (rc < maxRetries)%nat -> is_data_loss e = true ->
  (maxMessages <= 0
   \/ Z.of_nat (total + List.length us) < maxMessages)%Z ->
  (rc' < maxRetries)%nat ->
  l4_sleeps (fst (fst (l4_loop sym maxMessages rc total
                         (Stream us (Failed e) :: rest))))
  = (goBaseDelay * 2 ^ Z.of_nat (rc' - 1))%Z
    :: l4_sleeps (fst (fst (l4_loop sym maxMessages rc'
                              (total + List.length us) rest)))
  /\ snd (fst (l4_loop sym maxMessages rc total
                 (Stream us (Failed e) :: rest)))
     = snd (fst (l4_loop sym maxMessages rc'
                   (total + List.length us) rest)).
Proof.
  intros rc' L D B L'. cbn [l4_loop].
  destruct (Nat.ltb_spec rc maxRetries) as [_|F]; [|lia].
  pose proof (@l4_recv_open us
                {| l4_retryCount := rc; l4_totalMsgCount := total;
                   l4_snapshotReceived := false |} B) as R.
  destruct (l4_recv maxMessages _ us) as [[v o] stop].
  cbn [l4_totalMsgCount l4_retryCount] in R.
  destruct R as (-> & T & C & Z). rewrite D, T, C. fold rc'.
  destruct (Nat.ltb_spec rc' maxRetries) as [_|F]; [|lia].
  destruct (l4_loop sym maxMessages rc' (total + List.length us) rest)
    as [[o' ret] t]. cbn [fst snd]. split; [|reflexivity].
  rewrite !l4_sleeps_app, Z.
  now destruct (0 <? rc)%nat.
Qed.

(** X16.  In the Go L4 stream a snapshot, and only a snapshot, resets
    the retry counter.  After a connection on which a snapshot
    arrived, a DATA_LOSS is followed by the base delay and the loop
    goes on with the counter at 1, whatever the counter was; after a
    connection that brought diffs only, the wait is the one of the old
    counter, which goes up by one.  So in a run without any snapshot
    the client dials at most [maxRetries] times, however many diffs
    arrive. *)
Theorem go_l4_only_snapshot_resets_backoff :
  (forall rc total us e rest,
     (rc < maxRetries)%nat -> is_data_loss e = true ->
     (maxMessages <= 0
      \/ Z.of_nat (total + List.length us) < maxMessages)%Z ->
     existsb (@is_snapshot Snapshot Diff) us = true ->
     l4_sleeps (fst (fst (l4_loop sym maxMessages rc total
                            (Stream us (Failed e) :: rest))))
     = goBaseDelay
       :: l4_sleeps (fst (fst (l4_loop sym maxMessages 1
                                 (total + List.length us) rest)))
     /\ snd (fst (l4_loop sym maxMessages rc total
                    (Stream us (Failed e) :: rest)))
        = snd (fst (l4_loop sym maxMessages 1
                      (total + List.length us) rest)))
  /\ (forall rc total us e rest,
        (S rc < maxRetries)%nat -> is_data_loss e = true ->
        (maxMessages <= 0
         \/ Z.of_nat (total + List.length us) < maxMessages)%Z ->
        existsb (@is_snapshot Snapshot Diff) us = false ->
        l4_sleeps (fst (fst (l4_loop sym maxMessages rc total
                               (Stream us (Failed e) :: rest))))
        = (goBaseDelay * 2 ^ Z.of_nat rc)%Z
          :: l4_sleeps (fst (fst (l4_loop sym maxMessages (S rc)
                                    (total + List.length us) rest)))
        /\ snd (fst (l4_loop sym maxMessages rc total
                       (Stream us (Failed e) :: rest)))
           = snd (fst (l4_loop sym maxMessages (S rc)
                         (total + List.length us) rest)))
  /\ (forall world : list Conn4,
        Forall (fun c => existsb (@is_snapshot Snapshot Diff) (delivered c)
                         = false) world ->
        (l4_dials (fst (fst (go_streamL4Orderbook sym maxMessages world)))
         <= maxRetries)%nat).
Proof.
  refine (conj _ (conj _ _)).
  - intros rc total us e rest L D B X.
    pose proof (@l4_data_loss_step rc total us e rest L D B) as H.
    cbv zeta in H. rewrite X in H. apply H. unfold maxRetries. lia.
  - intros rc total us e rest L D B X.
    assert (L0 : (rc < maxRetries)%nat) by lia.
    pose proof (@l4_data_loss_step rc total us e rest L0 D B) as H.
    cbv zeta in H. rewrite X in H.
    replace (S rc - 1)%nat with rc in H by lia. now apply H.
  - intros world Q. unfold go_streamL4Orderbook.
    pose proof (l4_loop_dials_without_snapshot Q 0 0) as H.
    destruct (l4_loop sym maxMessages 0 0 world) as [[o ret] t].
    cbn [fst] in *. unfold l4_dials in *. cbn [filter]. lia.
Qed.

End Facts.

Lemma go_l4_stops_at_max_messages_witness :
  match go_streamL4Orderbook (lit "BTC") 3
          [Stream [HasDiff nat 7%Z; HasSnapshot Z 1%nat]
             (Failed (StatusError Sample.data_loss));
           Stream [HasDiff nat 8%Z; HasDiff nat 9%Z; HasDiff nat 10%Z]
             EOF]
  with
  | (os, ret, _) =>
      (Z.of_nat (l4_handled os) <= 3)%Z
      /\ (Z.of_nat (l4_handled os) = 3%Z ->
          ret = ReturnNil /\ In (L4LogReached nat Z 3) os)
  end.
Proof.
  apply (@go_l4_stops_at_max_messages nat Z (lit "BTC") 3).
  lia.
Defined.

(** That run in full: two updates on the first connection, one on the
    second, and the limit of three is reached there. *)
Example go_l4_limit_across_reconnect :
  go_streamL4Orderbook (lit "BTC") 3
    [Stream [HasDiff nat 7%Z; HasSnapshot Z 1%nat]
       (Failed (StatusError Sample.data_loss));
     Stream [HasDiff nat 8%Z; HasDiff nat 9%Z; HasDiff nat 10%Z] EOF]
  = ([L4LogHeader nat Z (lit "BTC"); L4Dial nat Z;
      L4LogConnecting nat Z; L4StreamL4Book nat Z (lit "BTC");
      L4LogDiffBeforeSnapshot nat Z; L4LogDiff nat 7%Z;
      L4LogSnapshot Z 1%nat;
      L4LogReinitialized nat Z (lit "reinitialized");
      L4LogWaiting nat Z goBaseDelay; L4Sleep nat Z goBaseDelay;
      L4Close nat Z; L4Dial nat Z;
      L4LogReconnecting nat Z 2 maxRetries;
      L4StreamL4Book nat Z (lit "BTC");
      L4LogDiffBeforeSnapshot nat Z; L4LogDiff nat 8%Z;
      L4LogReached nat Z 3; L4Close nat Z],
     ReturnNil, 3%nat).
Proof. reflexivity. Qed.

Lemma go_l4_only_snapshot_resets_backoff_witness :
  l4_sleeps (fst (fst (l4_loop (lit "BTC") 0 7 0
                         [Stream [HasDiff nat 7%Z; HasSnapshot Z 1%nat]
                            (Failed (StatusError Sample.data_loss))])))
  = [goBaseDelay]
  /\ l4_sleeps (fst (fst (l4_loop (lit "BTC") 0 7 0
                            [Stream [HasDiff nat 7%Z; HasDiff nat 8%Z]
                               (Failed (StatusError Sample.data_loss))])))
     = [(goBaseDelay * 2 ^ 7)%Z]
  /\ (l4_dials (fst (fst (go_streamL4Orderbook (lit "BTC") 0
                            (repeat (Stream [HasDiff nat 7%Z]
                                       (Failed (StatusError
                                                  Sample.data_loss)))
                               12))))
      <= maxRetries)%nat.
Proof.
  destruct (@go_l4_only_snapshot_resets_backoff nat Z (lit "BTC") 0)
    as (H1 & H2 & H3).
  refine (conj _ (conj _ _)).
  - destruct (H1 7%nat 0%nat [HasDiff nat 7%Z; HasSnapshot Z 1%nat]
                (StatusError Sample.data_loss) []) as [E _].
    + unfold maxRetries. lia.
    + reflexivity.
    + left. lia.
    + reflexivity.
    + rewrite E. reflexivity.
  - destruct (H2 7%nat 0%nat [HasDiff nat 7%Z; HasDiff nat 8%Z]
                (StatusError Sample.data_loss) []) as [E _].
    + unfold maxRetries. lia.
    + reflexivity.
    + left. lia.
    + reflexivity.
    + rewrite E. reflexivity.
  - apply H3. repeat constructor.
Defined.

End GoL4Facts.
